(** * pystemd.run: a shallow embedding of [pystemd/run.py]

    The development follows the source file top to bottom:
    - Python values, dictionaries and truthiness;
    - the [CExit] resource guard (class [CExit], lines 30-42);
    - [get_fno] (lines 45-58);
    - the world the call acts on (caller dictionaries, terminal
      attributes, the record of system calls) and an error/state monad;
    - [run] (lines 61-340), phase by phase;
    - the theorems. *)

From Stdlib Require Import ZArith List String QArith.
From stdpp Require Import base tactics option list gmap strings.

Set Warnings "-register-all".

Local Open Scope string_scope.
Local Open Scope list_scope.
Local Open Scope Z_scope.

(** ** Python values *)

(** The fragment of Python values that flows through [run]: [None],
    booleans, integers, [str], [bytes], lists and tuples.  [str] and
    [bytes] are kept apart because [b"TERM"] and ["TERM"] are different
    dictionary keys. *)
Inductive pyval : Type :=
| VNone
| VBool (b : bool)
| VInt (z : Z)
| VStr (s : string)
| VBytes (s : string)
| VList (l : list pyval)
| VTuple (l : list pyval).

(** Python truthiness ([bool(v)]). *)
Definition truthy (v : pyval) : bool :=
  match v with
  | VNone => false
  | VBool b => b
  | VInt z => negb (Z.eqb z 0)
  | VStr s | VBytes s => negb (String.eqb s EmptyString)
  | VList l | VTuple l => match l with [] => false | _ => true end
  end.

(** [a or b]. *)
Definition py_or (a b : pyval) : pyval := if truthy a then a else b.

(** [v is None], as a boolean. *)
Definition is_none (v : pyval) : bool :=
  match v with VNone => true | _ => false end.

(** [v == b] for a [bytes] literal [b]: only a [bytes] value with the
    same content compares equal. *)
Definition eq_bytes (v : pyval) (b : string) : bool :=
  match v with VBytes s => String.eqb s b | _ => false end.

(** Dictionary keys are [str] or [bytes] objects. *)
Inductive pykey : Type :=
| KStr (s : string)
| KBytes (s : string).

#[global] Instance pykey_eq_dec : EqDecision pykey.
Proof. solve_decision. Defined.

#[global] Instance pykey_countable : Countable pykey.
Proof.
  refine (inj_countable'
            (fun k => match k with KStr s => inl s | KBytes s => inr s end)
            (fun x => match x with inl s => KStr s | inr s => KBytes s end) _).
  by intros [].
Defined.

(** A Python [dict] with string-like keys. *)
Abbreviation dict := (gmap pykey pyval).

(** [d.pop(k, default)]: the value and the dictionary without [k]. *)
Definition dict_pop (k : pykey) (dflt : pyval) (d : dict) : pyval * dict :=
  (default dflt (d !! k), delete k d).

(** [d.update(e)]: entries of [e] win. *)
Definition dict_update (d e : dict) : dict := e ∪ d.

(** [{k: v for k, v in d.items() if v is not None}]. *)
Definition drop_none (d : dict) : dict :=
  filter (fun kv => is_none kv.2 = false) d.

(** ** The resource guard [CExit] (lines 30-42) *)

Module CExit.
Section Guard.
(** [W] is the state the registered callables act on, [A] the
    registered triple [(meth, args, kwargs)], [E] what a callable may
    raise.  [call a w] is the call of [meth] on its arguments: the new
    state and the exception raised, if any. *)
Context {W A E : Type}.
Variable call : A -> W -> option E * W.

(** [self.pipe]. *)
Record t := Make { pipe : list A }.

(** [__init__]. *)
Definition init : t := Make [].

(** [register]: [self.pipe.append((meth, args, kwargs))]. *)
Definition register (a : A) (g : t) : t := Make (pipe g ++ [a]).

(** The [for] loop of [__exit__] over an explicit list.  The first
    component is the list of callables that were called, in call
    order; a callable that raises ends the loop and the exception
    leaves [__exit__]. *)
Fixpoint call_all (l : list A) (w : W) : list A * option E * W :=
  match l with
  | [] => ([], None, w)
  | a :: rest =>
      match call a w with
      | (Some e, w') => ([a], Some e, w')
      | (None, w') =>
          let '(done_, r, w'') := call_all rest w' in
          (a :: done_, r, w'')
      end
  end.

(** [__exit__]: the exception of the scope ([excargs]), if any, is
    ignored; the pipe is run in reverse. *)
Definition exit_ (g : t) (excargs : option E) (w : W)
  : list A * option E * W :=
  call_all (rev (pipe g)) w.

(** Registering a sequence of cleanups on a fresh guard. *)
Definition registered (l : list A) : t :=
  fold_left (fun g a => register a g) l init.

(** No callable of [l] raises when the list is run from [w]. *)
Fixpoint all_return (l : list A) (w : W) : Prop :=
  match l with
  | [] => True
  | a :: rest => (call a w).1 = None /\ all_return rest (call a w).2
  end.
End Guard.
End CExit.

(** ** [get_fno] (lines 45-58) *)

(** What a caller may pass as [stdin], [stdout] or [stderr]: [None], an
    integer, an object with a callable [fileno] (given by the integer
    that [fileno()] returns), or anything else. *)
Inductive fobj : Type :=
| FNone
| FInt (fd : Z)
| FFile (fileno : Z)
| FOther.

(** Calls into collaborators that may raise; the constructor names the
    call site. *)
Inductive extcall : Type :=
| CX2cmdlist | CBusEnter | CBusExit | CManagerEnter | CManagerExit
| CMachineOpenPTY | COpenpty | CTtyname | CIoctlGet | CIoctlSet
| CUnitInit | CMonOpen | CBecomeMonitor | CStartTransientUnit
| CUnitLoad | COsClose | CTcsetattr | CMonClose.

(** Exceptions.  [PystemdRunError cmd status] stands for the error whose
    message is ["cmd {} exited with status {}".format(cmd, status)]. *)
Inductive exn : Type :=
| TypeError
| ValueError
| OSError
| TermiosError
| External (c : extcall)
| PystemdRunError (cmd : pyval) (status : Z).

Definition get_fno (obj : fobj) : exn + option Z :=
  match obj with
  | FNone => inr None
  | FInt fd => inr (Some fd)
  | FFile fd => inr (Some fd)
  | FOther => inl TypeError
  end.

(** ** The state [run] acts on *)

(** Terminal attributes: the list that [termios.tcgetattr] returns,
    flattened to integers. *)
Abbreviation termattrs := (list Z).

Inductive tcwhen : Type := TCSANOW | TCSADRAIN | TCSAFLUSH.

(** What [run] registers with its guard. *)
Inductive action : Type :=
| ActClose (fd : Z)                                    (* os.close, fd *)
| ActTcsetattr (fd : Z) (when_ : tcwhen) (attrs : termattrs)
| ActMonClose.                                         (* monbus.close *)

(** System calls and bus requests that leave the process, in order. *)
Inductive event : Type :=
| EvSetraw (fd : Z)
| EvTcsetattr (fd : Z) (when_ : tcwhen) (attrs : termattrs)
| EvClose (fd : Z)
| EvMonClose
| EvWinsz (fd : Z) (winsize : string)
| EvWrite (fd : Z) (data : string)
| EvBecomeMonitor (mstr : string)
| EvStartTransientUnit (name : string) (mode : string) (props : dict).

(** Caller dictionaries live in a heap, so that an argument mutated in
    place is seen changed by the caller. *)
Abbreviation loc := positive.

Record state : Type := MkState {
  heap : gmap loc dict;         (* dictionaries the caller holds *)
  tattr : gmap Z termattrs;     (* attributes of the terminal descriptors *)
  log : list event;             (* what was done so far *)
  ctexit : CExit.t (A := action) (* the guard of the [with] statement *)
}.

Definition set_heap (h : gmap loc dict) (s : state) : state :=
  MkState h (tattr s) (log s) (ctexit s).
Definition set_tattr (t : gmap Z termattrs) (s : state) : state :=
  MkState (heap s) t (log s) (ctexit s).
Definition add_log (ev : event) (s : state) : state :=
  MkState (heap s) (tattr s) (log s ++ [ev]) (ctexit s).
Definition set_ctexit (g : CExit.t (A := action)) (s : state) : state :=
  MkState (heap s) (tattr s) (log s) g.

(** ** An error and state monad *)

(** [Blocked]: the call never returns ([select] waits for ever). *)
Inductive outcome (A : Type) : Type :=
| Ok (a : A)
| Raise (e : exn)
| Blocked.
Arguments Ok {A} a.
Arguments Raise {A} e.
Arguments Blocked {A}.

Definition M (A : Type) : Type := state -> outcome A * state.

Definition ret {A} (a : A) : M A := fun s => (Ok a, s).
Definition raise {A} (e : exn) : M A := fun s => (Raise e, s).
Definition bind {A B} (m : M A) (k : A -> M B) : M B :=
  fun s =>
    match m s with
    | (Ok a, s') => k a s'
    | (Raise e, s') => (Raise e, s')
    | (Blocked, s') => (Blocked, s')
    end.

Notation "x <-- m ;; k" := (bind m (fun x => k))
  (at level 100, m at next level, right associativity).
Notation "m ;;; k" := (bind m (fun _ => k))
  (at level 100, right associativity).

Definition modify (f : state -> state) : M unit := fun s => (Ok tt, f s).
Definition emit (ev : event) : M unit := modify (add_log ev).
Definition of_sum {A} (r : exn + A) : M A :=
  match r with inl e => raise e | inr a => ret a end.

(** [ctexit.register(...)]. *)
Definition register (a : action) : M unit :=
  modify (fun s => set_ctexit (CExit.register a (ctexit s)) s).

(** ** Collaborators *)

(** A decoded monitor message: [m.get_path()], [m.body[0]] and
    [m.body[1]]. *)
Record message : Type := MkMessage {
  m_path : string;
  m_body0 : pyval;
  m_body1 : dict
}.

(** What one turn of the waiting loop finds: the descriptors [select]
    has ready, what [os.read] gives on the caller's stdin and on the pty
    master ([None]: [OSError]), what [monbus.process()] gives ([None]:
    an empty message) and the value of [unit.Service.MainPID]. *)
Record tick : Type := MkTick {
  t_ready : list Z;
  t_stdin_read : option string;
  t_master_read : option string;
  t_message : option message;
  t_main_pid : Z
}.

(** Everything [run] takes from outside its own file: the helpers of
    [pystemd.utils], the bus, the service manager, the operating
    system.  [fails c] tells that the call at site [c] raises. *)
Record collab : Type := MkCollab {
  fails : extcall -> bool;
  x2cmdlist : pyval -> option (list pyval); (* [None]: it raises *)
  x2char_star : pyval -> string;
  uuid_hex : string;                        (* uuid.uuid4().hex *)
  getenv_TERM : option string;              (* os.getenv("TERM") *)
  machine_pty : Z * string;                 (* m.Machine.OpenPTY() *)
  local_pty : Z * Z;                        (* ptylib.openpty() *)
  ttyname : Z -> string;                    (* os.ttyname *)
  raw_attrs : termattrs -> termattrs;       (* the mode tty.setraw sets *)
  winsize : string;                         (* ioctl TIOCGWINSZ *)
  unit_path : string;                       (* unit.path *)
  monitor_fd : Z;                           (* monbus.get_fd() *)
  start_job : string;                       (* StartTransientUnit(...) *)
  script : list tick;                       (* the turns of the loop *)
  exec_main_status : Z                      (* unit.Service.ExecMainStatus *)
}.

(** A call that may raise and has no other effect on the state. *)
Definition ext (c : collab) (site : extcall) : M unit :=
  if fails c site then raise (External site) else ret tt.

(** Running a registered callable. *)
Definition call_action (c : collab) (a : action) (s : state)
  : option exn * state :=
  match a with
  | ActClose fd =>
      if fails c COsClose then (Some (External COsClose), s)
      else (None, add_log (EvClose fd) s)
  | ActTcsetattr fd when_ attrs =>
      if fails c CTcsetattr then (Some (External CTcsetattr), s)
      else match tattr s !! fd with
           | Some _ =>
               (None, add_log (EvTcsetattr fd when_ attrs)
                        (set_tattr (<[fd := attrs]> (tattr s)) s))
           | None => (Some TermiosError, s)
           end
  | ActMonClose =>
      if fails c CMonClose then (Some (External CMonClose), s)
      else (None, add_log EvMonClose s)
  end.

Definition exc_of {A} (r : outcome A) : option exn :=
  match r with Raise e => Some e | _ => None end.

(** [with CExit() as ctexit: body]. *)
Definition with_cexit {A} (c : collab) (body : M A) : M A :=
  fun s =>
    match body (set_ctexit CExit.init s) with
    | (Blocked, s') => (Blocked, s')
    | (r, s') =>
        let '(_, e, s'') :=
          CExit.exit_ (call_action c) (ctexit s') (exc_of r) s' in
        (match e with Some e' => Raise e' | None => r end, s'')
    end.

(** [with X as x: body] for the bus and the manager: [__enter__] and
    [__exit__] are collaborator calls. *)
Definition with_ctx {A} (c : collab) (enter exit_site : extcall)
  (body : M A) : M A :=
  fun s =>
    if fails c enter then (Raise (External enter), s)
    else match body s with
         | (Blocked, s') => (Blocked, s')
         | (r, s') =>
             if fails c exit_site then (Raise (External exit_site), s')
             else (r, s')
         end.

(** ** The arguments of [run] *)

Record args : Type := MkArgs {
  a_cmd : pyval;
  a_address : pyval;
  a_service_type : pyval;
  a_name : pyval;
  a_user : pyval;
  a_user_mode : bool;
  a_nice : pyval;
  a_runtime_max_sec : option Z;   (* [None] or an integer *)
  a_env : option loc;             (* [None] or a dictionary object *)
  a_extra : option loc;
  a_cwd : pyval;
  a_machine : pyval;
  a_wait : bool;
  a_remain_after_exit : pyval;
  a_collect : bool;
  a_raise_on_fail : bool;
  a_pty : bool;
  a_pty_master : option Z;
  a_pty_path : pyval;
  a_stdin : fobj;
  a_stdout : fobj;
  a_stderr : fobj;
  a_wait_polling : option Q;      (* [None] or a number of seconds *)
  a_slice : pyval;
  a_stop_cmd : pyval;
  a_stop_post_cmd : pyval;
  a_start_pre_cmd : pyval;
  a_start_post_cmd : pyval
}.

(** The three bus classes [bus_factory] chooses from (lines 154-160). *)
Inductive bus : Type :=
| DBusAddress (address : string)
| DBusMachine (machine : string)
| DBus (user_mode : bool).

Definition bus_factory (c : collab) (a : args) : bus :=
  if truthy (a_address a) then DBusAddress (x2char_star c (a_address a))
  else if truthy (a_machine a) then DBusMachine (x2char_star c (a_machine a))
  else DBus (a_user_mode a).

(** The unit object [run] returns. *)
Record unit_handle : Type := MkUnit {
  u_name : string;
  u_path : string;
  u_bus_context : bus
}.

(** ** [run], lines 162-178: the locals *)

(** A local variable that holds a dictionary: the caller's own object
    (mutations are seen by the caller) or a dictionary the call made. *)
Inductive dvar : Type :=
| ByRef (l : loc)
| Private (d : dict).

(** [x or {}] for a dictionary argument: an absent or empty argument
    gives a new dictionary, anything else the argument itself. *)
Definition or_empty (arg : option loc) (s : state) : dvar :=
  match arg with
  | None => Private ∅
  | Some l =>
      match heap s !! l with
      | Some d => if decide (size d = 0%nat) then Private ∅ else ByRef l
      | None => Private ∅
      end
  end.

Definition dread (v : dvar) (s : state) : dict :=
  match v with
  | ByRef l => default ∅ (heap s !! l)
  | Private d => d
  end.

Definition dwrite (v : dvar) (d : dict) : M dvar :=
  match v with
  | ByRef l =>
      fun s => (Ok (ByRef l), set_heap (<[l := d]> (heap s)) s)
  | Private _ => ret (Private d)
  end.

(** [v.pop(k, dflt)]. *)
Definition dpop (k : pykey) (dflt : pyval) (v : dvar) : M (pyval * dvar) :=
  fun s =>
    let '(x, d') := dict_pop k dflt (dread v s) in
    match dwrite v d' s with
    | (Ok v', s') => (Ok (x, v'), s')
    | (Raise e, s') => (Raise e, s')
    | (Blocked, s') => (Blocked, s')
    end.

Definition opt_int (o : option Z) : pyval :=
  match o with Some z => VInt z | None => VNone end.

(** Line 163: [(runtime_max_sec or 0) * 10**6 or runtime_max_sec]. *)
Definition runtime_max_usec (sec : option Z) : pyval :=
  let n := match sec with
           | Some z => if truthy (VInt z) then z else 0
           | None => 0
           end in
  py_or (VInt (n * 10 ^ 6)) (opt_int sec).

(** [a + b] where [a] is a list: [b] has to be a list too. *)
Definition list_add (a : list pyval) (b : pyval) : M (list pyval) :=
  match b with
  | VList l => ret (a ++ l)
  | _ => raise TypeError
  end.

(** Lines 171-175, one line each:
    [x2cmdlist(what, False) + extra.pop(key, [])]. *)
Definition merged_cmd (c : collab) (what : pyval) (key : pykey)
  (extra : dvar) : M (list pyval * dvar) :=
  a <-- match x2cmdlist c what with
        | Some l => ret l
        | None => raise (External CX2cmdlist)
        end ;;
  p <-- dpop key (VList []) extra ;;
  r <-- list_add a p.1 ;;
  ret (r, p.2).

Definition truthy_q (o : option Q) : bool :=
  match o with Some q => negb (Qeq_bool q 0) | None => false end.

Record locals : Type := MkLocals {
  l_name : string;
  l_runtime_max_usec : pyval;
  l_stdin : option Z;
  l_stdout : option Z;
  l_stderr : option Z;
  l_env : dvar;
  l_extra : dvar;
  l_start_cmd : list pyval;
  l_stop_cmd : list pyval;
  l_stop_post_cmd : list pyval;
  l_start_pre_cmd : list pyval;
  l_start_post_cmd : list pyval;
  l_wait_polling : option Q
}.

Definition default_name (c : collab) : string :=
  ("pystemd" ++ uuid_hex c ++ ".service")%string.

Definition prologue (c : collab) (a : args) : M locals :=
  let name := x2char_star c (py_or (a_name a) (VStr (default_name c))) in
  let usec := runtime_max_usec (a_runtime_max_sec a) in
  stdin <-- of_sum (get_fno (a_stdin a)) ;;
  stdout <-- of_sum (get_fno (a_stdout a)) ;;
  stderr <-- of_sum (get_fno (a_stderr a)) ;;
  env <-- (fun s => (Ok (or_empty (a_env a) s), s)) ;;
  extra <-- (fun s => (Ok (or_empty (a_extra a) s), s)) ;;
  start <-- merged_cmd c (a_cmd a) (KBytes "ExecStart") extra ;;
  stop <-- merged_cmd c (a_stop_cmd a) (KBytes "ExecStop") start.2 ;;
  stop_post <--
    merged_cmd c (a_stop_post_cmd a) (KBytes "ExecStopPost") stop.2 ;;
  start_pre <--
    merged_cmd c (a_start_pre_cmd a) (KBytes "ExecStartPre") stop_post.2 ;;
  start_post <--
    merged_cmd c (a_start_post_cmd a) (KBytes "ExecStartPost")
      start_pre.2 ;;
  let wait_polling :=
    if a_user_mode a
    then Some (if truthy_q (a_wait_polling a)
               then default 0%Q (a_wait_polling a) else (1 # 2)%Q)
    else a_wait_polling a in
  ret (MkLocals name usec stdin stdout stderr env start_post.2
         start.1 stop.1 stop_post.1 start_pre.1 start_post.1 wait_polling).

(** ** [run], lines 182-234: the pseudo-terminal *)

(** Lines 182-189: the master descriptor and the path of the terminal. *)
Definition open_pty (c : collab) (a : args) : M (option Z * pyval) :=
  if a_pty a then
    if truthy (a_machine a) then
      ext c CMachineOpenPTY ;;;
      ret (Some (machine_pty c).1, VBytes (machine_pty c).2)
    else
      ext c COpenpty ;;;
      ext c CTtyname ;;;
      register (ActClose (local_pty c).1) ;;;
      ret (Some (local_pty c).1, VBytes (ttyname c (local_pty c).2))
  else ret (a_pty_master a, a_pty_path a).

Definition tcgetattr (fd : Z) : M termattrs :=
  fun s =>
    match tattr s !! fd with
    | Some t => (Ok t, s)
    | None => (Raise TermiosError, s)
    end.

Definition setraw (c : collab) (fd : Z) : M unit :=
  fun s =>
    match tattr s !! fd with
    | Some t =>
        (Ok tt, add_log (EvSetraw fd)
                  (set_tattr (<[fd := raw_attrs c t]> (tattr s)) s))
    | None => (Raise TermiosError, s)
    end.

(** Lines 204-211. *)
Definition wire_stdin (c : collab) (stdin pty_master : option Z)
  (selectors : list Z) : M (list Z) :=
  match stdin, pty_master with
  | Some fd, Some _ =>
      stdin_attrs <-- tcgetattr fd ;;
      setraw c fd ;;;
      register (ActTcsetattr fd TCSAFLUSH stdin_attrs) ;;;
      ret (selectors ++ [fd])
  | _, _ => ret selectors
  end.

(** Line 215: [env[b"TERM"] = env.get(b"TERM", term.encode())]. *)
Definition set_term (term : string) (env : dvar) : M dvar :=
  fun s =>
    let d := dread env s in
    dwrite env
      (<[KBytes "TERM" := default (VBytes term) (d !! KBytes "TERM")]> d) s.

(** Lines 213-222. *)
Definition wire_stdout (c : collab) (stdout pty_master : option Z)
  (env : dvar) (selectors : list Z) : M (dvar * list Z) :=
  match stdout, pty_master with
  | Some _, Some master =>
      env' <-- match getenv_TERM c with
               | Some term =>
                   if truthy (VStr term) then set_term term env else ret env
               | None => ret env
               end ;;
      ext c CIoctlGet ;;;
      ext c CIoctlSet ;;;
      emit (EvWinsz master (winsize c)) ;;;
      ret (env', selectors ++ [master])
  | _, _ => ret (env, selectors)
  end.

Definition tty_properties (pty_path : pyval) : dict :=
  list_to_map
    [ (KBytes "StandardInput", VBytes "tty");
      (KBytes "StandardOutput", VBytes "tty");
      (KBytes "StandardError", VBytes "tty");
      (KBytes "TTYPath", pty_path) ].

(** [get_fno(x) if x else x], for [x] that is [None] or an integer. *)
Definition fd_property (o : option Z) : pyval :=
  if truthy (opt_int o)
  then match get_fno (match o with Some fd => FInt fd | None => FNone end)
       with
       | inr r => opt_int r
       | inl _ => VNone
       end
  else opt_int o.

Definition fd_properties (l : locals) : dict :=
  list_to_map
    [ (KBytes "StandardInputFileDescriptor", fd_property (l_stdin l));
      (KBytes "StandardOutputFileDescriptor", fd_property (l_stdout l));
      (KBytes "StandardErrorFileDescriptor", fd_property (l_stderr l)) ].

(** Lines 191-234: the properties so far, the selectors and [env]. *)
Definition pty_wire (c : collab) (a : args) (l : locals)
  (pty_master : option Z) (pty_path : pyval) : M (dict * list Z * dvar) :=
  let up : dict :=
    if truthy (a_slice a)
    then {[ KBytes "Slice" := VBytes (x2char_star c (a_slice a)) ]}
    else ∅ in
  if truthy pty_path then
    sel <-- wire_stdin c (l_stdin l) pty_master [] ;;
    r <-- wire_stdout c (l_stdout l) pty_master (l_env l) sel ;;
    ret (dict_update up (tty_properties pty_path), r.2, r.1)
  else ret (dict_update up (fd_properties l), [], l_env l).

(** ** [run], lines 236-260: the unit properties *)

(** [x or None] for a list [x]. *)
Definition or_none (l : list pyval) : pyval := py_or (VList l) VNone.

Definition key_val (k : pykey) : pyval :=
  match k with KStr s => VStr s | KBytes s => VBytes s end.

(** Lines 251-255.  The order of [env.items()] is the order of
    [map_to_list]; no statement below depends on it. *)
Definition environment (c : collab) (env : dict) : pyval :=
  or_none
    (map (fun kv =>
            VBytes (x2char_star c (key_val kv.1) ++ "="
                    ++ x2char_star c kv.2)%string)
       (map_to_list env)).

(** The dictionary literal of lines 237-256. *)
Definition builtin_properties (c : collab) (a : args) (l : locals)
  (env : dict) : dict :=
  list_to_map
    [ (KBytes "Type", a_service_type a);
      (KBytes "Description", VBytes ("pystemd: " ++ l_name l)%string);
      (KBytes "ExecStartPre", or_none (l_start_pre_cmd l));
      (KBytes "ExecStart", VList (l_start_cmd l));
      (KBytes "ExecStartPost", or_none (l_start_post_cmd l));
      (KBytes "ExecStop", or_none (l_stop_cmd l));
      (KBytes "ExecStopPost", or_none (l_stop_post_cmd l));
      (KBytes "RemainAfterExit", a_remain_after_exit a);
      (KBytes "CollectMode",
        if a_collect a then VBytes "inactive-or-failed" else VNone);
      (KBytes "WorkingDirectory", a_cwd a);
      (KBytes "User", a_user a);
      (KBytes "Nice", a_nice a);
      (KBytes "RuntimeMaxUSec", l_runtime_max_usec l);
      (KBytes "Environment", environment c env) ].

(** Lines 236-260: [up] is [unit_properties] as lines 191-234 left it,
    [env] and [extra] the contents of the two dictionaries now. *)
Definition unit_properties_final (c : collab) (a : args) (l : locals)
  (up env extra : dict) : dict :=
  drop_none
    (dict_update (dict_update up (builtin_properties c a l env)) extra).

(** ** [run], lines 262-289: the unit, the monitor, the request *)

(** Lines 265-274. *)
Definition mstr (path : string) : string :=
  ("type='signal',sender='org.freedesktop.systemd1',path='" ++ path
   ++ "',interface='org.freedesktop.DBus.Properties',"
   ++ "member='PropertiesChanged'")%string.

(** A bus request: it is sent, then the reply may be an error. *)
Definition request (c : collab) (site : extcall) (ev : event) : M unit :=
  emit ev ;;; ext c site.

(** Lines 263-284. *)
Definition monitor_setup (c : collab) (a : args) (selectors : list Z)
  : M (list Z) :=
  if a_wait a then
    ext c CMonOpen ;;;
    register ActMonClose ;;;
    request c CBecomeMonitor (EvBecomeMonitor (mstr (unit_path c))) ;;;
    ret (selectors ++ [monitor_fd c])
  else ret selectors.

(** ** [run], lines 291-328: the waiting loop *)

Definition EXIT_SUBSTATES : list string := ["exited"; "failed"; "dead"].

Inductive exit_by : Type := BySignal | ByPolling.

(** How one turn of [while wait] ends: [break], or on to the next turn
    with the selectors it leaves. *)
Inductive turn : Type :=
| Break (by_ : exit_by)
| Continue (selectors : list Z).

(** [select.select(selectors, [], [], timeout)]: those of [selectors]
    that are ready. *)
Definition select (selectors : list Z) (t : tick) : list Z :=
  filter (fun fd => fd ∈ t_ready t) selectors.

(** [x in _in] for [x] that is [None] or a descriptor. *)
Definition mem (x : option Z) (_in : list Z) : bool :=
  match x with Some fd => bool_decide (fd ∈ _in) | None => false end.

Definition os_read (r : option string) : M string :=
  match r with Some data => ret data | None => raise OSError end.

Definition os_write (fd : option Z) (data : string) : M unit :=
  match fd with
  | Some fd => emit (EvWrite fd data)
  | None => raise TypeError
  end.

(** [selectors.remove(x)]: the first occurrence. *)
Fixpoint list_remove (x : Z) (l : list Z) : list Z :=
  match l with
  | [] => []
  | y :: rest => if decide (x = y) then rest else y :: list_remove x rest
  end.

(** Lines 294-296. *)
Definition forward_stdin (stdin pty_master : option Z) (t : tick)
  (_in : list Z) : M unit :=
  if mem stdin _in then
    data <-- os_read (t_stdin_read t) ;;
    os_write pty_master data
  else ret tt.

(** Lines 298-305. *)
Definition forward_master (pty_master stdout : option Z) (t : tick)
  (_in selectors : list Z) : M (list Z) :=
  if mem pty_master _in then
    match t_master_read t with
    | None =>
        ret (match pty_master with
             | Some fd => list_remove fd selectors
             | None => selectors
             end)
    | Some data => os_write stdout data ;;; ret selectors
    end
  else ret selectors.

(** [_, x = v]: unpacking a sequence of two. *)
Definition unpack_second (v : pyval) : option pyval :=
  match v with
  | VTuple [_; x] | VList [_; x] => Some x
  | VStr (String _ (String ch EmptyString)) =>
      Some (VStr (String ch EmptyString))
  | VBytes (String _ (String ch EmptyString)) =>
      Some (VInt (Z.of_nat (Ascii.nat_of_ascii ch)))
  | _ => None
  end.

Definition message_job (m : message) : pyval :=
  default (VTuple [VInt 0; VBytes "/"]) (m_body1 m !! KBytes "Job").

Definition message_substate (m : message) : pyval :=
  default VNone (m_body1 m !! KBytes "SubState").

(** Lines 313-323: does this message end the loop? *)
Definition message_exits (path unit_start_job : string) (m : message)
  : M bool :=
  if String.eqb (m_path m) path
     && eq_bytes (m_body0 m) "org.freedesktop.systemd1.Unit"
  then
    match unpack_second (message_job m) with
    | None => raise ValueError
    | Some message_job_path =>
        ret (negb (eq_bytes message_job_path unit_start_job)
             && existsb (eq_bytes (message_substate m)) EXIT_SUBSTATES)
    end
  else ret false.

(** Line 325: [_wait_polling and not _in and MainPID == 0]. *)
Definition polling_exit (wait_polling : option Q) (_in : list Z)
  (main_pid : Z) : bool :=
  truthy_q wait_polling
  && match _in with [] => true | _ => false end
  && (main_pid =? 0).

(** Lines 294-305: forwarding between the caller and the pty. *)
Definition forward (l : locals) (pty_master : option Z) (t : tick)
  (_in selectors : list Z) : M (list Z) :=
  forward_stdin (l_stdin l) pty_master t _in ;;;
  forward_master pty_master (l_stdout l) t _in selectors.

(** Lines 292-328: one turn. *)
Definition loop_turn (c : collab) (l : locals) (pty_master : option Z)
  (unit_start_job : string) (selectors : list Z) (t : tick) : M turn :=
  let _in := select selectors t in
  selectors' <-- forward l pty_master t _in selectors ;;
  let polling :=
    if polling_exit (l_wait_polling l) _in (t_main_pid t)
    then Break ByPolling else Continue selectors' in
  if bool_decide (monitor_fd c ∈ _in) then
    match t_message t with
    | None => ret (Continue selectors')
    | Some m =>
        b <-- message_exits (unit_path c) unit_start_job m ;;
        ret (if b then Break BySignal else polling)
    end
  else ret polling.

(** [while wait], for a call with [wait] set: the turns are those of
    the script; when the script is over, [select] waits for ever. *)
Fixpoint event_loop (c : collab) (l : locals) (pty_master : option Z)
  (unit_start_job : string) (ticks : list tick) (selectors : list Z)
  : M exit_by :=
  match ticks with
  | [] => fun s => (Blocked, s)
  | t :: rest =>
      r <-- loop_turn c l pty_master unit_start_job selectors t ;;
      match r with
      | Break by_ => ret by_
      | Continue selectors' =>
          event_loop c l pty_master unit_start_job rest selectors'
      end
  end.

(** ** [run], lines 330-340 *)

(** Lines 330-336. *)
Definition failure_policy (c : collab) (a : args) : M unit :=
  if a_raise_on_fail a then
    if truthy (VInt (exec_main_status c))
    then raise (PystemdRunError (a_cmd a) (exec_main_status c))
    else ret tt
  else ret tt.

(** Lines 236-260, with the two dictionaries read where they are. *)
Definition read_properties (c : collab) (a : args) (l : locals)
  (up : dict) (env : dvar) : M dict :=
  fun s =>
    (Ok (unit_properties_final c a l up (dread env s)
           (dread (l_extra l) s)), s).

(** Lines 262-340. *)
Definition launch (c : collab) (a : args) (l : locals)
  (pty_master : option Z) (selectors : list Z) (props : dict)
  : M unit_handle :=
  ext c CUnitInit ;;;
  selectors' <-- monitor_setup c a selectors ;;
  request c CStartTransientUnit
    (EvStartTransientUnit (l_name l) "fail" props) ;;;
  (if a_wait a
   then event_loop c l pty_master (start_job c) (script c) selectors' ;;;
        ret tt
   else ret tt) ;;;
  failure_policy c a ;;;
  ext c CUnitLoad ;;;
  ret (MkUnit (l_name l) (unit_path c) (bus_factory c a)).

(** Lines 182-340: the body of the [with] statement. *)
Definition body (c : collab) (a : args) (l : locals) : M unit_handle :=
  pt <-- open_pty c a ;;
  w <-- pty_wire c a l pt.1 pt.2 ;;
  props <-- read_properties c a l w.1.1 w.2 ;;
  launch c a l pt.1 w.1.2 props.

(** [run] (lines 61-340). *)
Definition run (c : collab) (a : args) : M unit_handle :=
  l <-- prologue c a ;;
  with_cexit c
    (with_ctx c CBusEnter CBusExit
       (with_ctx c CManagerEnter CManagerExit (body c a l))).

(** ** Concrete collaborators and calls, for examples *)

(** Modelled from the spec: [pystemd.utils.x2cmdlist] is not part of
    [run.py].  The spec calls its result "the caller-given command
    list"; an absent command gives the empty list (the four optional
    commands default to [None] and are elided when nothing is given),
    an argument vector gives the one command made of its path, itself
    and the ignore-failure flag [False]. *)
Definition x2cmdlist_spec (what : pyval) : option (list pyval) :=
  match what with
  | VNone => Some []
  | VList (path :: argv) =>
      Some [VTuple [path; VTuple (path :: argv); VBool false]]
  | _ => None
  end.

(** Modelled from the spec: [pystemd.utils.x2char_star] is not part of
    [run.py]; it gives the bytes of a [str] or [bytes] object. *)
Definition x2char_star_spec (v : pyval) : string :=
  match v with VStr s | VBytes s => s | _ => EmptyString end.

#[global] Instance extcall_eq_dec : EqDecision extcall.
Proof. solve_decision. Defined.

(** Collaborators whose calls at the sites [bad] raise and no other;
    the loop script is [ticks], the recorded exit status [status]. *)
Definition collaborators (bad : list extcall) (ticks : list tick)
  (status : Z) : collab :=
  {| fails := fun site => bool_decide (site ∈ bad);
     x2cmdlist := x2cmdlist_spec;
     x2char_star := x2char_star_spec;
     uuid_hex := "0123456789abcdef0123456789abcdef";
     getenv_TERM := Some "xterm";
     machine_pty := (7, "/dev/pts/7");
     local_pty := (5, 6);
     ttyname := fun _ => "/dev/pts/3";
     raw_attrs := fun t => map (fun _ => 0) t;
     winsize := "winsize";
     unit_path := "/org/freedesktop/systemd1/unit/u";
     monitor_fd := 9;
     start_job := "/org/freedesktop/systemd1/job/1";
     script := ticks;
     exec_main_status := status |}.

(** Collaborators that never raise. *)
Definition quiet (ticks : list tick) : collab := collaborators [] ticks 0.

(** A call of [run] by a caller that is root; the arguments that are
    not listed are at their defaults. *)
Definition call_with (cmd : pyval) (runtime_max_sec : option Z)
  (env extra : option loc) (machine : pyval) (wait raise_on_fail pty : bool)
  (pty_master : option Z) (pty_path : pyval) (stdin stdout : fobj) : args :=
  {| a_cmd := cmd;
     a_address := VNone; a_service_type := VNone; a_name := VNone;
     a_user := VNone; a_user_mode := false; a_nice := VNone;
     a_runtime_max_sec := runtime_max_sec; a_env := env; a_extra := extra;
     a_cwd := VNone; a_machine := machine; a_wait := wait;
     a_remain_after_exit := VBool false; a_collect := false;
     a_raise_on_fail := raise_on_fail; a_pty := pty;
     a_pty_master := pty_master; a_pty_path := pty_path;
     a_stdin := stdin; a_stdout := stdout;
     a_stderr := FNone; a_wait_polling := None; a_slice := VNone;
     a_stop_cmd := VNone; a_stop_post_cmd := VNone;
     a_start_pre_cmd := VNone; a_start_post_cmd := VNone |}.

Definition bin_true : pyval := VList [VStr "/bin/true"].

(** [run(["/bin/true"])]. *)
Definition plain : args :=
  call_with bin_true None None None VNone false false false None VNone
    FNone FNone.

Definition start_state (h : gmap loc dict) (t : gmap Z termattrs) : state :=
  MkState h t [] CExit.init.

(** ** What a call adds to the record *)

(** The events a computation appends to the log. *)
Definition trace {A} (m : M A) (s : state) : list event :=
  drop (length (log s)) (log (m s).2).

(** The property mappings of the [StartTransientUnit] requests among
    some events. *)
Definition submitted (evs : list event) : list dict :=
  omap (fun ev => match ev with
                  | EvStartTransientUnit _ _ props => Some props
                  | _ => None
                  end) evs.

(** The dictionary a caller passed, as it is in state [s]. *)
Definition caller_dict (arg : option loc) (s : state) : dict :=
  match arg with
  | Some l => default ∅ (heap s !! l)
  | None => ∅
  end.

(** The value of key [k] in the dictionary at [x] ([None] when there is
    no such dictionary or no such key). *)
Definition dict_at (h : gmap loc dict) (x : loc) (k : pykey)
  : option pyval :=
  default ∅ (h !! x) !! k.

(** [step Pe Pa K T s s']: from [s] to [s'] the log grew by events in
    [Pe], the guard by actions in [Pa], dictionaries changed at keys in
    [K] only and terminal attributes at descriptors in [T] only. *)
Record step (Pe : event -> Prop) (Pa : action -> Prop)
  (K : pykey -> Prop) (T : Z -> Prop) (s s' : state) : Prop := MkStep {
  step_log : exists evs, log s' = log s ++ evs /\ Forall Pe evs;
  step_pipe : exists acts,
    CExit.pipe (ctexit s') = CExit.pipe (ctexit s) ++ acts
    /\ Forall Pa acts;
  step_heap : forall x k, ~ K k ->
    dict_at (heap s') x k = dict_at (heap s) x k;
  step_tattr : forall fd, ~ T fd -> tattr s' !! fd = tattr s !! fd
}.

Definition frames (Pe : event -> Prop) (Pa : action -> Prop)
  (K : pykey -> Prop) (T : Z -> Prop) {A} (m : M A) : Prop :=
  forall s, step Pe Pa K T s (m s).2.

Definition no_event : event -> Prop := fun _ => False.
Definition no_action : action -> Prop := fun _ => False.
Definition no_key : pykey -> Prop := fun _ => False.
Definition no_fd : Z -> Prop := fun _ => False.

(** The events of lines 262-340: the two bus requests and the writes of
    the loop; the one [StartTransientUnit] request carries [name],
    ["fail"] and [props]. *)
Definition launch_event (name : string) (props : dict) (ev : event)
  : Prop :=
  match ev with
  | EvStartTransientUnit n m p => n = name /\ m = "fail" /\ p = props
  | EvBecomeMonitor _ | EvWrite _ _ => True
  | _ => False
  end.

Definition is_mon_close (a : action) : Prop := a = ActMonClose.

Definition is_winsz (ev : event) : Prop :=
  exists fd ws, ev = EvWinsz fd ws.

Definition term_key (k : pykey) : Prop := k = KBytes "TERM".

(** ** Stating what the prologue computes *)

Definition ExecStart : pykey := KBytes "ExecStart".
Definition ExecStop : pykey := KBytes "ExecStop".
Definition ExecStopPost : pykey := KBytes "ExecStopPost".
Definition ExecStartPre : pykey := KBytes "ExecStartPre".
Definition ExecStartPost : pykey := KBytes "ExecStartPost".
Definition RuntimeMaxUSec : pykey := KBytes "RuntimeMaxUSec".

Definition command_keys : list pykey :=
  [ExecStart; ExecStop; ExecStopPost; ExecStartPre; ExecStartPost].

Definition is_command_key (k : pykey) : Prop := k ∈ command_keys.

(** The list a caller put under [k] in [extra]: empty when there is
    none, undefined when the value is not a list. *)
Definition override_list (d : dict) (k : pykey) : option (list pyval) :=
  match d !! k with
  | None => Some []
  | Some (VList l) => Some l
  | Some _ => None
  end.

(** The caller's command followed by the caller's override. *)
Definition expected_cmd (c : collab) (what : pyval) (d : dict)
  (k : pykey) : option (list pyval) :=
  match x2cmdlist c what, override_list d k with
  | Some x, Some y => Some (x ++ y)
  | _, _ => None
  end.

(** [d] after the five [pop]s. *)
Definition popped (d : dict) : dict :=
  delete ExecStartPost
    (delete ExecStartPre
       (delete ExecStopPost (delete ExecStop (delete ExecStart d)))).

Definition dvar_loc (v : dvar) : option loc :=
  match v with ByRef x => Some x | Private _ => None end.

Definition write_at (x : option loc) (d : dict) (h : gmap loc dict)
  : gmap loc dict :=
  match x with Some x => <[x := d]> h | None => h end.

(** Line 178: the poll interval the loop works with. *)
Definition effective_polling (a : args) : option Q :=
  if a_user_mode a
  then Some (if truthy_q (a_wait_polling a)
             then default 0%Q (a_wait_polling a) else (1 # 2)%Q)
  else a_wait_polling a.

Record prologue_spec (c : collab) (a : args) (s : state) (l : locals)
  (s1 : state) : Prop := MkPrologueSpec {
  ps_usec : l_runtime_max_usec l = runtime_max_usec (a_runtime_max_sec a);
  ps_stdin : get_fno (a_stdin a) = inr (l_stdin l);
  ps_stdout : get_fno (a_stdout a) = inr (l_stdout l);
  ps_stderr : get_fno (a_stderr a) = inr (l_stderr l);
  ps_env : l_env l = or_empty (a_env a) s;
  ps_extra_loc : dvar_loc (l_extra l) = dvar_loc (or_empty (a_extra a) s);
  ps_start : expected_cmd c (a_cmd a) (caller_dict (a_extra a) s) ExecStart
             = Some (l_start_cmd l);
  ps_stop : expected_cmd c (a_stop_cmd a) (caller_dict (a_extra a) s)
              ExecStop = Some (l_stop_cmd l);
  ps_stop_post :
    expected_cmd c (a_stop_post_cmd a) (caller_dict (a_extra a) s)
      ExecStopPost = Some (l_stop_post_cmd l);
  ps_start_pre :
    expected_cmd c (a_start_pre_cmd a) (caller_dict (a_extra a) s)
      ExecStartPre = Some (l_start_pre_cmd l);
  ps_start_post :
    expected_cmd c (a_start_post_cmd a) (caller_dict (a_extra a) s)
      ExecStartPost = Some (l_start_post_cmd l);
  ps_extra : dread (l_extra l) s1 = popped (caller_dict (a_extra a) s);
  ps_heap : heap s1
            = write_at (dvar_loc (or_empty (a_extra a) s))
                (popped (caller_dict (a_extra a) s)) (heap s);
  ps_log : log s1 = log s;
  ps_tattr : tattr s1 = tattr s;
  ps_ctexit : ctexit s1 = ctexit s;
  ps_polling : l_wait_polling l = effective_polling a
}.

(** Lines 204-211 do nothing, or switch [fd] to raw mode and register
    the restoration of the attributes [fd] had. *)
Definition raw_switch (c : collab) (stdin : option Z) (s s' : state)
  : Prop :=
  s' = s
  \/ exists fd attrs,
       stdin = Some fd /\ tattr s !! fd = Some attrs
       /\ s' = MkState (heap s) (<[fd := raw_attrs c attrs]> (tattr s))
                 (log s ++ [EvSetraw fd])
                 (CExit.register (ActTcsetattr fd TCSAFLUSH attrs)
                    (ctexit s)).

(** A property mapping built by lines 236-260 when [extra] holds what
    it holds in [s], but for [b"TERM"]. *)
Definition props_from (c : collab) (a : args) (l : locals) (s : state)
  (p : dict) : Prop :=
  exists up env extra,
    p = unit_properties_final c a l up env extra
    /\ forall k, ~ term_key k -> extra !! k = dread (l_extra l) s !! k.

(** The events of the body of the [with] statement. *)
Definition body_event (c : collab) (a : args) (l : locals) (s : state)
  (ev : event) : Prop :=
  match ev with
  | EvStartTransientUnit n m p =>
      n = l_name l /\ m = "fail" /\ props_from c a l s p
  | EvSetraw _ | EvWinsz _ _ | EvBecomeMonitor _ | EvWrite _ _ => True
  | _ => False
  end.

(** The close that lines 187-189 register, when they are reached and
    the two calls before the registration return. *)
Definition opened_close (c : collab) (a : args) : list action :=
  if a_pty a && negb (truthy (a_machine a))
     && negb (fails c COpenpty) && negb (fails c CTtyname)
  then [ActClose (local_pty c).1] else [].

(** The same for the body inside the two [with] contexts: the body is
    not entered when entering the bus or the manager raises. *)
Definition guard_close (c : collab) (a : args) : list action :=
  if negb (fails c CBusEnter) && negb (fails c CManagerEnter)
  then opened_close c a else [].

(** What the guard holds when the body is left, and what the body did
    to the state: [A1] is the close of a local pty master, [A2] the
    restoration of stdin, [A3] the close of the monitor connection. *)
Record body_rel (c : collab) (a : args) (l : locals) (A1 : list action)
  (s s' : state) : Prop := MkBodyRel {
  br_pipe : exists A2 A3,
    CExit.pipe (ctexit s') = CExit.pipe (ctexit s) ++ A1 ++ A2 ++ A3
    /\ Forall is_mon_close A3
    /\ ((A2 = [] /\ tattr s' = tattr s)
        \/ exists fd attrs,
             A2 = [ActTcsetattr fd TCSAFLUSH attrs]
             /\ l_stdin l = Some fd
             /\ tattr s !! fd = Some attrs
             /\ tattr s' = <[fd := raw_attrs c attrs]> (tattr s));
  br_heap : forall x k, ~ term_key k ->
    dict_at (heap s') x k = dict_at (heap s) x k;
  br_log : exists evs,
    log s' = log s ++ evs /\ Forall (body_event c a l s) evs
}.

(** The events of lines 262-340 when [extra] holds [extra_now]. *)
Definition launch_from (c : collab) (a : args) (l : locals)
  (extra_now : dict) (ev : event) : Prop :=
  match ev with
  | EvStartTransientUnit n m q =>
      n = l_name l /\ m = "fail"
      /\ exists up env, q = unit_properties_final c a l up env extra_now
  | EvBecomeMonitor _ | EvWrite _ _ => True
  | _ => False
  end.

(** Registering [A1] and nothing else. *)
Definition with_registered (A1 : list action) (s : state) : state :=
  set_ctexit (CExit.Make (CExit.pipe (ctexit s) ++ A1)) s.

(** Lines 191-340. *)
Definition after_pty (c : collab) (a : args) (l : locals)
  (pt : option Z * pyval) : M unit_handle :=
  w <-- pty_wire c a l pt.1 pt.2 ;;
  props <-- read_properties c a l w.1.1 w.2 ;;
  launch c a l pt.1 w.1.2 props.

(** The body between the two [with] contexts of the bus and the
    manager. *)
Definition guarded (c : collab) (a : args) (l : locals) : M unit_handle :=
  with_ctx c CBusEnter CBusExit
    (with_ctx c CManagerEnter CManagerExit (body c a l)).

(** A computation that always comes back. *)
Definition returns {A} (m : M A) : Prop := forall s, (m s).1 <> Blocked.

(** ** Stating what the cleanups do *)

(** What a registered callable records when it returns. *)
Definition cleanup_of (act : action) : event :=
  match act with
  | ActClose fd => EvClose fd
  | ActTcsetattr fd when_ attrs => EvTcsetattr fd when_ attrs
  | ActMonClose => EvMonClose
  end.

(** The terminal attributes after the callables [called] returned. *)
Definition restore_all (called : list action) (t : gmap Z termattrs)
  : gmap Z termattrs :=
  fold_left (fun t act => match act with
                          | ActTcsetattr fd _ attrs => <[fd := attrs]> t
                          | _ => t
                          end) called t.


(** A call ends in the prologue, or never returns from the body, or
    leaves the body and runs the cleanups of the guard. *)
Inductive run_shape (c : collab) (a : args) (s : state)
  : outcome unit_handle * state -> Prop :=
| RunEarly e s1 :
    prologue c a s = (Raise e, s1) ->
    run_shape c a s (Raise e, s1)
| RunBlocked l s1 sb :
    prologue c a s = (Ok l, s1) ->
    guarded c a l (set_ctexit CExit.init s1) = (Blocked, sb) ->
    run_shape c a s (Blocked, sb)
| RunExit l s1 r sb called e s' :
    prologue c a s = (Ok l, s1) ->
    guarded c a l (set_ctexit CExit.init s1) = (r, sb) ->
    r <> Blocked ->
    CExit.exit_ (call_action c) (ctexit sb) (exc_of r) sb
    = (called, e, s') ->
    run_shape c a s
      (match e with Some e' => Raise e' | None => r end, s').

(** ** Stating what is submitted *)

(** What the comprehension of line 260 keeps of an entry. *)
Definition keep (o : option pyval) : option pyval :=
  match o with
  | Some v => if is_none v then None else Some v
  | None => None
  end.


(** ** Example calls: [RuntimeMaxUSec] *)

(** The first property mapping a call submits. *)
Definition first_submitted (c : collab) (a : args) (s : state) : dict :=
  hd ∅ (submitted (trace (run c a) s)).

(** [RuntimeMaxUSec] in the words of the specification: the seconds
    times 10^6 when they are given and truthy, else the value in the
    caller's [extra], else nothing. *)
Definition runtime_max_usec_as_specified (a : args) (extra0 : dict)
  : option pyval :=
  match a_runtime_max_sec a with
  | Some n =>
      if truthy (VInt n) then Some (VInt (n * 10 ^ 6))
      else extra0 !! RuntimeMaxUSec
  | None => extra0 !! RuntimeMaxUSec
  end.

(** [run(["/bin/true"], runtime_max_sec=5,
         extra={b"RuntimeMaxUSec": 7})]. *)
Definition call_sec5_extra7 : args :=
  call_with bin_true (Some 5) None (Some 1%positive) VNone false false
    false None VNone FNone FNone.

Definition heap_extra7 : gmap loc dict :=
  {[ 1%positive := {[ RuntimeMaxUSec := VInt 7 ]} ]}.

(** [run(["/bin/true"], runtime_max_sec=0)]. *)
Definition call_sec0 : args :=
  call_with bin_true (Some 0) None None VNone false false false None VNone
    FNone FNone.

(** The claim in the words of the specification, for one key: the
    submitted property is the caller's list followed by the override
    list. *)
Definition command_as_specified (c : collab) (what : pyval)
  (extra0 : dict) (k : pykey) (p : dict) : Prop :=
  exists L, expected_cmd c what extra0 k = Some L
            /\ p !! k = Some (VList L).

(** ** Example calls: no command *)

(** [run(None)]: no command at all. *)
Definition call_no_cmd : args :=
  call_with VNone None None None VNone false false false None VNone
    FNone FNone.

Definition is_tcsetattr (act : action) : Prop :=
  exists fd w t, act = ActTcsetattr fd w t.

Definition is_act_close (act : action) : Prop := exists fd, act = ActClose fd.

(** ** Example calls: stdin in raw mode *)

(** A turn of the loop in which the unit is reported dead. *)
Definition exit_tick : tick :=
  {| t_ready := [9];
     t_stdin_read := None;
     t_master_read := None;
     t_message :=
       Some {| m_path := "/org/freedesktop/systemd1/unit/u";
               m_body0 := VBytes "org.freedesktop.systemd1.Unit";
               m_body1 := {[ KBytes "SubState" := VBytes "dead" ]} |};
     t_main_pid := 0 |}.

(** [run(["/bin/true"], wait=True, pty_master=5,
         pty_path=b"/dev/pts/3", stdin=0)]. *)
Definition call_wait_stdin : args :=
  call_with bin_true None None None VNone true false false (Some 5)
    (VBytes "/dev/pts/3") (FInt 0) FNone.


(** ** Example calls: the pty master *)

Definition succeeds {A} (r : outcome A) : bool :=
  match r with Ok _ => true | _ => false end.



(** Locals of a call with no descriptor of its own and no poll
    interval. *)
Definition idle_locals : locals :=
  MkLocals "u.service" VNone None None None (Private ∅) (Private ∅)
    [] [] [] [] [] None.

(** ** Stating what a call may raise *)

(** [raises_only P m]: whatever [m] raises is in [P]. *)
Definition raises_only (P : exn -> Prop) {A} (m : M A) : Prop :=
  forall s e, (m s).1 = Raise e -> P e.

(** Every exception but the run failure; a run failure only as lines
    330-336 raise it. *)
Definition as_policy (c : collab) (a : args) (e : exn) : Prop :=
  match e with
  | PystemdRunError cmd status =>
      a_raise_on_fail a = true /\ status <> 0
      /\ status = exec_main_status c /\ cmd = a_cmd a
  | _ => True
  end.

(** [run(["/bin/true"], wait=True, raise_on_fail=True)]. *)
Definition call_wait_raise : args :=
  call_with bin_true None None None VNone true true false None VNone
    FNone FNone.

(** [run(["/bin/true"], env={"LANG": "C"}, pty_master=5,
         pty_path=b"/dev/pts/3", stdout=1)], the caller's [env] at
    location 2. *)
Definition call_env_pty : args :=
  call_with bin_true None (Some 2%positive) None VNone false false false
    (Some 5) (VBytes "/dev/pts/3") FNone (FInt 1).

Definition heap_env : gmap loc dict :=
  {[ 2%positive := {[ KStr "LANG" := VStr "C" ]} ]}.

(** The same call without [raise_on_fail]. *)
Definition without_raise_on_fail (a : args) : args :=
  {| a_cmd := a_cmd a;
     a_address := a_address a; a_service_type := a_service_type a;
     a_name := a_name a; a_user := a_user a; a_user_mode := a_user_mode a;
     a_nice := a_nice a; a_runtime_max_sec := a_runtime_max_sec a;
     a_env := a_env a; a_extra := a_extra a; a_cwd := a_cwd a;
     a_machine := a_machine a; a_wait := a_wait a;
     a_remain_after_exit := a_remain_after_exit a;
     a_collect := a_collect a; a_raise_on_fail := false;
     a_pty := a_pty a; a_pty_master := a_pty_master a;
     a_pty_path := a_pty_path a; a_stdin := a_stdin a;
     a_stdout := a_stdout a; a_stderr := a_stderr a;
     a_wait_polling := a_wait_polling a; a_slice := a_slice a;
     a_stop_cmd := a_stop_cmd a; a_stop_post_cmd := a_stop_post_cmd a;
     a_start_pre_cmd := a_start_pre_cmd a;
     a_start_post_cmd := a_start_post_cmd a |}.

(** Lines 182-328: the body up to the failure policy. *)
Definition before_policy (c : collab) (a : args) (l : locals) : M unit :=
  pt <-- open_pty c a ;;
  w <-- pty_wire c a l pt.1 pt.2 ;;
  props <-- read_properties c a l w.1.1 w.2 ;;
  ext c CUnitInit ;;;
  selectors' <-- monitor_setup c a w.1.2 ;;
  request c CStartTransientUnit
    (EvStartTransientUnit (l_name l) "fail" props) ;;;
  (if a_wait a
   then event_loop c l pt.1 (start_job c) (script c) selectors' ;;; ret tt
   else ret tt).

(** Lines 330-340. *)
Definition after_policy (c : collab) (a : args) (l : locals)
  : M unit_handle :=
  failure_policy c a ;;;
  ext c CUnitLoad ;;;
  ret (MkUnit (l_name l) (unit_path c) (bus_factory c a)).

(** ** An account of a call: what it put on record and how it ended *)

Definition is_become_monitor (ev : event) : Prop :=
  exists m, ev = EvBecomeMonitor m.

Definition is_write (ev : event) : Prop :=
  exists fd data, ev = EvWrite fd data.

(** The events of lines 204-222: raw mode and the window size. *)
Definition wiring_event (ev : event) : Prop :=
  match ev with EvSetraw _ | EvWinsz _ _ => True | _ => False end.

(** The mapping line 287 submits: [w] is what lines 191-234 returned,
    [s] the state at line 236. *)
Definition request_props (c : collab) (a : args) (l : locals)
  (w : dict * list Z * dvar) (s : state) : dict :=
  unit_properties_final c a l w.1.1 (dread w.2 s) (dread (l_extra l) s).

(** Lines 291-340: the loop, the failure policy, the returned unit. *)
Definition wait_and_return (c : collab) (a : args) (l : locals)
  (pty_master : option Z) (selectors : list Z) : M unit_handle :=
  (if a_wait a
   then event_loop c l pty_master (start_job c) (script c) selectors ;;;
        ret tt
   else ret tt) ;;;
  failure_policy c a ;;;
  ext c CUnitLoad ;;;
  ret (MkUnit (l_name l) (unit_path c) (bus_factory c a)).

(** How the body of the [with] statement went, from state [s]: it ended
    as [r], put the events [evs] on record and registered [acts].
    Either no [StartTransientUnit] request was sent and the body raised,
    or exactly one was, after the pty was opened and wired. *)
Inductive body_account (c : collab) (a : args) (l : locals) (s : state)
  : outcome unit_handle -> list event -> list action -> Prop :=
| NotRequested wiring pre A2 A3 e :
    Forall wiring_event wiring -> Forall is_become_monitor pre ->
    Forall is_tcsetattr A2 -> Forall is_mon_close A3 ->
    (a_wait a = false -> pre = [] /\ A3 = []) ->
    body_account c a l s (Raise e) (wiring ++ pre)
      (opened_close c a ++ A2 ++ A3)
| Requested pt s2 w s3 wiring pre writes A2 A3 r :
    open_pty c a s = (Ok pt, s2) ->
    pty_wire c a l pt.1 pt.2 s2 = (Ok w, s3) ->
    fails c CUnitInit = false ->
    Forall wiring_event wiring -> Forall is_become_monitor pre ->
    Forall is_write writes ->
    Forall is_tcsetattr A2 -> Forall is_mon_close A3 ->
    (a_wait a = false -> pre = [] /\ writes = [] /\ A3 = []) ->
    (r = Blocked -> a_wait a = true) ->
    (forall u, r = Ok u ->
       u = MkUnit (l_name l) (unit_path c) (bus_factory c a)) ->
    body_account c a l s r
      (wiring ++ pre
       ++ EvStartTransientUnit (l_name l) "fail" (request_props c a l w s3)
       :: writes)
      (opened_close c a ++ A2 ++ A3).

(** The [StartTransientUnit] requests among some events: name, mode and
    properties. *)
Definition request_of (ev : event) : option (string * string * dict) :=
  match ev with
  | EvStartTransientUnit n m p => Some (n, m, p)
  | _ => None
  end.

Definition requests (evs : list event) : list (string * string * dict) :=
  omap request_of evs.

(** Line 162: the name of the unit. *)
Definition unit_name (c : collab) (a : args) : string :=
  x2char_star c (py_or (a_name a) (VStr (default_name c))).

(** What a registered callable puts on record. *)
Definition cleanup_event (ev : event) : Prop :=
  exists act, ev = cleanup_of act.

(** Lines 191-192: [unit_properties] before the pty branch. *)
Definition slice_property (c : collab) (a : args) : dict :=
  if truthy (a_slice a)
  then {[ KBytes "Slice" := VBytes (x2char_star c (a_slice a)) ]}
  else ∅.

(** Does line 215 run, and with which value of [TERM]? *)
Definition term_forwarded (c : collab) (stdout pty_master : option Z)
  (pty_path : pyval) : option string :=
  if truthy pty_path then
    match stdout, pty_master, getenv_TERM c with
    | Some _, Some _, Some term =>
        if truthy (VStr term) then Some term else None
    | _, _, _ => None
    end
  else None.

(** [env] at line 251, when it held [d] at line 166. *)
Definition env_at_request (c : collab) (stdout pty_master : option Z)
  (pty_path : pyval) (d : dict) : dict :=
  match term_forwarded c stdout pty_master pty_path with
  | Some term =>
      <[KBytes "TERM" := default (VBytes term) (d !! KBytes "TERM")]> d
  | None => d
  end.

(** What a stream argument gives as a descriptor property: nothing for
    [None], the descriptor otherwise. *)
Definition fd_entry (obj : fobj) : option pyval :=
  match get_fno obj with
  | inr (Some fd) => Some (VInt fd)
  | _ => None
  end.

(** The properties of lines 194-234. *)
Definition io_keys : list pykey :=
  [ KBytes "StandardInput"; KBytes "StandardOutput"; KBytes "StandardError";
    KBytes "TTYPath"; KBytes "StandardInputFileDescriptor";
    KBytes "StandardOutputFileDescriptor";
    KBytes "StandardErrorFileDescriptor" ].

(** [run(["/bin/true"], stdin=0, stdout=1)]. *)
Definition call_fds : args :=
  call_with bin_true None None None VNone false false false None VNone
    (FInt 0) (FInt 1).


(** [run(["/bin/true"], extra={b"Description": None, b"Nice": 5})]. *)
Definition call_extra_none : args :=
  call_with bin_true None None (Some 1%positive) VNone false false false
    None VNone FNone FNone.

Definition heap_extra_none : gmap loc dict :=
  {[ 1%positive := {[ KBytes "Description" := VNone;
                      KBytes "Nice" := VInt 5 ]} ]}.

(** [run(["/bin/true"], stdout=object())]. *)
Definition call_bad_stdout : args :=
  call_with bin_true None None (Some 1%positive) VNone false false false
    None VNone FNone FOther.

(** [h'] is [h] but for command keys removed from the dictionary at
    [xl]. *)
Definition deletes (xl : option loc) (h h' : gmap loc dict) : Prop :=
  forall x k,
    dict_at h' x k = dict_at h x k
    \/ (xl = Some x /\ k ∈ command_keys /\ dict_at h' x k = None).

(** [h'] is [h] but for [b"TERM"] set to the value of [$TERM] in the
    dictionary at [xl], which had none. *)
Definition adds_term (c : collab) (xl : option loc) (h h' : gmap loc dict)
  : Prop :=
  forall x k,
    dict_at h' x k = dict_at h x k
    \/ (xl = Some x /\ k = KBytes "TERM" /\ dict_at h x k = None
        /\ exists term,
             getenv_TERM c = Some term
             /\ dict_at h' x k = Some (VBytes term)).

(** The pops of lines 171-175, in order. *)
Definition pop_all (keys : list pykey) (d : dict) : dict :=
  fold_left (fun d' k => delete k d') keys d.

(** [extra={b"ExecStop": "x"}]: an override that is not a list. *)
Definition heap_bad_override : gmap loc dict :=
  {[ 1%positive := {[ ExecStop := VStr "x"; KBytes "Nice" := VInt 5 ]} ]}.

(** ** The waiting loop: what it forwards *)

(** A write of the loop forwards what was read: to the pty master what
    a turn read on the caller's stdin, to the caller's stdout what a
    turn read on the pty master. *)
Definition forwarded (l : locals) (pty_master : option Z)
  (ticks : list tick) (ev : event) : Prop :=
  match ev with
  | EvWrite fd data =>
      (pty_master = Some fd
       /\ exists t, t ∈ ticks /\ t_stdin_read t = Some data)
      \/ (l_stdout l = Some fd
          /\ exists t, t ∈ ticks /\ t_master_read t = Some data)
  | _ => False
  end.

(** A turn in which only the pty master is ready and reading it
    fails. *)
Definition master_gone_tick : tick :=
  {| t_ready := [5];
     t_stdin_read := None;
     t_master_read := None;
     t_message := None;
     t_main_pid := 1 |}.

(** A monitor message that ends the loop (lines 313-322). *)
Definition exit_message (c : collab) (m : message) : Prop :=
  forall st,
    message_exits (unit_path c) (start_job c) m st = (Ok true, st).

(** The record of an [os.close]. *)
Definition is_act_close_event (ev : event) : Prop :=
  exists fd, ev = EvClose fd.

(** * Lemmas and theorems *)

(** ** The resource guard: the loop of [__exit__] *)

Section GuardFacts.
Context {W A E : Type}.
Variable call : A -> W -> option E * W.

Lemma pipe_fold (l : list A) (g : CExit.t) :
  CExit.pipe (fold_left (fun g a => CExit.register a g) l g)
  = CExit.pipe g ++ l.
Proof.
  revert g. induction l as [|a l IH]; intros g; simpl.
  - by rewrite app_nil_r.
  - rewrite IH. simpl. by rewrite <- app_assoc.
Qed.

Lemma pipe_registered (l : list A) : CExit.pipe (CExit.registered l) = l.
Proof. unfold CExit.registered. by rewrite pipe_fold. Qed.

Lemma call_all_cons a rest w :
  CExit.call_all call (a :: rest) w
  = match call a w with
    | (Some e, w') => ([a], Some e, w')
    | (None, w') =>
        let '(done_, r, w'') := CExit.call_all call rest w' in
        (a :: done_, r, w'')
    end.
Proof. reflexivity. Qed.

Lemma call_all_returns (l : list A) (w : W) :
  CExit.all_return call l w -> (CExit.call_all call l w).1 = (l, None).
Proof.
  revert w. induction l as [|a l IH]; intros w; simpl; [done|].
  intros [Ha Hl]. destruct (call a w) as [[e|] w'] eqn:Hc; simpl in *;
    [done|].
  specialize (IH w' Hl). destruct (CExit.call_all call l w') as [[d r] w''].
  simpl in *. by inversion IH.
Qed.

(** Whatever happens, what was called is a leading part of the list. *)
Lemma call_all_prefix (l : list A) (w : W) :
  exists rest, l = (CExit.call_all call l w).1.1 ++ rest.
Proof.
  revert w. induction l as [|a l IH]; intros w; simpl.
  - by exists [].
  - destruct (call a w) as [[e|] w'] eqn:Hc; simpl.
    + by exists l.
    + destruct (IH w') as [rest Hr].
      destruct (CExit.call_all call l w') as [[d r] w'']. simpl in *.
      exists rest. by rewrite <- Hr.
Qed.

(** A raising callable is the last one called. *)
Lemma call_all_raise (pre : list A) (a : A) (post : list A) (w : W) :
  CExit.all_return call pre w ->
  (call a (CExit.call_all call pre w).2).1 <> None ->
  (CExit.call_all call (pre ++ a :: post) w).1.1 = pre ++ [a].
Proof.
  revert w. induction pre as [|b pre IH]; intros w; simpl.
  - intros _ Hr. destruct (call a w) as [[e|] w']; simpl in *; [done|].
    congruence.
  - intros [Hb Hpre]. destruct (call b w) as [[e|] w'] eqn:Hc;
      simpl in *; [done|].
    intros Hr. specialize (IH w' Hpre).
    destruct (CExit.call_all call pre w') as [[d r] w''] eqn:Hp.
    simpl in *. specialize (IH Hr).
    destruct (CExit.call_all call (pre ++ a :: post) w') as [[d' r'] w3].
    simpl in *. by rewrite IH.
Qed.
End GuardFacts.

(** ** Reasoning about computations *)

Lemma bind_ok {A B} (m : M A) (k : A -> M B) s b s' :
  bind m k s = (Ok b, s') ->
  exists a s1, m s = (Ok a, s1) /\ k a s1 = (Ok b, s').
Proof.
  unfold bind. destruct (m s) as [[a|e|] s1]; intros H; try discriminate.
  by exists a, s1.
Qed.

Lemma bind_run {A B} (m : M A) (k : A -> M B) s a s1 :
  m s = (Ok a, s1) -> bind m k s = k a s1.
Proof. unfold bind. by intros ->. Qed.

Section Frames.
Variable Pe : event -> Prop.
Variable Pa : action -> Prop.
Variable K : pykey -> Prop.
Variable T : Z -> Prop.

Lemma step_refl s : step Pe Pa K T s s.
Proof.
  split; try done.
  - exists []. by rewrite app_nil_r.
  - exists []. by rewrite app_nil_r.
Qed.

Lemma step_trans s1 s2 s3 :
  step Pe Pa K T s1 s2 -> step Pe Pa K T s2 s3 -> step Pe Pa K T s1 s3.
Proof.
  intros [[e1 [L1 F1]] [a1 [P1 G1]] H1 T1] [[e2 [L2 F2]] [a2 [P2 G2]] H2 T2].
  split.
  - exists (e1 ++ e2). rewrite L2, L1, <- app_assoc. split; [done|].
    by apply Forall_app.
  - exists (a1 ++ a2). rewrite P2, P1, <- app_assoc. split; [done|].
    by apply Forall_app.
  - intros x k Hk. by rewrite H2, H1.
  - intros fd Hfd. by rewrite T2, T1.
Qed.

Lemma frames_ret {A} (a : A) : frames Pe Pa K T (ret a).
Proof. intros s. apply step_refl. Qed.

Lemma frames_raise {A} (e : exn) : frames Pe Pa K T (raise (A := A) e).
Proof. intros s. apply step_refl. Qed.

Lemma frames_bind {A B} (m : M A) (k : A -> M B) :
  frames Pe Pa K T m -> (forall a, frames Pe Pa K T (k a)) ->
  frames Pe Pa K T (bind m k).
Proof.
  intros Hm Hk s. unfold bind. specialize (Hm s).
  destruct (m s) as [[a|e|] s1]; simpl in *; try done.
  eapply step_trans; [exact Hm|]. apply Hk.
Qed.

Lemma frames_ext c site : frames Pe Pa K T (ext c site).
Proof.
  unfold ext. destruct (fails c site);
    [apply frames_raise | apply frames_ret].
Qed.

Lemma frames_of_sum {A} (r : exn + A) : frames Pe Pa K T (of_sum r).
Proof. destruct r; [apply frames_raise | apply frames_ret]. Qed.

Lemma frames_emit ev : Pe ev -> frames Pe Pa K T (emit ev).
Proof.
  intros Hev s. split; simpl; try done.
  - exists [ev]. split; [done|]. by constructor.
  - exists []. by rewrite app_nil_r.
Qed.

Lemma frames_register a : Pa a -> frames Pe Pa K T (register a).
Proof.
  intros Ha s. split; simpl; try done.
  - exists []. by rewrite app_nil_r.
  - exists [a]. split; [done|]. by constructor.
Qed.

Lemma frames_request c site ev :
  Pe ev -> frames Pe Pa K T (request c site ev).
Proof.
  intros Hev. apply frames_bind; [by apply frames_emit|].
  intros _. apply frames_ext.
Qed.

(** A computation that leaves the state as it is. *)
Lemma frames_pure {A} (m : M A) :
  (forall s, (m s).2 = s) -> frames Pe Pa K T m.
Proof. intros H s. rewrite H. apply step_refl. Qed.
End Frames.

Lemma step_weaken (Pe Pe' : event -> Prop) (Pa Pa' : action -> Prop)
  (K K' : pykey -> Prop) (T T' : Z -> Prop) s s' :
  (forall ev, Pe ev -> Pe' ev) -> (forall a, Pa a -> Pa' a) ->
  (forall k, K k -> K' k) -> (forall fd, T fd -> T' fd) ->
  step Pe Pa K T s s' -> step Pe' Pa' K' T' s s'.
Proof.
  intros He Ha Hk Ht [[e [L F]] [ac [P G]] H1 T1]. split.
  - exists e. split; [done|]. eapply Forall_impl; eauto.
  - exists ac. split; [done|]. eapply Forall_impl; eauto.
  - intros x k Hn. apply H1. intros Hc. apply Hn. by apply Hk.
  - intros fd Hn. apply T1. intros Hc. apply Hn. by apply Ht.
Qed.

(** ** What each phase of [run] may change *)

Ltac frames_step :=
  first
    [ apply frames_ret
    | apply frames_raise
    | apply frames_ext
    | apply frames_of_sum
    | apply frames_request
    | apply frames_emit
    | apply frames_register
    | apply frames_bind; [|intros ?] ].

Ltac frames_auto :=
  repeat first
    [ frames_step
    | match goal with
      | |- frames _ _ _ _ (if ?b then _ else _) => destruct b
      | |- frames _ _ _ _ (match ?x with _ => _ end) => destruct x
      end ].

Section Loop.
Variable Pe : event -> Prop.
Variable Pa : action -> Prop.
Variable K : pykey -> Prop.
Variable T : Z -> Prop.
Hypothesis writes : forall fd data, Pe (EvWrite fd data).

Lemma frames_os_write fd data : frames Pe Pa K T (os_write fd data).
Proof. unfold os_write. frames_auto. apply writes. Qed.

Lemma frames_forward l pty_master t _in selectors :
  frames Pe Pa K T (forward l pty_master t _in selectors).
Proof.
  unfold forward, forward_stdin, forward_master, os_read.
  frames_auto; apply frames_os_write.
Qed.

Lemma frames_message_exits path job m :
  frames Pe Pa K T (message_exits path job m).
Proof. unfold message_exits. frames_auto. Qed.

Lemma frames_loop_turn c l pty_master job selectors t :
  frames Pe Pa K T (loop_turn c l pty_master job selectors t).
Proof.
  unfold loop_turn. apply frames_bind; [apply frames_forward|].
  intros sel. frames_auto; apply frames_message_exits.
Qed.

Lemma frames_event_loop c l pty_master job ticks selectors :
  frames Pe Pa K T (event_loop c l pty_master job ticks selectors).
Proof.
  revert selectors. induction ticks as [|t rest IH]; intros selectors.
  - intros s. apply step_refl.
  - simpl. apply frames_bind; [apply frames_loop_turn|].
    intros [by_|sel]; [apply frames_ret | apply IH].
Qed.
End Loop.

Lemma frames_failure_policy Pe Pa K T c a :
  frames Pe Pa K T (failure_policy c a).
Proof. unfold failure_policy. frames_auto. Qed.

Lemma frames_launch c a l pty_master selectors props :
  frames (launch_event (l_name l) props) is_mon_close no_key no_fd
    (launch c a l pty_master selectors props).
Proof.
  unfold launch, monitor_setup.
  frames_auto;
    try apply frames_failure_policy;
    try (apply frames_event_loop; intros; exact I);
    try done.
Qed.

Lemma dict_at_insert h x d y k :
  dict_at (<[x := d]> h) y k
  = if decide (x = y) then d !! k else dict_at h y k.
Proof.
  unfold dict_at. rewrite lookup_insert. by destruct (decide (x = y)).
Qed.

(** Writing back a dictionary that differs at keys in [K] only. *)
Lemma frames_dwrite Pe Pa (K : pykey -> Prop) T v d s :
  (forall k, ~ K k -> d !! k = dread v s !! k) ->
  step Pe Pa K T s (dwrite v d s).2.
Proof.
  intros Hd. destruct v as [x|d0]; simpl; [|apply step_refl].
  split; simpl; try done.
  - exists []. by rewrite app_nil_r.
  - exists []. by rewrite app_nil_r.
  - intros y k Hk. rewrite dict_at_insert. destruct (decide (x = y)) as [->|];
      [|done]. rewrite Hd; [|done]. done.
Qed.

Lemma frames_set_term Pe Pa T term env :
  frames Pe Pa term_key T (set_term term env).
Proof.
  intros s. unfold set_term. apply frames_dwrite.
  intros k Hk. rewrite lookup_insert_ne; [done|].
  intros Heq. apply Hk. by rewrite <- Heq.
Qed.

Lemma frames_wire_stdout c stdout pty_master env selectors :
  frames is_winsz no_action term_key no_fd
    (wire_stdout c stdout pty_master env selectors).
Proof.
  unfold wire_stdout. frames_auto; try apply frames_set_term.
  by eexists _, _.
Qed.

(** ** Lines 162-178: what the prologue computes *)

Lemma dread_or_empty arg s : dread (or_empty arg s) s = caller_dict arg s.
Proof.
  unfold or_empty, caller_dict. destruct arg as [x|]; [|done].
  destruct (heap s !! x) as [d|] eqn:Hx; simpl; [|done].
  destruct (decide (size d = 0%nat)) as [Hz|]; simpl.
  - symmetry. by apply map_size_empty_inv.
  - by rewrite Hx.
Qed.

Lemma dvar_loc_or_empty arg s x :
  dvar_loc (or_empty arg s) = Some x -> arg = Some x.
Proof.
  unfold or_empty. destruct arg as [y|]; [|done].
  destruct (heap s !! y) as [d|]; [|done].
  by destruct (decide (size d = 0%nat)); simpl; intros [= ->].
Qed.

Lemma of_sum_ok {A} (r : exn + A) s a s' :
  of_sum r s = (Ok a, s') -> r = inr a /\ s' = s.
Proof. destruct r; simpl; unfold raise, ret; by intros [= <- <-]. Qed.

Lemma merged_cmd_ok c what key v s r s1 :
  merged_cmd c what key v s = (Ok r, s1) ->
  expected_cmd c what (dread v s) key = Some r.1
  /\ dread r.2 s1 = delete key (dread v s)
  /\ dvar_loc r.2 = dvar_loc v
  /\ heap s1 = write_at (dvar_loc v) (delete key (dread v s)) (heap s)
  /\ log s1 = log s /\ tattr s1 = tattr s /\ ctexit s1 = ctexit s.
Proof.
  unfold merged_cmd, expected_cmd, override_list. intros H.
  apply bind_ok in H as (x & sx & Hx & H).
  destruct (x2cmdlist c what) as [x'|]; [|discriminate].
  injection Hx as <- <-.
  apply bind_ok in H as ([p v'] & sp & Hp & H).
  apply bind_ok in H as (L & sl & HL & H).
  injection H as <- <-. simpl in *.
  unfold dpop, dict_pop in Hp.
  destruct v as [y|d0]; simpl in *; injection Hp as <- <- <-; simpl.
  - destruct (default ∅ (heap s !! y) !! key) as [[| | | | |ov|]|];
      simpl in HL; try discriminate; injection HL as <- <-; simpl;
      rewrite lookup_insert_eq; simpl; try rewrite app_nil_r; done.
  - destruct (d0 !! key) as [[| | | | |ov|]|];
      simpl in HL; try discriminate; injection HL as <- <-; simpl;
      try rewrite app_nil_r; done.
Qed.

Lemma override_list_delete d k k' :
  k <> k' -> override_list (delete k' d) k = override_list d k.
Proof. intros Hne. unfold override_list. by rewrite lookup_delete_ne. Qed.

Lemma expected_cmd_delete c what d k k' :
  k <> k' -> expected_cmd c what (delete k' d) k = expected_cmd c what d k.
Proof. intros Hne. unfold expected_cmd. by rewrite override_list_delete. Qed.

Lemma write_at_twice x d d' h :
  write_at x d' (write_at x d h) = write_at x d' h.
Proof. destruct x; simpl; [apply insert_insert_eq | done]. Qed.

Lemma prologue_ok c a s l s1 :
  prologue c a s = (Ok l, s1) -> prologue_spec c a s l s1.
Proof.
  unfold prologue. intros H.
  apply bind_ok in H as (i & s' & Hi & H).
  apply of_sum_ok in Hi as [Hi ->].
  apply bind_ok in H as (o & s' & Ho & H).
  apply of_sum_ok in Ho as [Ho ->].
  apply bind_ok in H as (e & s' & He & H).
  apply of_sum_ok in He as [He ->].
  apply bind_ok in H as (env & s' & Henv & H). injection Henv as <- <-.
  apply bind_ok in H as (extra & s' & Hextra & H).
  injection Hextra as <- <-.
  apply bind_ok in H as (r1 & s1' & H1 & H).
  apply merged_cmd_ok in H1 as (E1 & D1 & V1 & W1 & L1 & T1 & C1).
  apply bind_ok in H as (r2 & s2' & H2 & H).
  apply merged_cmd_ok in H2 as (E2 & D2 & V2 & W2 & L2 & T2 & C2).
  apply bind_ok in H as (r3 & s3' & H3 & H).
  apply merged_cmd_ok in H3 as (E3 & D3 & V3 & W3 & L3 & T3 & C3).
  apply bind_ok in H as (r4 & s4' & H4 & H).
  apply merged_cmd_ok in H4 as (E4 & D4 & V4 & W4 & L4 & T4 & C4).
  apply bind_ok in H as (r5 & s5' & H5 & H).
  apply merged_cmd_ok in H5 as (E5 & D5 & V5 & W5 & L5 & T5 & C5).
  injection H as <- <-.
  rewrite dread_or_empty in *.
  rewrite D4, D3, D2, D1 in D5. rewrite D3, D2, D1 in D4.
  rewrite D2, D1 in D3. rewrite D1 in D2.
  rewrite D4 in E5, W5. rewrite D3 in E4, W4. rewrite D2 in E3, W3.
  rewrite D1 in E2, W2.
  repeat (rewrite expected_cmd_delete in E2 by done).
  repeat (rewrite expected_cmd_delete in E3 by done).
  repeat (rewrite expected_cmd_delete in E4 by done).
  repeat (rewrite expected_cmd_delete in E5 by done).
  rewrite V4, V3, V2, V1 in V5. rewrite V4, V3, V2, V1 in W5.
  rewrite V3, V2, V1 in W4. rewrite V2, V1 in W3. rewrite V1 in W2.
  rewrite W4, W3, W2, W1 in W5. rewrite !write_at_twice in W5.
  split; simpl; try done.
  - congruence.
  - congruence.
  - congruence.
Qed.

Lemma frames_merged_cmd Pe Pa T c what key v :
  is_command_key key ->
  frames Pe Pa is_command_key T (merged_cmd c what key v).
Proof.
  intros Hkey. unfold merged_cmd.
  apply frames_bind; [destruct (x2cmdlist c what); frames_auto|].
  intros x. apply frames_bind.
  - intros s. unfold dpop, dict_pop.
    pose proof (frames_dwrite Pe Pa is_command_key T v
                  (delete key (dread v s)) s) as Hw.
    destruct (dwrite v (delete key (dread v s)) s) as [[v'|e|] s'];
      simpl in *; apply Hw; intros k Hk; apply lookup_delete_ne;
      intros <-; by apply Hk.
  - intros p. unfold list_add. frames_auto.
Qed.

Lemma frames_prologue c a :
  frames no_event no_action is_command_key no_fd (prologue c a).
Proof.
  unfold prologue.
  repeat (apply frames_bind; [first
    [ apply frames_of_sum
    | apply frames_merged_cmd; unfold is_command_key, command_keys;
      by repeat constructor
    | by apply frames_pure ] | intros ?]).
  apply frames_ret.
Qed.

Lemma wire_stdin_cases c stdin pty_master selectors s :
  raw_switch c stdin s (wire_stdin c stdin pty_master selectors s).2.
Proof.
  unfold wire_stdin. destruct stdin as [fd|]; [|by left].
  destruct pty_master as [pm|]; [|by left].
  unfold bind, tcgetattr, setraw.
  destruct (tattr s !! fd) as [t|] eqn:Ht; [|by left].
  simpl. rewrite Ht. simpl. right. by exists fd, t.
Qed.

(** Lines 191-234: a raw switch, then the window size and [TERM]. *)
Lemma pty_wire_rel c a l pty_master pty_path s :
  exists s3,
    raw_switch c (l_stdin l) s s3
    /\ step is_winsz no_action term_key no_fd s3
         (pty_wire c a l pty_master pty_path s).2.
Proof.
  unfold pty_wire. destruct (truthy pty_path).
  - unfold bind at 1.
    pose proof (wire_stdin_cases c (l_stdin l) pty_master [] s) as Hin.
    destruct (wire_stdin c (l_stdin l) pty_master [] s) as [[sel|e|] s3];
      simpl in *; try (exists s3; split; [done | apply step_refl]).
    exists s3. split; [done|].
    apply (frames_bind is_winsz no_action term_key no_fd);
      [apply frames_wire_stdout | intros; apply frames_ret].
  - exists s. split; [by left | apply step_refl].
Qed.

Lemma dread_step Pe Pa (K : pykey -> Prop) T s s' v k :
  step Pe Pa K T s s' -> ~ K k -> dread v s' !! k = dread v s !! k.
Proof.
  intros [_ _ Hh _] Hk. destruct v as [x|d]; simpl; [|done].
  by apply Hh.
Qed.

Lemma tattr_eq_step Pe Pa K s s' :
  step Pe Pa K no_fd s s' -> tattr s' = tattr s.
Proof.
  intros [_ _ _ Ht]. apply map_eq. intros fd. apply Ht. by intros [].
Qed.

Lemma pipe_eq_step Pe K T s s' :
  step Pe no_action K T s s' ->
  CExit.pipe (ctexit s') = CExit.pipe (ctexit s).
Proof.
  intros [_ [acts [Hp Hf]] _ _]. destruct acts as [|x acts].
  - by rewrite app_nil_r in Hp.
  - inversion Hf as [|? ? Hx]. destruct Hx.
Qed.

Lemma log_eq_step Pa K T s s' :
  step no_event Pa K T s s' -> log s' = log s.
Proof.
  intros [[evs [Hl Hf]] _ _ _]. destruct evs as [|x evs].
  - by rewrite app_nil_r in Hl.
  - inversion Hf as [|? ? Hx]. destruct Hx.
Qed.

Lemma heap_raw_switch c stdin s s' :
  raw_switch c stdin s s' -> heap s' = heap s.
Proof. by intros [->|(fd & t & _ & _ & ->)]. Qed.

Lemma with_registered_nil s : with_registered [] s = s.
Proof.
  unfold with_registered, set_ctexit. destruct s as [h t lg [p]]. simpl.
  by rewrite app_nil_r.
Qed.

(** Putting the four phases of the body together. *)
Lemma body_rel_intro c a l A1 s s3 s4 s' :
  raw_switch c (l_stdin l) (with_registered A1 s) s3 ->
  step is_winsz no_action term_key no_fd s3 s4 ->
  step (launch_from c a l (dread (l_extra l) s4)) is_mon_close
    no_key no_fd s4 s' ->
  body_rel c a l A1 s s'.
Proof.
  intros H23 H34 H45.
  pose proof (heap_raw_switch _ _ _ _ H23) as Hheap23. simpl in Hheap23.
  assert (Hextra : forall k, ~ term_key k ->
            dread (l_extra l) s4 !! k = dread (l_extra l) s !! k).
  { intros k Hk.
    rewrite (dread_step _ _ _ _ _ _ _ _ H34 Hk).
    destruct (l_extra l); simpl; by rewrite ?Hheap23. }
  pose proof (tattr_eq_step _ _ _ _ _ H34) as T34.
  pose proof (tattr_eq_step _ _ _ _ _ H45) as T45.
  pose proof (pipe_eq_step _ _ _ _ _ H34) as P3.
  destruct H34 as [[e3 [L3 F3]] _ Hh3 _].
  destruct H45 as [[e4 [L4 F4]] [A3 [P4 G4]] Hh4 _].
  assert (Hlog : exists e2, log s3 = log s ++ e2
                   /\ Forall (body_event c a l s) e2).
  { destruct H23 as [->|(fd & t & _ & _ & ->)].
    - exists []. by rewrite app_nil_r.
    - exists [EvSetraw fd]. split; [done|]. by constructor. }
  destruct Hlog as [e2 [L2 F2]].
  split.
  - destruct H23 as [->|(fd & t & Hin & Hfd & ->)];
      unfold with_registered in *; simpl in *.
    + exists [], A3. rewrite P4, P3. simpl.
      split; [by rewrite <- app_assoc|]. split; [done|].
      left. split; [done|]. congruence.
    + exists [ActTcsetattr fd TCSAFLUSH t], A3.
      rewrite P4, P3. simpl. rewrite <- !app_assoc. simpl.
      split; [done|]. split; [done|].
      right. exists fd, t. do 3 (split; [done|]).
      by rewrite T45, T34.
  - intros x k Hk. rewrite Hh4 by (by intros []). rewrite Hh3 by done.
    unfold dict_at. by rewrite Hheap23.
  - exists (e2 ++ e3 ++ e4).
    rewrite L4, L3, L2, <- !app_assoc.
    split; [done|].
    apply Forall_app. split; [done|]. apply Forall_app. split.
    + eapply Forall_impl; [exact F3|].
      by intros ev (fd & ws & ->).
    + eapply Forall_impl; [exact F4|].
      intros [] Hev; simpl in *; try done.
      destruct Hev as (-> & -> & up & env & ->).
      split; [done|]. split; [done|].
      by exists up, env, (dread (l_extra l) s4).
Qed.

Lemma bind_raise {A B} (m : M A) (k : A -> M B) s e s1 :
  m s = (Raise e, s1) -> bind m k s = (Raise e, s1).
Proof. unfold bind. by intros ->. Qed.

Lemma bind_blocked {A B} (m : M A) (k : A -> M B) s s1 :
  m s = (Blocked, s1) -> bind m k s = (Blocked, s1).
Proof. unfold bind. by intros ->. Qed.

Lemma launch_event_from c a l up env s ev :
  launch_event (l_name l)
    (unit_properties_final c a l up env (dread (l_extra l) s)) ev ->
  launch_from c a l (dread (l_extra l) s) ev.
Proof.
  destruct ev; simpl; try done. intros (-> & -> & ->).
  split; [done|]. split; [done|]. by exists up, env.
Qed.

Lemma body_rel_refl c a l s : body_rel c a l [] s s.
Proof.
  eapply body_rel_intro;
    [rewrite with_registered_nil; by left | apply step_refl
    | apply step_refl].
Qed.

(** Lines 182-189 change the guard only. *)
Lemma open_pty_state c a s :
  (open_pty c a s).2 = with_registered (opened_close c a) s.
Proof.
  unfold open_pty, opened_close, ext, bind.
  destruct (a_pty a); simpl; [|by rewrite with_registered_nil].
  destruct (truthy (a_machine a)); simpl.
  { rewrite with_registered_nil. by destruct (fails c CMachineOpenPTY). }
  destruct (fails c COpenpty); simpl; [by rewrite with_registered_nil|].
  destruct (fails c CTtyname); simpl; [by rewrite with_registered_nil|].
  done.
Qed.

Lemma after_pty_rel c a l pt s :
  exists s3 s4,
    raw_switch c (l_stdin l) s s3
    /\ step is_winsz no_action term_key no_fd s3 s4
    /\ step (launch_from c a l (dread (l_extra l) s4)) is_mon_close
         no_key no_fd s4 (after_pty c a l pt s).2.
Proof.
  unfold after_pty.
  destruct (pty_wire_rel c a l pt.1 pt.2 s) as (s3 & H23 & H34).
  destruct (pty_wire c a l pt.1 pt.2 s) as [[w|e|] s4] eqn:Hw;
    simpl in H34.
  2: { rewrite (bind_raise _ _ _ _ _ Hw). simpl.
       exists s3, s4. split; [done|]. split; [done|]. apply step_refl. }
  2: { rewrite (bind_blocked _ _ _ _ Hw). simpl.
       exists s3, s4. split; [done|]. split; [done|]. apply step_refl. }
  rewrite (bind_run _ _ _ _ _ Hw).
  unfold read_properties. unfold bind at 1.
  exists s3, s4. split; [done|]. split; [done|].
  eapply step_weaken; [| | | | apply frames_launch]; try done.
  intros ev. apply launch_event_from.
Qed.

Lemma body_summary c a l s :
  body_rel c a l (opened_close c a) s (body c a l s).2.
Proof.
  change (body c a l) with (bind (open_pty c a) (after_pty c a l)).
  pose proof (open_pty_state c a s) as H12.
  destruct (open_pty c a s) as [[pt|e|] s2] eqn:Ho; simpl in H12.
  2: { rewrite (bind_raise _ _ _ _ _ Ho). simpl. subst s2.
       apply (body_rel_intro c a l _ s
                (with_registered (opened_close c a) s)
                (with_registered (opened_close c a) s));
         [by left | apply step_refl | apply step_refl]. }
  2: { rewrite (bind_blocked _ _ _ _ Ho). simpl. subst s2.
       apply (body_rel_intro c a l _ s
                (with_registered (opened_close c a) s)
                (with_registered (opened_close c a) s));
         [by left | apply step_refl | apply step_refl]. }
  rewrite (bind_run _ _ _ _ _ Ho).
  destruct (after_pty_rel c a l pt s2) as (s3 & s4 & H23 & H34 & H45).
  subst s2. by eapply body_rel_intro.
Qed.

Lemma with_ctx_entered {A} c enter exit_site (m : M A) s :
  fails c enter = false -> (with_ctx c enter exit_site m s).2 = (m s).2.
Proof.
  unfold with_ctx. intros ->.
  destruct (m s) as [[x|e|] s']; simpl; by destruct (fails c exit_site).
Qed.

Lemma with_ctx_not_entered {A} c enter exit_site (m : M A) s :
  fails c enter = true -> (with_ctx c enter exit_site m s).2 = s.
Proof. unfold with_ctx. by intros ->. Qed.

Lemma guarded_summary c a l s :
  body_rel c a l (guard_close c a) s (guarded c a l s).2.
Proof.
  unfold guarded, guard_close.
  destruct (fails c CBusEnter) eqn:Hb; simpl.
  { rewrite with_ctx_not_entered by done. apply body_rel_refl. }
  rewrite with_ctx_entered by done.
  destruct (fails c CManagerEnter) eqn:Hm; simpl.
  { rewrite with_ctx_not_entered by done. apply body_rel_refl. }
  rewrite with_ctx_entered by done. apply body_summary.
Qed.

Lemma returns_bind {A B} (m : M A) (k : A -> M B) :
  returns m -> (forall a, returns (k a)) -> returns (bind m k).
Proof.
  intros Hm Hk s. unfold bind. specialize (Hm s).
  destruct (m s) as [[x|e|] s']; simpl in *; try done. apply Hk.
Qed.

Lemma returns_merged_cmd c what key v : returns (merged_cmd c what key v).
Proof.
  unfold merged_cmd. apply returns_bind.
  - by destruct (x2cmdlist c what).
  - intros x. apply returns_bind.
    + intros s. unfold dpop, dict_pop. by destruct v.
    + intros p. apply returns_bind; [|done].
      unfold list_add. by destruct p.1.
Qed.

Lemma returns_prologue c a : returns (prologue c a).
Proof.
  unfold prologue.
  repeat (apply returns_bind; [first
    [ apply returns_merged_cmd
    | by intros ?; destruct (get_fno _)
    | done ] | intros ?]).
  done.
Qed.

(** ** Leaving the [with] statement: the cleanups *)


Lemma call_action_cases c s act :
  (exists e, call_action c act s = (Some e, s))
  \/ call_action c act s
     = (None, MkState (heap s) (restore_all [act] (tattr s))
                (log s ++ [cleanup_of act]) (ctexit s)).
Proof.
  destruct act as [fd|fd w t|]; simpl.
  - destruct (fails c COsClose); [left; by eexists | by right].
  - destruct (fails c CTcsetattr); [left; by eexists|].
    destruct (tattr s !! fd); [by right | left; by eexists].
  - destruct (fails c CMonClose); [left; by eexists | by right].
Qed.


(** The state after the [for] loop of [__exit__]: the calls that
    returned are on record, in order, and nothing else changed but the
    attributes they restored. *)
Lemma call_all_state c l s :
  let r := CExit.call_all (call_action c) l s in
  exists returned,
    (returned = r.1.1
     \/ exists act, r.1.1 = returned ++ [act] /\ r.1.2 <> None)
    /\ r.2 = MkState (heap s) (restore_all returned (tattr s))
               (log s ++ map cleanup_of returned) (ctexit s).
Proof.
  revert s. induction l as [|act l IH]; intros s; simpl.
  - exists []. split; [by left|]. rewrite app_nil_r. by destruct s.
  - destruct (call_action_cases c s act) as [[e ->]| ->].
    + exists []. simpl. split.
      * right. by exists act.
      * rewrite app_nil_r. by destruct s.
    + specialize (IH (MkState (heap s) (restore_all [act] (tattr s))
                        (log s ++ [cleanup_of act]) (ctexit s))).
      destruct (CExit.call_all (call_action c) l _) as [[d r] s''].
      simpl in *. destruct IH as (ret_ & Hcases & ->).
      exists (act :: ret_). split.
      * destruct Hcases as [->|(b & -> & Hr)]; [by left|].
        right. by exists b.
      * simpl. by rewrite <- app_assoc.
Qed.

(** ** The shape of a call *)

Lemma run_unfold c a :
  run c a = bind (prologue c a) (fun l => with_cexit c (guarded c a l)).
Proof. reflexivity. Qed.

Lemma run_cases c a s : run_shape c a s (run c a s).
Proof.
  rewrite run_unfold. unfold bind.
  pose proof (returns_prologue c a s) as Hret.
  destruct (prologue c a s) as [[l|e|] s1] eqn:Hp; simpl in Hret;
    [|by apply RunEarly|done].
  unfold with_cexit.
  destruct (guarded c a l (set_ctexit CExit.init s1)) as [r sb] eqn:Hg.
  destruct (CExit.exit_ (call_action c) (ctexit sb) (exc_of r) sb)
    as [[called e] s'] eqn:Hx.
  destruct r as [u|e0|].
  - by eapply (RunExit c a s l s1 (Ok u)).
  - by eapply (RunExit c a s l s1 (Raise e0)).
  - by eapply RunBlocked.
Qed.

Lemma drop_log (s s' : state) evs :
  log s' = log s ++ evs -> drop (length (log s)) (log s') = evs.
Proof. intros ->. by rewrite drop_app_length. Qed.

Lemma dread_set_ctexit v g s : dread v (set_ctexit g s) = dread v s.
Proof. by destruct v. Qed.

Lemma submitted_cleanups acts : submitted (map cleanup_of acts) = [].
Proof. induction acts as [|[] acts IH]; simpl; done. Qed.

Lemma submitted_app e1 e2 :
  submitted (e1 ++ e2) = submitted e1 ++ submitted e2.
Proof. unfold submitted. apply omap_app. Qed.

Lemma submitted_body c a l s evs p :
  Forall (body_event c a l s) evs -> p ∈ submitted evs ->
  props_from c a l s p.
Proof.
  intros Hf Hp. unfold submitted in Hp.
  apply list_elem_of_omap in Hp as (ev & Hev & Hsome).
  rewrite Forall_forall in Hf. specialize (Hf ev Hev).
  destruct ev; simpl in *; try discriminate.
  injection Hsome as ->. by destruct Hf as (_ & _ & Hf).
Qed.

(** The trace of a call that got past the prologue. *)
Lemma run_exit_log c a l A1 sb called e s' (s1 : state) r :
  body_rel c a l A1 (set_ctexit CExit.init s1) sb ->
  CExit.exit_ (call_action c) (ctexit sb) r sb = (called, e, s') ->
  exists evs returned,
    log s' = log s1 ++ evs ++ map cleanup_of returned
    /\ Forall (body_event c a l (set_ctexit CExit.init s1)) evs
    /\ heap s' = heap sb
    /\ tattr s' = restore_all returned (tattr sb)
    /\ (returned = called
        \/ exists act, called = returned ++ [act] /\ e <> None).
Proof.
  intros [_ _ [evs [Hl Hf]]] Hx. unfold CExit.exit_ in Hx.
  destruct (call_all_state c (rev (CExit.pipe (ctexit sb))) sb)
    as (returned & Hcases & Hs).
  rewrite Hx in Hcases, Hs. simpl in *. subst s'. simpl.
  exists evs, returned. rewrite Hl. simpl. rewrite <- app_assoc.
  repeat split; try done.
Qed.

Lemma run_submitted c a s p :
  p ∈ submitted (trace (run c a) s) ->
  exists l s1, prologue c a s = (Ok l, s1) /\ props_from c a l s1 p.
Proof.
  unfold trace. intros Hp.
  destruct (run_cases c a s) as [e s1 Hpro|l s1 sb Hpro Hg
    |l s1 r sb called e s' Hpro Hg Hr Hx]; simpl in Hp.
  - pose proof (frames_prologue c a s) as Hs. rewrite Hpro in Hs.
    apply log_eq_step in Hs. simpl in *.
    rewrite (drop_log _ _ []) in Hp by (by rewrite app_nil_r).
    by apply elem_of_nil in Hp.
  - exists l, s1. split; [done|].
    pose proof (guarded_summary c a l (set_ctexit CExit.init s1)) as Hb.
    rewrite Hg in Hb. simpl in Hb. destruct Hb as [_ _ [evs [Hl Hf]]].
    apply prologue_ok in Hpro as Hps. destruct Hps.
    simpl in Hl. rewrite (drop_log _ _ evs) in Hp by congruence.
    pose proof (submitted_body _ _ _ _ _ _ Hf Hp) as (up & env & ex & -> & H).
    exists up, env, ex. split; [done|]. intros k Hk.
    by rewrite H, dread_set_ctexit.
  - exists l, s1. split; [done|].
    pose proof (guarded_summary c a l (set_ctexit CExit.init s1)) as Hb.
    rewrite Hg in Hb. simpl in Hb.
    destruct (run_exit_log _ _ _ _ _ _ _ _ _ _ Hb Hx)
      as (evs & returned & Hl & Hf & _).
    apply prologue_ok in Hpro as Hps. destruct Hps.
    rewrite (drop_log _ _ (evs ++ map cleanup_of returned)) in Hp
      by (simpl; congruence).
    rewrite submitted_app, submitted_cleanups, app_nil_r in Hp.
    pose proof (submitted_body _ _ _ _ _ _ Hf Hp) as (up & env & ex & -> & H).
    exists up, env, ex. split; [done|]. intros k Hk.
    by rewrite H, dread_set_ctexit.
Qed.

(** ** Lines 236-260: looking up the submitted mapping *)

Lemma drop_none_lookup (d : dict) k : drop_none d !! k = keep (d !! k).
Proof.
  unfold drop_none, keep. rewrite map_lookup_filter.
  destruct (d !! k) as [v|]; simpl; [|done].
  case_guard as Hg; simpl in *; destruct (is_none v); done.
Qed.

Lemma drop_none_no_none (d : dict) k v :
  drop_none d !! k = Some v -> v <> VNone.
Proof.
  rewrite drop_none_lookup. unfold keep.
  destruct (d !! k) as [x|]; [|done].
  destruct (is_none x) eqn:Hx; [done|]. intros [= <-] ->. done.
Qed.

(** An entry of [extra] wins; the dictionary literal comes next. *)
Lemma final_lookup c a l (up env extra : dict) k :
  unit_properties_final c a l up env extra !! k
  = keep (match extra !! k with
          | Some v => Some v
          | None =>
              match builtin_properties c a l env !! k with
              | Some v => Some v
              | None => up !! k
              end
          end).
Proof.
  unfold unit_properties_final, dict_update.
  rewrite drop_none_lookup, !lookup_union.
  destruct (extra !! k), (builtin_properties c a l env !! k), (up !! k);
    done.
Qed.

Ltac builtin_lookup :=
  unfold builtin_properties; simpl;
  repeat (rewrite lookup_insert_ne by done);
  by rewrite lookup_insert_eq.

Lemma builtin_RuntimeMaxUSec c a l env :
  builtin_properties c a l env !! RuntimeMaxUSec
  = Some (l_runtime_max_usec l).
Proof. builtin_lookup. Qed.

Lemma builtin_ExecStart c a l env :
  builtin_properties c a l env !! ExecStart = Some (VList (l_start_cmd l)).
Proof. builtin_lookup. Qed.





Lemma popped_lookup (d : dict) k :
  popped d !! k = if decide (k ∈ command_keys) then None else d !! k.
Proof.
  unfold popped, command_keys. rewrite !lookup_delete.
  destruct (decide (k ∈ _)) as [Hin|Hout].
  - rewrite !elem_of_cons in Hin. repeat case_decide; try done.
    destruct Hin as [->|[->|[->|[->|[->|Hin]]]]]; try done.
    by apply elem_of_nil in Hin.
  - rewrite !elem_of_cons in Hout. repeat case_decide; try done;
      subst; exfalso; apply Hout; auto 10.
Qed.

Lemma runtime_max_usec_some n :
  runtime_max_usec (Some n) = VInt (n * 10 ^ 6).
Proof.
  unfold runtime_max_usec, py_or. simpl.
  destruct (Z.eqb_spec n 0) as [->|Hn]; simpl; [done|].
  destruct (Z.eqb_spec (n * 10 ^ 6) 0) as [Hz|_]; simpl; [|done].
  exfalso. apply Hn. lia.
Qed.


(** The entries of [extra] that reach the request, for a key other
    than [b"TERM"]. *)
Lemma props_from_lookup c a l s s1 p k :
  prologue c a s = (Ok l, s1) -> props_from c a l s1 p ->
  ~ term_key k ->
  exists up env : dict,
    p !! k
    = keep (match popped (caller_dict (a_extra a) s) !! k with
            | Some v => Some v
            | None =>
                match builtin_properties c a l env !! k with
                | Some v => Some v
                | None => up !! k
                end
            end).
Proof.
  intros Hpro (up & env & extra & -> & Hex) Hk.
  apply prologue_ok in Hpro as Hps. destruct Hps.
  exists up, env. rewrite final_lookup, Hex by done. by rewrite ps_extra0.
Qed.

(** ** The submitted [RuntimeMaxUSec] *)

(** A call that submits something submits [first_submitted]. *)
Lemma first_submitted_elem c a s :
  match submitted (trace (run c a) s) with [] => false | _ => true end
  = true ->
  first_submitted c a s ∈ submitted (trace (run c a) s).
Proof.
  unfold first_submitted.
  destruct (submitted (trace (run c a) s)); [done|]. intros _. by left.
Qed.

(** C1, as stated, fails: with [runtime_max_sec=5] and
    [extra={b"RuntimeMaxUSec": 7}] the call submits 7, not 5000000
    ([unit_properties.update(extra)] comes last); with
    [runtime_max_sec=0] and no [extra] it submits 0, not nothing. *)
Lemma RuntimeMaxUSec_as_specified_fails :
  (first_submitted (quiet []) call_sec5_extra7 (start_state heap_extra7 ∅)
     ∈ submitted (trace (run (quiet []) call_sec5_extra7)
                    (start_state heap_extra7 ∅))
   /\ first_submitted (quiet []) call_sec5_extra7
        (start_state heap_extra7 ∅) !! RuntimeMaxUSec
      <> runtime_max_usec_as_specified call_sec5_extra7
           (caller_dict (a_extra call_sec5_extra7)
              (start_state heap_extra7 ∅)))
  /\ (first_submitted (quiet []) call_sec0 (start_state ∅ ∅)
        ∈ submitted (trace (run (quiet []) call_sec0) (start_state ∅ ∅))
      /\ first_submitted (quiet []) call_sec0 (start_state ∅ ∅)
           !! RuntimeMaxUSec
         <> runtime_max_usec_as_specified call_sec0
              (caller_dict (a_extra call_sec0) (start_state ∅ ∅))).
Proof.
  split; (split; [apply first_submitted_elem; vm_compute; reflexivity
                 | vm_compute; discriminate]).
Qed.

(** C1, amended: in every property mapping a call submits,
    [RuntimeMaxUSec] is the value the caller's [extra] has for it when
    [extra] has the key (and the entry is dropped when that value is
    [None]); when [extra] has no such key it is [runtime_max_sec] times
    10^6 when [runtime_max_sec] is a number (zero included), and absent
    when [runtime_max_sec] is [None].  One source decides, never both. *)
Theorem RuntimeMaxUSec_submitted c a s p :
  p ∈ submitted (trace (run c a) s) ->
  p !! RuntimeMaxUSec
  = match caller_dict (a_extra a) s !! RuntimeMaxUSec with
    | Some v => if is_none v then None else Some v
    | None =>
        match a_runtime_max_sec a with
        | Some n => Some (VInt (n * 10 ^ 6))
        | None => None
        end
    end.
Proof.
  intros Hp. apply run_submitted in Hp as (l & s1 & Hpro & Hfrom).
  destruct (props_from_lookup c a l s s1 p RuntimeMaxUSec Hpro Hfrom)
    as (up & env & ->); [done|].
  rewrite popped_lookup, builtin_RuntimeMaxUSec.
  rewrite decide_False
    by (unfold command_keys; rewrite !elem_of_cons, elem_of_nil;
        by intros [|[|[|[|[|]]]]]).
  apply prologue_ok in Hpro as [Hu _ _ _ _ _ _ _ _ _ _ _ _ _ _ _ _].
  rewrite Hu.
  destruct (caller_dict (a_extra a) s !! RuntimeMaxUSec) as [v|]; [done|].
  destruct (a_runtime_max_sec a) as [n|]; [|done].
  by rewrite runtime_max_usec_some.
Qed.

Lemma RuntimeMaxUSec_submitted_witness :
  first_submitted (quiet []) call_sec5_extra7 (start_state heap_extra7 ∅)
    ∈ submitted (trace (run (quiet []) call_sec5_extra7)
                   (start_state heap_extra7 ∅))
  /\ first_submitted (quiet []) call_sec5_extra7
       (start_state heap_extra7 ∅) !! RuntimeMaxUSec
     = match caller_dict (a_extra call_sec5_extra7)
               (start_state heap_extra7 ∅) !! RuntimeMaxUSec with
       | Some v => if is_none v then None else Some v
       | None =>
           match a_runtime_max_sec call_sec5_extra7 with
           | Some n => Some (VInt (n * 10 ^ 6))
           | None => None
           end
       end.
Proof.
  assert (H : first_submitted (quiet []) call_sec5_extra7
                (start_state heap_extra7 ∅)
              ∈ submitted (trace (run (quiet []) call_sec5_extra7)
                             (start_state heap_extra7 ∅)))
    by (apply first_submitted_elem; vm_compute; reflexivity).
  split; [exact H|].
  exact (RuntimeMaxUSec_submitted _ _ _ _ H).
Defined.

(** ** The submitted command lists *)


Lemma command_key_not_term k : k ∈ command_keys -> ~ term_key k.
Proof.
  unfold command_keys, term_key. rewrite !elem_of_cons, elem_of_nil.
  intros [->|[->|[->|[->|[->|[]]]]]]; done.
Qed.



(** One command parameter in a submitted mapping: the caller's command
    followed by the caller's override. *)
Lemma command_lookup c a l s s1 p k lst :
  prologue c a s = (Ok l, s1) -> props_from c a l s1 p ->
  k ∈ command_keys ->
  (forall env, builtin_properties c a l env !! k = Some lst) ->
  p !! k = keep (Some lst).
Proof.
  intros Hpro Hfrom Hk Hb.
  destruct (props_from_lookup c a l s s1 p k Hpro Hfrom
              (command_key_not_term k Hk)) as (up & env & ->).
  by rewrite popped_lookup, decide_True, Hb.
Qed.

Lemma ExecStart_lookup c a s l s1 p :
  prologue c a s = (Ok l, s1) -> props_from c a l s1 p ->
  command_as_specified c (a_cmd a) (caller_dict (a_extra a) s) ExecStart p.
Proof.
  intros Hpro Hfrom. apply prologue_ok in Hpro as Hps. destruct Hps.
  exists (l_start_cmd l). split; [done|].
  rewrite (command_lookup c a l s s1 p ExecStart (VList (l_start_cmd l)));
    first [done | by repeat constructor
          | intros env; apply builtin_ExecStart].
Qed.




(** ** No [None], and [ExecStart] *)

(** C6, as stated, fails: nothing in [run] checks the command, and a
    call whose command marshals to the empty list submits an empty
    [ExecStart]. *)
Lemma ExecStart_can_be_empty :
  first_submitted (quiet []) call_no_cmd (start_state ∅ ∅)
    ∈ submitted (trace (run (quiet []) call_no_cmd) (start_state ∅ ∅))
  /\ first_submitted (quiet []) call_no_cmd (start_state ∅ ∅) !! ExecStart
     = Some (VList []).
Proof.
  split; [apply first_submitted_elem; vm_compute; reflexivity|].
  vm_compute. reflexivity.
Qed.

(** C6, amended: no submitted mapping has a key whose value is [None];
    every submitted mapping has an [ExecStart] entry, the list made of
    the caller's command as [x2cmdlist] marshals it followed by the
    list the caller's [extra] had under [b"ExecStart"]; it is empty
    exactly when both are. *)
Theorem submitted_no_None_and_ExecStart c a s p :
  p ∈ submitted (trace (run c a) s) ->
  (forall k v, p !! k = Some v -> v <> VNone)
  /\ exists x y,
       x2cmdlist c (a_cmd a) = Some x
       /\ override_list (caller_dict (a_extra a) s) ExecStart = Some y
       /\ p !! ExecStart = Some (VList (x ++ y))
       /\ (x ++ y = [] <-> x = [] /\ y = []).
Proof.
  intros Hp. split.
  - apply run_submitted in Hp as (l & s1 & _ & up & env & ex & -> & _).
    intros k v. apply drop_none_no_none.
  - apply run_submitted in Hp as (l & s1 & Hpro & Hfrom).
    destruct (ExecStart_lookup c a s l s1 p Hpro Hfrom) as (L & HL & Hlook).
    unfold expected_cmd in HL.
    destruct (x2cmdlist c (a_cmd a)) as [x|]; [|done].
    destruct (override_list (caller_dict (a_extra a) s) ExecStart)
      as [y|]; [|done].
    injection HL as <-. exists x, y. repeat split; try done.
    + by destruct x.
    + destruct x; [done|]. discriminate.
    + intros [-> ->]. done.
Qed.

Lemma submitted_no_None_and_ExecStart_witness :
  first_submitted (quiet []) plain (start_state ∅ ∅)
    ∈ submitted (trace (run (quiet []) plain) (start_state ∅ ∅))
  /\ forall k v,
       first_submitted (quiet []) plain (start_state ∅ ∅) !! k = Some v ->
       v <> VNone.
Proof.
  assert (H : first_submitted (quiet []) plain (start_state ∅ ∅)
              ∈ submitted (trace (run (quiet []) plain)
                             (start_state ∅ ∅)))
    by (apply first_submitted_elem; vm_compute; reflexivity).
  split; [exact H|].
  exact (proj1 (submitted_no_None_and_ExecStart _ _ _ _ H)).
Defined.






(** ** Leaving the [with] statement: the terminal and the pty master *)








Lemma elem_of_rev {A} (x : A) (l : list A) : x ∈ rev l <-> x ∈ l.
Proof.
  split; intros H; apply list_elem_of_In; apply list_elem_of_In in H.
  - by apply in_rev.
  - by apply in_rev in H.
Qed.






(** ** The resource guard *)

(** C2, as stated, fails: with two cleanups registered, the close of
    descriptor 5 and then the close of the monitor connection, and the
    second one raising, [__exit__] calls the second, is left by its
    exception, and the first cleanup is never executed. *)
Lemma raising_cleanup_ends_unwinding :
  (CExit.exit_ (call_action (collaborators [CMonClose] [] 0))
     (CExit.registered [ActClose 5; ActMonClose]) None
     (start_state ∅ ∅)).1
  = ([ActMonClose], Some (External CMonClose))
  /\ log (CExit.exit_ (call_action (collaborators [CMonClose] [] 0))
            (CExit.registered [ActClose 5; ActMonClose]) None
            (start_state ∅ ∅)).2 = [].
Proof. split; vm_compute; reflexivity. Qed.

(** C2, amended: for any cleanups registered in the order [l], whatever
    the scope was left with ([excargs]: nothing or an error), the
    callables [__exit__] calls are a leading part of [l] reversed, so
    the order is the reverse of registration and none is called twice;
    all of them are called when none raises; a cleanup that raises is
    the last one called, those registered before it are not executed. *)
Theorem guard_unwinds_in_reverse {W A E} (call : A -> W -> option E * W)
  (l : list A) (excargs : option E) (w : W) :
  (exists rest,
     rev l
     = (CExit.exit_ call (CExit.registered l) excargs w).1.1 ++ rest)
  /\ (CExit.all_return call (rev l) w ->
      (CExit.exit_ call (CExit.registered l) excargs w).1 = (rev l, None))
  /\ (forall pre a post,
        rev l = pre ++ a :: post ->
        CExit.all_return call pre w ->
        (call a (CExit.call_all call pre w).2).1 <> None ->
        (CExit.exit_ call (CExit.registered l) excargs w).1.1
        = pre ++ [a]).
Proof.
  unfold CExit.exit_. rewrite pipe_registered. split; [|split].
  - apply call_all_prefix.
  - apply call_all_returns.
  - intros pre a post -> Hpre Hraise. by apply call_all_raise.
Qed.

Lemma guard_unwinds_in_reverse_witness :
  (CExit.exit_ (call_action (quiet [])) 
     (CExit.registered [ActClose 5; ActMonClose]) None
     (start_state ∅ ∅)).1
  = (rev [ActClose 5; ActMonClose], None).
Proof.
  apply (proj1 (proj2 (guard_unwinds_in_reverse (call_action (quiet []))
                         [ActClose 5; ActMonClose] None
                         (start_state ∅ ∅)))).
  vm_compute. tauto.
Defined.

(** ** The waiting loop *)


Lemma forward_nothing_ready l pty_master t selectors s :
  forward l pty_master t [] selectors s = (Ok selectors, s).
Proof.
  unfold forward, forward_stdin, forward_master, mem, bind.
  destruct (l_stdin l), pty_master; reflexivity.
Qed.



(** C5: a turn of the loop ends it by the polling rule exactly when a
    poll interval is set (truthy), [select] came back with no
    descriptor ready, and [MainPID] reads zero. *)
Theorem polling_exit_iff c l pty_master job selectors t s :
  (loop_turn c l pty_master job selectors t s).1 = Ok (Break ByPolling)
  <-> truthy_q (l_wait_polling l) = true
      /\ select selectors t = []
      /\ t_main_pid t = 0.
Proof.
  unfold loop_turn. split.
  - unfold bind.
    destruct (forward l pty_master t (select selectors t) selectors s)
      as [[sel'|e|] s']; simpl; try discriminate.
    assert (Hpoll : polling_exit (l_wait_polling l) (select selectors t)
                      (t_main_pid t) = true ->
                    truthy_q (l_wait_polling l) = true
                    /\ select selectors t = [] /\ t_main_pid t = 0).
    { unfold polling_exit. destruct (truthy_q (l_wait_polling l));
        [|done]. destruct (select selectors t); [|done]. simpl.
      intros H%Z.eqb_eq. done. }
    destruct (polling_exit (l_wait_polling l) (select selectors t)
                (t_main_pid t)) eqn:Hp.
    + intros _. by apply Hpoll.
    + destruct (bool_decide (monitor_fd c ∈ select selectors t));
        [|discriminate].
      destruct (t_message t) as [m|]; [|discriminate].
      destruct (message_exits (unit_path c) job m s') as [[[]|e|] s''];
        discriminate.
  - intros (Hq & Hsel & Hpid). rewrite Hsel.
    rewrite (bind_run _ _ _ _ _ (forward_nothing_ready _ _ _ _ _)).
    rewrite bool_decide_eq_false_2 by apply not_elem_of_nil.
    unfold polling_exit. by rewrite Hq, Hpid.
Qed.

(** The loop is left in the turn that breaks, and only there. *)
Lemma event_loop_turn c l pty_master job t rest selectors s :
  event_loop c l pty_master job (t :: rest) selectors s
  = match loop_turn c l pty_master job selectors t s with
    | (Ok (Break by_), s') => (Ok by_, s')
    | (Ok (Continue selectors'), s') =>
        event_loop c l pty_master job rest selectors' s'
    | (Raise e, s') => (Raise e, s')
    | (Blocked, s') => (Blocked, s')
    end.
Proof.
  simpl. unfold bind.
  by destruct (loop_turn c l pty_master job selectors t s)
    as [[[by_|sel]|e|] s'].
Qed.

(** Lines 177-178: in user mode a poll interval is always set. *)
Lemma user_mode_polls c a s l s1 :
  prologue c a s = (Ok l, s1) -> a_user_mode a = true ->
  truthy_q (l_wait_polling l) = true.
Proof.
  intros Hpro Hu. apply prologue_ok in Hpro as Hps. destruct Hps.
  rewrite ps_polling0. unfold effective_polling. rewrite Hu.
  destruct (truthy_q (a_wait_polling a)) eqn:Hq; [|done].
  by destruct (a_wait_polling a).
Qed.

(** ** The run failure *)

Section Raises.
Variable P : exn -> Prop.

Lemma raises_ret {A} (x : A) : raises_only P (ret x).
Proof. by intros s e. Qed.

Lemma raises_raise {A} e : P e -> raises_only P (raise (A := A) e).
Proof. intros He s e' [= <-]. done. Qed.

Lemma raises_bind {A B} (m : M A) (k : A -> M B) :
  raises_only P m -> (forall x, raises_only P (k x)) ->
  raises_only P (bind m k).
Proof.
  intros Hm Hk s e. unfold bind. specialize (Hm s).
  destruct (m s) as [[x|e'|] s1]; simpl in *.
  - apply Hk.
  - intros [= <-]. by apply Hm.
  - done.
Qed.

Lemma raises_state {A} (f : state -> outcome A * state) :
  (forall s, succeeds (f s).1 = true) -> raises_only P f.
Proof. intros H s e He. specialize (H s). by rewrite He in H. Qed.
End Raises.

Ltac raises_step c a :=
  first
    [ apply raises_ret
    | apply raises_raise; exact I
    | apply raises_bind; [|intros ?]
    | apply raises_state; intros ?; reflexivity ].

Ltac raises_auto c a :=
  repeat first
    [ raises_step c a
    | match goal with
      | |- raises_only _ (if ?b then _ else _) => destruct b
      | |- raises_only _ (match ?x with _ => _ end) => destruct x
      end ].

Lemma raises_ext c a site : raises_only (as_policy c a) (ext c site).
Proof. unfold ext. raises_auto c a. Qed.

Lemma raises_of_sum c a {A} (r : exn + A) :
  (forall e, r = inl e -> as_policy c a e) ->
  raises_only (as_policy c a) (of_sum r).
Proof.
  intros Hr. destruct r as [e|x]; [|apply raises_ret].
  apply raises_raise. by apply Hr.
Qed.

Lemma get_fno_exn c a obj e : get_fno obj = inl e -> as_policy c a e.
Proof. destruct obj; simpl; try done. by intros [= <-]. Qed.

Lemma raises_merged_cmd c a what key v :
  raises_only (as_policy c a) (merged_cmd c what key v).
Proof.
  unfold merged_cmd. apply raises_bind.
  { destruct (x2cmdlist c what); raises_auto c a. }
  intros x. apply raises_bind.
  { apply raises_state. intros s. unfold dpop, dict_pop. by destruct v. }
  intros p. apply raises_bind; [|intros; apply raises_ret].
  unfold list_add. destruct p.1; raises_auto c a.
Qed.

Lemma raises_prologue c a : raises_only (as_policy c a) (prologue c a).
Proof.
  unfold prologue.
  repeat (apply raises_bind; [first
    [ apply raises_merged_cmd
    | apply raises_of_sum; intros e; apply get_fno_exn
    | by apply raises_state ] | intros ?]).
  apply raises_ret.
Qed.

Lemma raises_open_pty c a : raises_only (as_policy c a) (open_pty c a).
Proof.
  unfold open_pty, register, modify.
  raises_auto c a; apply raises_ext.
Qed.

Lemma raises_tcgetattr c a fd : raises_only (as_policy c a) (tcgetattr fd).
Proof.
  intros st ex. unfold tcgetattr. destruct (tattr st !! fd); [done|].
  by intros [= <-].
Qed.

Lemma raises_setraw c a fd : raises_only (as_policy c a) (setraw c fd).
Proof.
  intros st ex. unfold setraw. destruct (tattr st !! fd); [done|].
  by intros [= <-].
Qed.

Lemma raises_set_term c a term env :
  raises_only (as_policy c a) (set_term term env).
Proof. apply raises_state. intros st. unfold set_term. by destruct env. Qed.

Lemma raises_wire_stdin c a stdin pm selectors :
  raises_only (as_policy c a) (wire_stdin c stdin pm selectors).
Proof.
  unfold wire_stdin. destruct stdin as [fd|]; [|apply raises_ret].
  destruct pm; [|apply raises_ret].
  apply raises_bind; [apply raises_tcgetattr|]. intros attrs.
  apply raises_bind; [apply raises_setraw|]. intros _.
  apply raises_bind; [by apply raises_state|]. intros _.
  apply raises_ret.
Qed.

Lemma raises_wire_stdout c a stdout pm env selectors :
  raises_only (as_policy c a) (wire_stdout c stdout pm env selectors).
Proof.
  unfold wire_stdout. destruct stdout; [|apply raises_ret].
  destruct pm; [|apply raises_ret].
  apply raises_bind.
  { destruct (getenv_TERM c) as [term|]; [|apply raises_ret].
    destruct (truthy (VStr term));
      [apply raises_set_term | apply raises_ret]. }
  intros env'. apply raises_bind; [apply raises_ext|]. intros _.
  apply raises_bind; [apply raises_ext|]. intros _.
  apply raises_bind; [by apply raises_state|]. intros _.
  apply raises_ret.
Qed.

Lemma raises_pty_wire c a l pm path :
  raises_only (as_policy c a) (pty_wire c a l pm path).
Proof.
  unfold pty_wire. destruct (truthy path); [|apply raises_ret].
  apply raises_bind; [apply raises_wire_stdin|]. intros sel.
  apply raises_bind; [apply raises_wire_stdout|]. intros r.
  apply raises_ret.
Qed.

Lemma raises_event_loop c a l pm job ticks selectors :
  raises_only (as_policy c a) (event_loop c l pm job ticks selectors).
Proof.
  revert selectors. induction ticks as [|t rest IH]; intros selectors.
  - by intros s e.
  - simpl. apply raises_bind.
    + unfold loop_turn, forward, forward_stdin, forward_master, os_read,
        os_write, message_exits, emit, modify.
      raises_auto c a.
    + intros [by_|sel]; [apply raises_ret | apply IH].
Qed.

Lemma raises_failure_policy c a :
  raises_only (as_policy c a) (failure_policy c a).
Proof.
  unfold failure_policy. destruct (a_raise_on_fail a) eqn:Hr;
    [|apply raises_ret].
  destruct (truthy (VInt (exec_main_status c))) eqn:Ht; [|apply raises_ret].
  apply raises_raise. simpl. repeat split; try done.
  simpl in Ht. intros Hz. rewrite Hz in Ht. done.
Qed.

Lemma raises_request c a site ev :
  raises_only (as_policy c a) (request c site ev).
Proof.
  unfold request. apply raises_bind; [by apply raises_state|].
  intros _. apply raises_ext.
Qed.

Lemma raises_monitor_setup c a selectors :
  raises_only (as_policy c a) (monitor_setup c a selectors).
Proof.
  unfold monitor_setup. destruct (a_wait a); [|apply raises_ret].
  apply raises_bind; [apply raises_ext|]. intros _.
  apply raises_bind; [by apply raises_state|]. intros _.
  apply raises_bind; [apply raises_request|]. intros _.
  apply raises_ret.
Qed.

Lemma raises_launch c a l pm selectors props :
  raises_only (as_policy c a) (launch c a l pm selectors props).
Proof.
  unfold launch.
  apply raises_bind; [apply raises_ext|]. intros _.
  apply raises_bind; [apply raises_monitor_setup|]. intros sel.
  apply raises_bind; [apply raises_request|]. intros _.
  apply raises_bind.
  { destruct (a_wait a); [|apply raises_ret].
    apply raises_bind; [apply raises_event_loop|]. intros _.
    apply raises_ret. }
  intros _. apply raises_bind; [apply raises_failure_policy|]. intros _.
  apply raises_bind; [apply raises_ext|]. intros _. apply raises_ret.
Qed.

Lemma raises_body c a l : raises_only (as_policy c a) (body c a l).
Proof.
  unfold body.
  apply raises_bind; [apply raises_open_pty|]. intros pt.
  apply raises_bind; [apply raises_pty_wire|]. intros w.
  apply raises_bind; [by apply raises_state|]. intros props.
  apply raises_launch.
Qed.

Lemma raises_with_ctx {A} c a enter exit_site (m : M A) :
  raises_only (as_policy c a) m ->
  raises_only (as_policy c a) (with_ctx c enter exit_site m).
Proof.
  intros Hm s e. unfold with_ctx. destruct (fails c enter).
  { by intros [= <-]. }
  specialize (Hm s). destruct (m s) as [[x|e'|] s1]; simpl in *;
    destruct (fails c exit_site); try done; try (by intros [= <-]).
  intros [= <-]. by apply Hm.
Qed.

Lemma call_action_exn c a act s e :
  (call_action c act s).1 = Some e -> as_policy c a e.
Proof.
  destruct act as [fd|fd w t|]; simpl.
  - destruct (fails c COsClose); [by intros [= <-]|done].
  - destruct (fails c CTcsetattr); [by intros [= <-]|].
    destruct (tattr s !! fd); [done | by intros [= <-]].
  - destruct (fails c CMonClose); [by intros [= <-]|done].
Qed.

Lemma call_all_exn c a l s e :
  (CExit.call_all (call_action c) l s).1.2 = Some e -> as_policy c a e.
Proof.
  revert s. induction l as [|act l IH]; intros s; [done|].
  rewrite call_all_cons.
  pose proof (call_action_exn c a act s) as Ha.
  destruct (call_action c act s) as [[e'|] s1]; simpl in *.
  - intros [= <-]. by apply Ha.
  - specialize (IH s1).
    destruct (CExit.call_all (call_action c) l s1) as [[d r] s2].
    simpl in *. done.
Qed.

Lemma raises_with_cexit {A} c a (m : M A) :
  raises_only (as_policy c a) m ->
  raises_only (as_policy c a) (with_cexit c m).
Proof.
  intros Hm s e. unfold with_cexit, CExit.exit_.
  specialize (Hm (set_ctexit CExit.init s)).
  destruct (m (set_ctexit CExit.init s)) as [r s1]. simpl in *.
  pose proof (call_all_exn c a (rev (CExit.pipe (ctexit s1))) s1) as Hx.
  destruct (CExit.call_all (call_action c) _ s1) as [[d [e'|]] s2];
    simpl in *; destruct r as [x|e0|]; simpl; try done;
    try (intros [= <-]; by apply Hx).
  intros [= <-]. by apply Hm.
Qed.

Lemma raises_run c a : raises_only (as_policy c a) (run c a).
Proof.
  unfold run. apply raises_bind; [apply raises_prologue|].
  intros l. apply raises_with_cexit.
  do 2 apply raises_with_ctx. apply raises_body.
Qed.

Lemma body_split c a l s :
  body c a l s = bind (before_policy c a l) (fun _ => after_policy c a l) s.
Proof.
  unfold body, before_policy, after_policy, launch, bind.
  destruct (open_pty c a s) as [[pt|e|] s2]; [|done|done].
  destruct (pty_wire c a l pt.1 pt.2 s2) as [[w|e|] s3]; [|done|done].
  destruct (read_properties c a l w.1.1 w.2 s3) as [[props|e|] s4];
    [|done|done].
  destruct (ext c CUnitInit s4) as [[[]|e|] s5]; [|done|done].
  destruct (monitor_setup c a w.1.2 s5) as [[sel|e|] s6]; [|done|done].
  destruct (request c CStartTransientUnit _ s6) as [[[]|e|] s7];
    [|done|done].
  destruct (a_wait a); [|done].
  by destruct (event_loop c l pt.1 (start_job c) (script c) sel s7)
    as [[by_|e|] s8].
Qed.

(** A call that returns normally without [raise_on_fail] raises the run
    failure with it, when the recorded status is not zero. *)
Lemma run_raises_when_set c a s :
  a_raise_on_fail a = true -> exec_main_status c <> 0 ->
  succeeds (run c (without_raise_on_fail a) s).1 = true ->
  (run c a s).1 = Raise (PystemdRunError (a_cmd a) (exec_main_status c)).
Proof.
  intros Hr Hz Hok. rewrite run_unfold in *.
  change (prologue c (without_raise_on_fail a)) with (prologue c a) in Hok.
  unfold bind at 1. unfold bind at 1 in Hok.
  destruct (prologue c a s) as [[l|e|] s1];
    [|by simpl in Hok|by simpl in Hok].
  unfold with_cexit, guarded, with_ctx in *.
  destruct (fails c CBusEnter).
  { simpl in Hok. by destruct (CExit.exit_ _ _ _ _) as [[called [e'|]] s'']. }
  destruct (fails c CManagerEnter).
  { simpl in Hok. destruct (fails c CBusExit); simpl in Hok;
      by destruct (CExit.exit_ _ _ _ _) as [[called [e'|]] s'']. }
  rewrite body_split. rewrite body_split in Hok.
  change (before_policy c (without_raise_on_fail a) l)
    with (before_policy c a l) in Hok.
  unfold bind at 1. unfold bind at 1 in Hok.
  destruct (before_policy c a l (set_ctexit CExit.init s1))
    as [[[]|e|] sb]; [| |by simpl in Hok].
  2: { destruct (fails c CManagerExit), (fails c CBusExit);
       simpl in Hok;
       by destruct (CExit.exit_ (call_action c) (ctexit sb) _ sb)
         as [[called [e'|]] s'']. }
  assert (Ha : after_policy c a l sb
               = (Raise (PystemdRunError (a_cmd a) (exec_main_status c)),
                  sb)).
  { unfold after_policy, failure_policy, bind. rewrite Hr. simpl.
    destruct (Z.eqb_spec (exec_main_status c) 0); [done|]. done. }
  rewrite Ha.
  assert (Ha' : after_policy c (without_raise_on_fail a) l sb
                = (if fails c CUnitLoad then Raise (External CUnitLoad)
                   else Ok (MkUnit (l_name l) (unit_path c)
                              (bus_factory c a)), sb)).
  { unfold after_policy, failure_policy, bind, ext. simpl.
    by destruct (fails c CUnitLoad). }
  rewrite Ha' in Hok. clear Ha Ha'.
  unfold CExit.exit_ in *.
  destruct (fails c CUnitLoad), (fails c CManagerExit), (fails c CBusExit);
    simpl in *;
    destruct (CExit.call_all (call_action c) (rev (CExit.pipe (ctexit sb)))
                sb) as [[called [e'|]] s'']; simpl in *; done.
Qed.

(** C9: lines 330-336 raise exactly when [raise_on_fail] is set and the
    recorded [ExecMainStatus] is not zero, and the error then carries
    the command of the call and that status.  On the whole call: a run
    failure comes from nowhere else (whenever [run] comes back with
    one, [raise_on_fail] was set, the status it carries is the recorded
    one and is not zero, the command is the caller's); and a call that
    would return normally without [raise_on_fail] raises the run
    failure with it when the recorded status is not zero. *)
Theorem run_failure_iff c a :
  (forall s e,
     (failure_policy c a s).1 = Raise e
     <-> a_raise_on_fail a = true /\ exec_main_status c <> 0
         /\ e = PystemdRunError (a_cmd a) (exec_main_status c))
  /\ (forall s cmd status,
        (run c a s).1 = Raise (PystemdRunError cmd status) ->
        a_raise_on_fail a = true /\ status <> 0
        /\ status = exec_main_status c /\ cmd = a_cmd a)
  /\ (forall s,
        a_raise_on_fail a = true -> exec_main_status c <> 0 ->
        succeeds (run c (without_raise_on_fail a) s).1 = true ->
        (run c a s).1
        = Raise (PystemdRunError (a_cmd a) (exec_main_status c))).
Proof.
  split; [|split].
  - intros s e. unfold failure_policy, raise, ret.
    destruct (a_raise_on_fail a); simpl.
    + destruct (Z.eqb_spec (exec_main_status c) 0) as [Hz|Hz]; simpl.
      * split; [done|]. by intros (_ & ? & _).
      * split; [by intros [= <-] | by intros (_ & _ & ->)].
    + split; [done | by intros [? _]].
  - intros s cmd status H. by apply (raises_run c a s _ H).
  - intros s. apply run_raises_when_set.
Qed.

(** The scenario of the specification: [wait] and [raise_on_fail] set,
    the exit status recorded as 1. *)
Lemma run_failure_iff_witness :
  (run (collaborators [] [exit_tick] 1) call_wait_raise
     (start_state ∅ ∅)).1 = Raise (PystemdRunError bin_true 1).
Proof.
  apply (proj2 (proj2 (run_failure_iff (collaborators [] [exit_tick] 1)
                         call_wait_raise)) (start_state ∅ ∅));
    vm_compute; (reflexivity || discriminate).
Defined.

(** ** [TERM] and the caller's [env] *)

Lemma open_pty_outcome c a s s' : (open_pty c a s).1 = (open_pty c a s').1.
Proof.
  unfold open_pty, ext, register, modify, bind, ret, raise.
  destruct (a_pty a); [|done].
  destruct (truthy (a_machine a)).
  - by destruct (fails c CMachineOpenPTY).
  - destruct (fails c COpenpty); [done|]. by destruct (fails c CTtyname).
Qed.

Lemma wire_stdin_ok c stdin pm selectors s :
  match stdin with Some fd => is_Some (tattr s !! fd) | None => True end ->
  exists sel s3,
    wire_stdin c stdin pm selectors s = (Ok sel, s3) /\ heap s3 = heap s.
Proof.
  unfold wire_stdin. destruct stdin as [fd|]; [|by eexists _, _].
  destruct pm; [|by eexists _, _]. intros [t Ht].
  unfold bind, tcgetattr, setraw. rewrite Ht. simpl. rewrite Ht. simpl.
  by eexists _, _.
Qed.

(** Line 215, then nothing that touches a dictionary. *)
Lemma wire_stdout_term c out master env selectors s term x :
  getenv_TERM c = Some term -> truthy (VStr term) = true ->
  dvar_loc env = Some x ->
  dict_at (heap (wire_stdout c (Some out) (Some master) env selectors s).2)
    x (KBytes "TERM")
  = Some (default (VBytes term) (dict_at (heap s) x (KBytes "TERM"))).
Proof.
  intros Hterm Ht Hx. unfold wire_stdout. rewrite Hterm, Ht.
  destruct env as [y|d]; [|done]. injection Hx as ->.
  unfold bind at 1. unfold set_term. simpl.
  match goal with
  | |- dict_at (heap (?m ?st).2) _ _ = _ =>
      assert (Hfr : frames is_winsz no_action no_key no_fd m)
        by (frames_auto; by eexists _, _);
      destruct (Hfr st) as [_ _ Hh _]
  end.
  rewrite Hh by (by intros []). simpl.
  rewrite dict_at_insert, decide_True by done.
  by rewrite lookup_insert_eq.
Qed.

Lemma bind_ret_state {A B} (m : M A) (f : A -> B) s :
  (bind m (fun r => ret (f r)) s).2 = (m s).2.
Proof. unfold bind, ret. by destruct (m s) as [[x|e|] s']. Qed.

Lemma pty_wire_term c a l master path out s term x :
  truthy path = true -> l_stdout l = Some out ->
  match l_stdin l with
  | Some fd => is_Some (tattr s !! fd)
  | None => True
  end ->
  getenv_TERM c = Some term -> truthy (VStr term) = true ->
  dvar_loc (l_env l) = Some x ->
  dict_at (heap (pty_wire c a l (Some master) path s).2) x (KBytes "TERM")
  = Some (default (VBytes term) (dict_at (heap s) x (KBytes "TERM"))).
Proof.
  intros Hpath Hout Hin Hterm Ht Hx. unfold pty_wire. rewrite Hpath.
  destruct (wire_stdin_ok c (l_stdin l) (Some master) [] s Hin)
    as (sel & s3 & Hw & Hh).
  rewrite (bind_run _ _ _ _ _ Hw), bind_ret_state, Hout.
  rewrite (wire_stdout_term c out master (l_env l) sel s3 term x);
    try done.
  unfold dict_at. by rewrite Hh.
Qed.

Lemma after_pty_term c a l master path out s term x :
  truthy path = true -> l_stdout l = Some out ->
  match l_stdin l with
  | Some fd => is_Some (tattr s !! fd)
  | None => True
  end ->
  getenv_TERM c = Some term -> truthy (VStr term) = true ->
  dvar_loc (l_env l) = Some x ->
  dict_at (heap (after_pty c a l (Some master, path) s).2) x
    (KBytes "TERM")
  = Some (default (VBytes term) (dict_at (heap s) x (KBytes "TERM"))).
Proof.
  intros Hpath Hout Hin Hterm Ht Hx.
  pose proof (pty_wire_term c a l master path out s term x Hpath Hout Hin
                Hterm Ht Hx) as Hw.
  unfold after_pty. simpl.
  destruct (pty_wire c a l (Some master) path s) as [[w|e|] s4] eqn:Hpw;
    simpl in Hw.
  - rewrite (bind_run _ _ _ _ _ Hpw). unfold read_properties.
    unfold bind at 1.
    destruct (frames_launch c a l (Some master) w.1.2
                (unit_properties_final c a l w.1.1 (dread w.2 s4)
                   (dread (l_extra l) s4)) s4) as [_ _ Hh _].
    by rewrite Hh by (by intros []).
  - by rewrite (bind_raise _ _ _ _ _ Hpw).
  - by rewrite (bind_blocked _ _ _ _ Hpw).
Qed.

(** C10: when the caller passes a non-empty [env], [TERM] is set to a
    non-empty value in the process environment, a pty path is active
    with a master and a stdout descriptor, and the call gets as far as
    line 215 (the prologue, the two [with] entries, the pty and the
    raw-mode switch do not raise), then, however the call goes on, the
    caller's own dictionary has the key [b"TERM"] afterwards: with the
    value it had, or with the bytes of [TERM] when it had none, and in
    that case the dictionary is not what it was. *)
Theorem TERM_forwarded_in_place c a s x d term master path out :
  a_env a = Some x -> heap s !! x = Some d -> size d <> 0%nat ->
  getenv_TERM c = Some term -> truthy (VStr term) = true ->
  succeeds (prologue c a s).1 = true ->
  fails c CBusEnter = false -> fails c CManagerEnter = false ->
  (open_pty c a s).1 = Ok (Some master, path) -> truthy path = true ->
  get_fno (a_stdout a) = inr (Some out) ->
  match get_fno (a_stdin a) with
  | inr (Some fd) => is_Some (tattr s !! fd)
  | _ => True
  end ->
  dict_at (heap (run c a s).2) x (KBytes "TERM")
  = Some (default (VBytes term) (d !! KBytes "TERM"))
  /\ (d !! KBytes "TERM" = None -> heap (run c a s).2 !! x <> Some d).
Proof.
  intros Henv Hd Hsize Hterm Ht Hok Hb1 Hb2 Hopen Hpath Hout Hin.
  assert (Hmain : dict_at (heap (run c a s).2) x (KBytes "TERM")
                  = Some (default (VBytes term) (d !! KBytes "TERM"))).
  2: { split; [done|]. intros Hnone Heq. unfold dict_at in Hmain.
       rewrite Heq in Hmain. simpl in Hmain. rewrite Hnone in Hmain.
       done. }
  destruct (prologue c a s) as [[l'|e|] s1'] eqn:Hpro; try done.
  clear Hok.
  apply prologue_ok in Hpro as Hps. destruct Hps.
  assert (Hlenv : l_env l' = ByRef x).
  { rewrite ps_env0, Henv. unfold or_empty. rewrite Hd.
    by destruct (decide (size d = 0%nat)). }
  assert (Hd1 : dict_at (heap s1') x (KBytes "TERM") = d !! KBytes "TERM").
  { pose proof (frames_prologue c a s) as [_ _ Hh _]. rewrite Hpro in Hh.
    simpl in Hh. rewrite Hh.
    - unfold dict_at. by rewrite Hd.
    - unfold is_command_key, command_keys.
      rewrite !elem_of_cons, elem_of_nil. by intros [|[|[|[|[|]]]]]. }
  assert (Hg : dict_at (heap (guarded c a l'
                                (set_ctexit CExit.init s1')).2) x
                 (KBytes "TERM")
               = Some (default (VBytes term) (d !! KBytes "TERM"))).
  { unfold guarded. rewrite !with_ctx_entered by done.
    change (body c a l') with (bind (open_pty c a) (after_pty c a l')).
    pose proof (open_pty_outcome c a (set_ctexit CExit.init s1') s) as Ho.
    pose proof (open_pty_state c a (set_ctexit CExit.init s1')) as Hs2.
    rewrite Hopen in Ho.
    destruct (open_pty c a (set_ctexit CExit.init s1')) as [r s2] eqn:Hop.
    simpl in Ho, Hs2. subst r s2.
    rewrite (bind_run _ _ _ _ _ Hop).
    assert (Hout' : l_stdout l' = Some out)
      by (rewrite ps_stdout0 in Hout; by injection Hout).
    assert (Hin' : match l_stdin l' with
                   | Some fd =>
                       is_Some (tattr (with_registered (opened_close c a)
                                         (set_ctexit CExit.init s1'))
                                  !! fd)
                   | None => True
                   end).
    { simpl. rewrite ps_tattr0. rewrite ps_stdin0 in Hin.
      by destruct (l_stdin l'). }
    assert (Hx' : dvar_loc (l_env l') = Some x) by (by rewrite Hlenv).
    rewrite (after_pty_term c a l' master path out _ term x Hpath Hout'
               Hin' Hterm Ht Hx').
    simpl. by rewrite Hd1. }
  destruct (run_cases c a s) as [e s1 Hpro'|l s1 sb Hpro' Hg'
    |l s1 r sb called e s' Hpro' Hg' Hr Hx]; simpl.
  - congruence.
  - assert (l = l' /\ s1 = s1') as [-> ->] by (split; congruence).
    by rewrite Hg' in Hg.
  - assert (l = l' /\ s1 = s1') as [-> ->] by (split; congruence).
    pose proof (guarded_summary c a l' (set_ctexit CExit.init s1')) as Hb.
    rewrite Hg' in Hb, Hg. simpl in Hb, Hg.
    destruct (run_exit_log _ _ _ _ _ _ _ _ _ _ Hb Hx)
      as (evs & returned & _ & _ & Hh & _).
    unfold dict_at in *. by rewrite Hh.
Qed.

Lemma TERM_forwarded_in_place_witness :
  dict_at (heap (run (quiet []) call_env_pty (start_state heap_env ∅)).2)
    2%positive (KBytes "TERM")
  = Some (default (VBytes "xterm")
            (({[ KStr "LANG" := VStr "C" ]} : dict) !! KBytes "TERM")).
Proof.
  apply (proj1 (TERM_forwarded_in_place (quiet []) call_env_pty
                  (start_state heap_env ∅) 2%positive
                  {[ KStr "LANG" := VStr "C" ]} "xterm" 5
                  (VBytes "/dev/pts/3") 1
                  eq_refl eq_refl ltac:(vm_compute; discriminate)
                  eq_refl eq_refl ltac:(vm_compute; reflexivity)
                  eq_refl eq_refl eq_refl eq_refl eq_refl I)).
Defined.

Lemma returns_ext c site : returns (ext c site).
Proof. intros s. unfold ext. by destruct (fails c site). Qed.

Lemma returns_open_pty c a : returns (open_pty c a).
Proof.
  unfold open_pty. destruct (a_pty a); [|done].
  destruct (truthy (a_machine a));
    repeat (apply returns_bind; [first [apply returns_ext | done]|intros ?]);
    done.
Qed.

Lemma returns_wire_stdin c stdin pm selectors :
  returns (wire_stdin c stdin pm selectors).
Proof.
  unfold wire_stdin. destruct stdin as [fd|]; [|done]. destruct pm; [|done].
  apply returns_bind.
  { intros s. unfold tcgetattr. by destruct (tattr s !! fd). }
  intros attrs. apply returns_bind.
  { intros s. unfold setraw. by destruct (tattr s !! fd). }
  intros _. by apply returns_bind.
Qed.

Lemma returns_wire_stdout c stdout pm env selectors :
  returns (wire_stdout c stdout pm env selectors).
Proof.
  unfold wire_stdout. destruct stdout; [|done]. destruct pm; [|done].
  apply returns_bind.
  { destruct (getenv_TERM c) as [term|]; [|done].
    destruct (truthy (VStr term)); [|done].
    intros s. unfold set_term. by destruct env. }
  intros env'.
  repeat (apply returns_bind; [first [apply returns_ext | done]|intros ?]).
  done.
Qed.

Lemma returns_pty_wire c a l pm path : returns (pty_wire c a l pm path).
Proof.
  unfold pty_wire. destruct (truthy path); [|done].
  apply returns_bind; [apply returns_wire_stdin|]. intros sel.
  apply returns_bind; [apply returns_wire_stdout|]. done.
Qed.

Lemma launch_unfold c a l pm selectors props :
  launch c a l pm selectors props
  = (ext c CUnitInit ;;;
     selectors' <-- monitor_setup c a selectors ;;
     request c CStartTransientUnit
       (EvStartTransientUnit (l_name l) "fail" props) ;;;
     wait_and_return c a l pm selectors').
Proof. reflexivity. Qed.

(** Lines 263-284 on the record: at most the [BecomeMonitor] request
    and the close of the monitor connection, and neither without
    [wait]. *)
Lemma monitor_setup_account c a selectors s :
  exists pre A3,
    log (monitor_setup c a selectors s).2 = log s ++ pre
    /\ CExit.pipe (ctexit (monitor_setup c a selectors s).2)
       = CExit.pipe (ctexit s) ++ A3
    /\ Forall is_become_monitor pre /\ Forall is_mon_close A3
    /\ (a_wait a = false -> pre = [] /\ A3 = [])
    /\ (monitor_setup c a selectors s).1 <> Blocked.
Proof.
  unfold monitor_setup. destruct (a_wait a); simpl.
  2: { exists [], []. by rewrite !app_nil_r. }
  unfold bind, ext, register, request, emit, modify, bind, ext.
  destruct (fails c CMonOpen); simpl.
  { exists [], []. by rewrite !app_nil_r. }
  exists [EvBecomeMonitor (mstr (unit_path c))], [ActMonClose].
  destruct (fails c CBecomeMonitor); simpl;
    (split; [done|]); (split; [done|]);
    (split; [constructor; [by eexists|done]|]);
    (split; [by constructor|]); done.
Qed.

(** Lines 291-340 on the record: writes only, and none without
    [wait]. *)
Lemma wait_and_return_account c a l pm selectors s :
  let r := wait_and_return c a l pm selectors s in
  exists writes,
    log r.2 = log s ++ writes
    /\ CExit.pipe (ctexit r.2) = CExit.pipe (ctexit s)
    /\ Forall is_write writes
    /\ (a_wait a = false -> writes = [])
    /\ (r.1 = Blocked -> a_wait a = true)
    /\ (forall u, r.1 = Ok u ->
          u = MkUnit (l_name l) (unit_path c) (bus_factory c a)).
Proof.
  simpl. unfold wait_and_return.
  assert (Hf : frames is_write no_action no_key no_fd
                 (wait_and_return c a l pm selectors)).
  { unfold wait_and_return. frames_auto;
      try apply frames_failure_policy;
      try (apply frames_event_loop; intros; by eexists _, _). }
  specialize (Hf s). unfold wait_and_return in Hf.
  pose proof (pipe_eq_step _ _ _ _ _ Hf) as Hp.
  destruct Hf as [[writes [Hl Hw]] _ _ _].
  destruct (a_wait a) eqn:Hwait.
  - exists writes. do 3 (split; [done|]). split; [done|]. split; [done|].
    intros u. unfold bind.
    destruct (event_loop _ _ _ _ _ _ _) as [[by_|e|] s1]; simpl; try done.
    destruct (failure_policy c a s1) as [[[]|e|] s2]; simpl; try done.
    unfold ext. destruct (fails c CUnitLoad); simpl; try done.
    by intros [= <-].
  - exists []. rewrite app_nil_r.
    assert (Hn : frames no_event no_action no_key no_fd
                   (ret tt ;;; failure_policy c a ;;; ext c CUnitLoad ;;;
                    ret (MkUnit (l_name l) (unit_path c) (bus_factory c a)))).
    { frames_auto. apply frames_failure_policy. }
    specialize (Hn s). apply log_eq_step in Hn.
    split; [done|]. split; [done|]. split; [done|]. split; [done|].
    unfold bind, ret. simpl.
    destruct (failure_policy c a s) as [[[]|e|] s2] eqn:Hfp; simpl.
    + unfold ext. destruct (fails c CUnitLoad); simpl; split; try done.
      by intros u [= <-].
    + done.
    + exfalso. unfold failure_policy in Hfp.
      destruct (a_raise_on_fail a); [|done].
      by destruct (truthy (VInt (exec_main_status c))).
Qed.

Lemma bind_ext {B} c site (k : unit -> M B) s :
  bind (ext c site) k s
  = if fails c site then (Raise (External site), s) else k tt s.
Proof. unfold bind, ext. by destruct (fails c site). Qed.

Lemma bind_request {B} c site ev (k : unit -> M B) s :
  bind (request c site ev) k s
  = if fails c site then (Raise (External site), add_log ev s)
    else k tt (add_log ev s).
Proof.
  unfold request, bind, emit, modify, ext. simpl.
  by destruct (fails c site).
Qed.

(** Lines 262-340 on the record. *)
Lemma launch_account c a l pm selectors props s :
  let r := launch c a l pm selectors props s in
  exists pre post A3,
    log r.2 = log s ++ pre ++ post
    /\ CExit.pipe (ctexit r.2) = CExit.pipe (ctexit s) ++ A3
    /\ Forall is_become_monitor pre /\ Forall is_mon_close A3
    /\ (a_wait a = false -> pre = [] /\ A3 = [])
    /\ ((post = [] /\ exists e, r.1 = Raise e)
        \/ (fails c CUnitInit = false
            /\ exists writes,
                 post = EvStartTransientUnit (l_name l) "fail" props :: writes
                 /\ Forall is_write writes
                 /\ (a_wait a = false -> writes = [])
                 /\ (r.1 = Blocked -> a_wait a = true)
                 /\ (forall u, r.1 = Ok u ->
                       u = MkUnit (l_name l) (unit_path c)
                             (bus_factory c a)))).
Proof.
  simpl. rewrite launch_unfold, bind_ext.
  destruct (fails c CUnitInit) eqn:Hu; simpl.
  { exists [], [], []. rewrite !app_nil_r. do 4 (split; [done|]).
    split; [done|]. left. split; [done|]. by eexists. }
  destruct (monitor_setup_account c a selectors s)
    as (pre & A3 & Hl & Hp & Fpre & FA3 & Hnw & Hnb).
  destruct (monitor_setup c a selectors s) as [[sel'|e|] s6] eqn:Hms;
    simpl in *; [|clear Hnb|done].
  2: { rewrite (bind_raise _ _ _ _ _ Hms). simpl.
       exists pre, [], A3. rewrite app_nil_r. do 5 (split; [done|]).
       left. split; [done|]. by eexists. }
  rewrite (bind_run _ _ _ _ _ Hms), bind_request.
  destruct (fails c CStartTransientUnit) eqn:Hst; simpl.
  { exists pre, [EvStartTransientUnit (l_name l) "fail" props], A3.
    rewrite Hl, <- app_assoc. do 5 (split; [done|]).
    right. split; [done|]. exists []. by repeat split. }
  destruct (wait_and_return_account c a l pm sel'
              (add_log (EvStartTransientUnit (l_name l) "fail" props) s6))
    as (writes & Hlw & Hpw & Fw & Hnww & Hb & Hok).
  simpl in *.
  exists pre, (EvStartTransientUnit (l_name l) "fail" props :: writes), A3.
  rewrite Hlw, Hl, Hpw, Hp, <- !app_assoc. simpl.
  do 5 (split; [done|]). right. split; [done|]. exists writes.
  by repeat split.
Qed.

Lemma raw_switch_account c stdin s s3 :
  raw_switch c stdin s s3 ->
  exists wiring A2,
    log s3 = log s ++ wiring
    /\ CExit.pipe (ctexit s3) = CExit.pipe (ctexit s) ++ A2
    /\ Forall wiring_event wiring /\ Forall is_tcsetattr A2.
Proof.
  intros [->|(fd & t & _ & _ & ->)].
  - exists [], []. by rewrite !app_nil_r.
  - exists [EvSetraw fd], [ActTcsetattr fd TCSAFLUSH t]. simpl.
    do 2 (split; [done|]). split; constructor; try done.
    by eexists _, _, _.
Qed.

(** Lines 191-234 on the record. *)
Lemma pty_wire_account c a l pm path s :
  exists wiring A2,
    log (pty_wire c a l pm path s).2 = log s ++ wiring
    /\ CExit.pipe (ctexit (pty_wire c a l pm path s).2)
       = CExit.pipe (ctexit s) ++ A2
    /\ Forall wiring_event wiring /\ Forall is_tcsetattr A2.
Proof.
  destruct (pty_wire_rel c a l pm path s) as (s3 & H23 & H34).
  destruct (raw_switch_account _ _ _ _ H23) as (w1 & A2 & Hl & Hp & Fw & FA).
  pose proof (pipe_eq_step _ _ _ _ _ H34) as Hp4.
  destruct H34 as [[w2 [Hl4 Fw2]] _ _ _].
  exists (w1 ++ w2), A2. rewrite Hl4, Hl, Hp4, Hp, <- app_assoc.
  do 2 (split; [done|]). split; [|done].
  apply Forall_app. split; [done|].
  eapply Forall_impl; [exact Fw2|]. by intros ev (fd & ws & ->).
Qed.

Lemma bind_read_properties {B} c a l up env (k : dict -> M B) s :
  bind (read_properties c a l up env) k s
  = k (unit_properties_final c a l up (dread env s) (dread (l_extra l) s)) s.
Proof. reflexivity. Qed.

Lemma body_unfold c a l :
  body c a l = bind (open_pty c a) (after_pty c a l).
Proof. reflexivity. Qed.

(** Lines 182-340 on the record. *)
Lemma body_account_ok c a l s :
  exists evs acts,
    log (body c a l s).2 = log s ++ evs
    /\ CExit.pipe (ctexit (body c a l s).2) = CExit.pipe (ctexit s) ++ acts
    /\ body_account c a l s (body c a l s).1 evs acts.
Proof.
  rewrite body_unfold.
  pose proof (open_pty_state c a s) as H12.
  pose proof (returns_open_pty c a s) as R12.
  destruct (open_pty c a s) as [[pt|e|] s2] eqn:Ho; simpl in *; [| |done].
  2: { rewrite (bind_raise _ _ _ _ _ Ho). subst s2. simpl.
       exists [], (opened_close c a). rewrite app_nil_r.
       do 2 (split; [done|]).
       pose proof (NotRequested c a l s [] [] [] [] e) as H.
       simpl in H. rewrite app_nil_r in H. by apply H. }
  rewrite (bind_run _ _ _ _ _ Ho). unfold after_pty.
  destruct (pty_wire_account c a l pt.1 pt.2 s2)
    as (wiring & A2 & Hl & Hp & Fw & FA).
  pose proof (returns_pty_wire c a l pt.1 pt.2 s2) as R23.
  destruct (pty_wire c a l pt.1 pt.2 s2) as [[w|e|] s3] eqn:Hw;
    simpl in *; [| |done].
  2: { rewrite (bind_raise _ _ _ _ _ Hw). simpl.
       exists wiring, (opened_close c a ++ A2).
       rewrite Hl, Hp, H12. simpl. rewrite <- app_assoc.
       do 2 (split; [done|]).
       pose proof (NotRequested c a l s wiring [] A2 [] e) as H.
       rewrite !app_nil_r in H. by apply H. }
  rewrite (bind_run _ _ _ _ _ Hw), bind_read_properties.
  fold (request_props c a l w s3).
  destruct (launch_account c a l pt.1 w.1.2 (request_props c a l w s3) s3)
    as (pre & post & A3 & Hl4 & Hp4 & Fpre & FA3 & Hnw & Hpost).
  simpl in *.
  exists (wiring ++ pre ++ post), (opened_close c a ++ A2 ++ A3).
  rewrite Hl4, Hl, Hp4, Hp, H12. simpl. rewrite <- !app_assoc.
  do 2 (split; [done|]).
  destruct Hpost as [[-> [e ->]]|(Hu & writes & -> & Fwr & Hnww & Hb & Hok)].
  - rewrite app_nil_r. by apply NotRequested.
  - eapply Requested; try done.
    intros Hwait. destruct (Hnw Hwait) as [-> ->]. by rewrite Hnww.
Qed.

Lemma call_all_none {W A E} (call : A -> W -> option E * W) l w :
  (CExit.call_all call l w).1.2 = None ->
  (CExit.call_all call l w).1.1 = l.
Proof.
  revert w. induction l as [|x l IH]; intros w; [done|].
  rewrite call_all_cons. destruct (call x w) as [[e|] w']; [done|].
  specialize (IH w'). destruct (CExit.call_all call l w') as [[d r] w''].
  simpl in *. intros Hr. by rewrite IH.
Qed.

(** The two [with] contexts around the body: either one of them is not
    entered and the body does not run, or the body runs and an
    [__exit__] may replace how it ended. *)
Lemma guarded_cases c a l s :
  ((fails c CBusEnter = true \/ fails c CManagerEnter = true)
   /\ (guarded c a l s).2 = s /\ exists e, (guarded c a l s).1 = Raise e)
  \/ (fails c CBusEnter = false /\ fails c CManagerEnter = false
      /\ (guarded c a l s).2 = (body c a l s).2
      /\ ((guarded c a l s).1 = (body c a l s).1
          \/ ((body c a l s).1 <> Blocked
              /\ exists e, (guarded c a l s).1 = Raise e))).
Proof.
  unfold guarded, with_ctx.
  destruct (fails c CBusEnter) eqn:Hb.
  { left. split; [by left|]. split; [done|]. by eexists. }
  destruct (fails c CManagerEnter) eqn:Hm.
  { left. split; [by right|].
    destruct (fails c CBusExit); (split; [done|]); by eexists. }
  right. do 2 (split; [done|]).
  destruct (body c a l s) as [[u|e|] sb]; simpl;
    destruct (fails c CManagerExit); simpl;
    destruct (fails c CBusExit); simpl;
    (split; [done|]); try (by left); right; (split; [done|]); by eexists.
Qed.

(** A whole call on the record: it ends in the prologue, or one of the
    two contexts is not entered, or the body runs, and the cleanups that
    return are a leading part of what was registered, last first. *)
Lemma run_account c a s :
  (exists e s1,
     prologue c a s = (Raise e, s1) /\ run c a s = (Raise e, s1)
     /\ log s1 = log s)
  \/ (exists l s1 e,
        prologue c a s = (Ok l, s1)
        /\ (fails c CBusEnter = true \/ fails c CManagerEnter = true)
        /\ run c a s = (Raise e, set_ctexit CExit.init s1)
        /\ log s1 = log s)
  \/ (exists l s1 evs acts returned rest,
        prologue c a s = (Ok l, s1)
        /\ fails c CBusEnter = false /\ fails c CManagerEnter = false
        /\ body_account c a l (set_ctexit CExit.init s1)
             (body c a l (set_ctexit CExit.init s1)).1 evs acts
        /\ trace (run c a) s = evs ++ map cleanup_of returned
        /\ rev acts = returned ++ rest
        /\ (rest = [] \/ (run c a s).1 = Blocked
            \/ exists e, (run c a s).1 = Raise e)
        /\ ((body c a l (set_ctexit CExit.init s1)).1 = Blocked ->
            (run c a s).1 = Blocked /\ returned = [])
        /\ ((run c a s).1 = (body c a l (set_ctexit CExit.init s1)).1
            \/ ((body c a l (set_ctexit CExit.init s1)).1 <> Blocked
                /\ exists e, (run c a s).1 = Raise e))).
Proof.
  unfold trace.
  destruct (run_cases c a s) as [e s1 Hpro|l s1 sb Hpro Hg
    |l s1 r sb called e s' Hpro Hg Hr Hx].
  - left. exists e, s1. do 2 (split; [done|]).
    pose proof (frames_prologue c a s) as Hs. rewrite Hpro in Hs.
    by apply log_eq_step in Hs.
  - right. right.
    pose proof (frames_prologue c a s) as Hs. rewrite Hpro in Hs.
    apply log_eq_step in Hs. simpl in Hs.
    destruct (guarded_cases c a l (set_ctexit CExit.init s1))
      as [(_ & _ & e & He)|(Hb & Hm & Hst & Hout)];
      rewrite Hg in *; simpl in *; [done|].
    destruct (body_account_ok c a l (set_ctexit CExit.init s1))
      as (evs & acts & Hl & Hp & Hacc).
    rewrite <- Hst in Hl. simpl in Hl.
    exists l, s1, evs, acts, [], (rev acts). simpl.
    do 4 (split; [done|]). rewrite app_nil_r.
    split; [apply drop_log; congruence|]. split; [done|].
    split; [right; by left|]. split; [done|].
    destruct Hout as [<-|[_ [e He]]]; [by left | done].
  - pose proof (frames_prologue c a s) as Hs. rewrite Hpro in Hs.
    apply log_eq_step in Hs. simpl in Hs.
    unfold CExit.exit_ in Hx.
    destruct (call_all_state c (rev (CExit.pipe (ctexit sb))) sb)
      as (returned & Hcases & Hs').
    destruct (call_all_prefix (call_action c)
                (rev (CExit.pipe (ctexit sb))) sb) as [rest0 Hrest].
    rewrite Hx in Hcases, Hs', Hrest. simpl in *.
    destruct (guarded_cases c a l (set_ctexit CExit.init s1))
      as [(Hne & Hst & e0 & He0)|(Hb & Hm & Hst & Hout)];
      rewrite Hg in *; simpl in *.
    + right. left. subst sb r. simpl in *.
      destruct called as [|x called]; [|by destruct returned].
      destruct Hcases as [->|(act & Hc & _)]; [|by destruct returned].
      simpl in *. subst s'.
      unfold CExit.call_all in Hx. injection Hx as <-.
      exists l, s1, e0. do 2 (split; [done|]). split; [|done].
      f_equal. destruct s1 as [h t lg g]. unfold set_ctexit. simpl.
      by rewrite app_nil_r.
    + right. right.
      destruct (body_account_ok c a l (set_ctexit CExit.init s1))
        as (evs & acts & Hl & Hp & Hacc).
      rewrite <- Hst in Hl, Hp. simpl in Hl, Hp.
      exists l, s1, evs, acts, returned.
      assert (Hpre : exists rest,
                rev acts = returned ++ rest
                /\ (rest = [] \/ exists e', e = Some e')).
      { rewrite Hp in Hrest, Hx.
        destruct Hcases as [->|(act & -> & He)].
        - destruct e as [e'|].
          + exists rest0. split; [done|]. right. by eexists.
          + exists []. split; [|by left]. rewrite app_nil_r.
            pose proof (call_all_none (call_action c) (rev acts) sb) as Hn.
            rewrite Hx in Hn. simpl in Hn. symmetry. by apply Hn.
        - exists (act :: rest0). split; [by rewrite Hrest, <- app_assoc|].
          right. destruct e as [e'|]; [by eexists | done]. }
      destruct Hpre as (rest & Hpre & Hrst). exists rest.
      do 4 (split; [done|]).
      split.
      { subst s'. simpl. rewrite Hl, Hs, <- app_assoc.
        apply drop_app_length. }
      split; [done|]. split.
      { destruct Hrst as [->|[e' ->]]; [by left|]. right. right.
        by eexists. }
      split.
      { intros Hblk. destruct Hout as [Heq|[Hnb _]]; [|done].
        rewrite Hblk in Heq. done. }
      destruct e as [e'|].
      * right. split; [|by eexists].
        destruct Hout as [<-|[Hnb _]]; done.
      * destruct Hout as [<-|[Hnb [e' ->]]]; [by left|].
        right. split; [done|]. by eexists.
Qed.

Lemma prologue_name c a s l s1 :
  prologue c a s = (Ok l, s1) -> l_name l = unit_name c a.
Proof.
  unfold prologue. intros H.
  repeat (apply bind_ok in H as (? & ? & _ & H)).
  by injection H as <- <-.
Qed.

Lemma requests_app e1 e2 : requests (e1 ++ e2) = requests e1 ++ requests e2.
Proof. unfold requests. apply omap_app. Qed.

Lemma requests_none (P : event -> Prop) evs :
  (forall ev, P ev -> request_of ev = None) -> Forall P evs ->
  requests evs = [].
Proof.
  intros HP. induction 1 as [|ev evs Hev _ IH]; [done|].
  unfold requests in *. simpl. by rewrite (HP ev Hev).
Qed.

Lemma requests_request n m p evs :
  requests (EvStartTransientUnit n m p :: evs) = (n, m, p) :: requests evs.
Proof. reflexivity. Qed.

Lemma requests_cleanups acts : requests (map cleanup_of acts) = [].
Proof. induction acts as [|[] acts IH]; simpl; done. Qed.

Lemma requests_wiring evs : Forall wiring_event evs -> requests evs = [].
Proof. apply requests_none. by intros []. Qed.

Lemma requests_become_monitor evs :
  Forall is_become_monitor evs -> requests evs = [].
Proof. apply requests_none. by intros ev [m ->]. Qed.

Lemma requests_writes evs : Forall is_write evs -> requests evs = [].
Proof. apply requests_none. by intros ev (fd & data & ->). Qed.

Lemma submitted_requests evs : submitted evs = map snd (requests evs).
Proof.
  induction evs as [|ev evs IH]; [done|].
  unfold submitted, requests in *. destruct ev; cbn; rewrite ?IH; done.
Qed.

(** The requests of the body: none, or the one of line 287. *)
Lemma account_requests c a l s r evs acts :
  body_account c a l s r evs acts ->
  (requests evs = [] /\ exists e, r = Raise e)
  \/ exists pt s2 w s3,
       open_pty c a s = (Ok pt, s2)
       /\ pty_wire c a l pt.1 pt.2 s2 = (Ok w, s3)
       /\ requests evs = [(l_name l, "fail", request_props c a l w s3)].
Proof.
  intros [wiring pre A2 A3 e Fw Fp _ _ _
         |pt s2 w s3 wiring pre writes A2 A3 r' Ho Hw _ Fw Fp Fwr _ _ _ _ _].
  - left. rewrite requests_app, requests_wiring, requests_become_monitor
      by done. split; [done|]. by eexists.
  - right. exists pt, s2, w, s3. do 2 (split; [done|]).
    rewrite requests_app, requests_wiring by done.
    rewrite requests_app, requests_become_monitor by done.
    by rewrite requests_request, requests_writes.
Qed.

(** The requests of a call, with the state they were built in. *)
Lemma run_requests c a s :
  (requests (trace (run c a) s) = [] /\ exists e, (run c a s).1 = Raise e)
  \/ exists l s1 pt s2 w s3,
       prologue c a s = (Ok l, s1)
       /\ open_pty c a (set_ctexit CExit.init s1) = (Ok pt, s2)
       /\ pty_wire c a l pt.1 pt.2 s2 = (Ok w, s3)
       /\ requests (trace (run c a) s)
          = [(unit_name c a, "fail", request_props c a l w s3)].
Proof.
  destruct (run_account c a s)
    as [(e & s1 & Hpro & Hrun & Hl)|[(l & s1 & e & Hpro & _ & Hrun & Hl)
       |(l & s1 & evs & acts & returned & rest & Hpro & _ & _ & Hacc & Htr
         & _ & _ & _ & Hout)]].
  - left. unfold trace. rewrite Hrun. simpl.
    rewrite (drop_log _ _ []) by (by rewrite app_nil_r).
    split; [done|]. by eexists.
  - left. unfold trace. rewrite Hrun. simpl.
    rewrite (drop_log _ _ []) by (by rewrite app_nil_r).
    split; [done|]. by eexists.
  - rewrite Htr, requests_app, requests_cleanups, app_nil_r.
    destruct (account_requests _ _ _ _ _ _ _ Hacc)
      as [[Hn [e He]]|(pt & s2 & w & s3 & Ho & Hw & Hr)].
    + left. split; [done|].
      destruct Hout as [->|[_ Hex]]; [by eexists | done].
    + right. exists l, s1, pt, s2, w, s3. do 3 (split; [done|]).
      by rewrite Hr, (prologue_name _ _ _ _ _ Hpro).
Qed.

(** X1: a call sends at most one [StartTransientUnit] request; when it
    sends one, the mode is [b"fail"] and the name is
    [x2char_star(name or "pystemd<uuid>.service")] (lines 162 and
    287-289), whatever the other arguments are and however the call
    ends. *)
Theorem one_request c a s :
  requests (trace (run c a) s) = []
  \/ exists props,
       requests (trace (run c a) s) = [(unit_name c a, "fail", props)].
Proof.
  destruct (run_requests c a s)
    as [[Hn _]|(l & s1 & pt & s2 & w & s3 & _ & _ & _ & Hr)].
  - by left.
  - right. by eexists.
Qed.

(** X2: when [run] returns, the unit it returns has the name of line
    162, the path of the [Unit] object and [bus_factory] as its
    [bus_context] (lines 262, 338-340), and exactly one
    [StartTransientUnit] request was sent, under that very name. *)
Theorem returned_unit c a s u :
  (run c a s).1 = Ok u ->
  u = MkUnit (unit_name c a) (unit_path c) (bus_factory c a)
  /\ exists props,
       requests (trace (run c a) s) = [(u_name u, "fail", props)].
Proof.
  intros Hok.
  destruct (run_account c a s)
    as [(e & s1 & Hpro & Hrun & Hl)|[(l & s1 & e & Hpro & _ & Hrun & Hl)
       |(l & s1 & evs & acts & returned & rest & Hpro & _ & _ & Hacc & Htr
         & _ & _ & _ & Hout)]].
  - by rewrite Hrun in Hok.
  - by rewrite Hrun in Hok.
  - destruct Hout as [Heq|[_ [e He]]]; [|by rewrite He in Hok].
    rewrite Hok in Heq. rewrite <- Heq in Hacc.
    assert (Hu : u = MkUnit (unit_name c a) (unit_path c) (bus_factory c a)).
    { rewrite <- (prologue_name _ _ _ _ _ Hpro).
      inversion Hacc as [|pt s2 w s3 wiring pre writes A2 A3 r' Ho Hw _ Fw
                           Fp Fwr _ _ _ _ Hu]; subst.
      by apply Hu. }
    split; [done|].
    destruct (run_requests c a s)
      as [[_ [e He]]|(l' & s1' & pt & s2 & w & s3 & _ & _ & _ & Hr)].
    + by rewrite He in Hok.
    + rewrite Hr, Hu. simpl. by eexists.
Qed.

Lemma returned_unit_witness :
  exists props,
    requests (trace (run (quiet []) plain) (start_state ∅ ∅))
    = [(u_name (MkUnit "pystemd0123456789abcdef0123456789abcdef.service"
                  "/org/freedesktop/systemd1/unit/u" (DBus false)),
        "fail", props)].
Proof.
  apply (proj2 (returned_unit (quiet []) plain (start_state ∅ ∅)
                  (MkUnit "pystemd0123456789abcdef0123456789abcdef.service"
                     "/org/freedesktop/systemd1/unit/u" (DBus false))
                  ltac:(vm_compute; reflexivity))).
Defined.

Lemma not_cleanup_wiring evs :
  Forall wiring_event evs -> Forall (fun ev => ~ cleanup_event ev) evs.
Proof.
  intros H. eapply Forall_impl; [exact H|]. intros ev Hev [[] ->]; done.
Qed.

Lemma not_cleanup_become_monitor evs :
  Forall is_become_monitor evs -> Forall (fun ev => ~ cleanup_event ev) evs.
Proof.
  intros H. eapply Forall_impl; [exact H|]. intros ev [m ->] [[] H']; done.
Qed.

Lemma not_cleanup_writes evs :
  Forall is_write evs -> Forall (fun ev => ~ cleanup_event ev) evs.
Proof.
  intros H. eapply Forall_impl; [exact H|].
  intros ev (fd & d & ->) [[] H']; done.
Qed.

(** X3: a call that never returns is a call with [wait] set that is
    waiting in the loop of lines 291-328: its one request was sent, and
    none of the registered cleanups has run (no descriptor closed, no
    terminal attributes restored, the monitor connection still
    open). *)
Theorem blocked_call c a s :
  (run c a s).1 = Blocked ->
  a_wait a = true
  /\ (exists props,
        requests (trace (run c a) s) = [(unit_name c a, "fail", props)])
  /\ Forall (fun ev => ~ cleanup_event ev) (trace (run c a) s).
Proof.
  intros Hblk.
  destruct (run_account c a s)
    as [(e & s1 & Hpro & Hrun & Hl)|[(l & s1 & e & Hpro & _ & Hrun & Hl)
       |(l & s1 & evs & acts & returned & rest & Hpro & _ & _ & Hacc & Htr
         & _ & _ & Hb & Hout)]].
  - by rewrite Hrun in Hblk.
  - by rewrite Hrun in Hblk.
  - destruct Hout as [Heq|[_ [e He]]]; [|by rewrite He in Hblk].
    rewrite Hblk in Heq. symmetry in Heq.
    destruct (Hb Heq) as [_ ->]. simpl in Htr. rewrite app_nil_r in Htr.
    rewrite Heq in Hacc.
    inversion Hacc as [|pt s2 w s3 wiring pre writes A2 A3 r' Ho Hw _ Fw
                         Fp Fwr _ _ _ Hwait Hu]; subst.
    split; [by apply Hwait|]. split.
    + destruct (run_requests c a s)
        as [[_ [e He]]|(l' & s1' & pt' & s2' & w' & s3' & _ & _ & _ & Hr)].
      * by rewrite He in Hblk.
      * by eexists.
    + rewrite Htr. apply Forall_app. split; [by apply not_cleanup_wiring|].
      apply Forall_app. split; [by apply not_cleanup_become_monitor|].
      constructor; [by intros [[] H]|]. by apply not_cleanup_writes.
Qed.

Lemma blocked_call_witness :
  a_wait call_wait_raise = true
  /\ Forall (fun ev => ~ cleanup_event ev)
       (trace (run (quiet []) call_wait_raise) (start_state ∅ ∅)).
Proof.
  pose proof (blocked_call (quiet []) call_wait_raise (start_state ∅ ∅)
                ltac:(vm_compute; reflexivity)) as H.
  exact (conj (proj1 H) (proj2 (proj2 H))).
Defined.

Lemma elem_of_prefix_rev {A} (x : A) (l returned rest : list A) :
  rev l = returned ++ rest -> x ∈ returned -> x ∈ l.
Proof.
  intros Hr Hx. apply elem_of_rev. rewrite Hr. apply elem_of_app. by left.
Qed.

(** X4: without [wait] (the default) the call always comes back, and it
    never opens a monitor connection: no [BecomeMonitor] request, no
    forwarding write, no [monbus.close()] among the cleanups (lines
    263-284 and 291-328 are skipped). *)
Theorem no_wait_no_monitor c a s :
  a_wait a = false ->
  (run c a s).1 <> Blocked
  /\ Forall (fun ev => ~ is_become_monitor ev /\ ~ is_write ev
                       /\ ev <> EvMonClose)
       (trace (run c a) s).
Proof.
  intros Hwait.
  destruct (run_account c a s)
    as [(e & s1 & Hpro & Hrun & Hl)|[(l & s1 & e & Hpro & _ & Hrun & Hl)
       |(l & s1 & evs & acts & returned & rest & Hpro & _ & _ & Hacc & Htr
         & Hrev & _ & Hb & Hout)]].
  - unfold trace. rewrite Hrun. simpl.
    rewrite (drop_log _ _ []) by (by rewrite app_nil_r). done.
  - unfold trace. rewrite Hrun. simpl.
    rewrite (drop_log _ _ []) by (by rewrite app_nil_r). done.
  - assert (Hw : Forall (fun ev => ~ is_become_monitor ev /\ ~ is_write ev
                                   /\ ev <> EvMonClose) evs
                 /\ Forall (fun act => act <> ActMonClose) acts
                 /\ (body c a l (set_ctexit CExit.init s1)).1 <> Blocked).
    { assert (Hwi : forall l0, Forall wiring_event l0 ->
                Forall (fun ev => ~ is_become_monitor ev /\ ~ is_write ev
                                  /\ ev <> EvMonClose) l0).
      { intros l0 H0. eapply Forall_impl; [exact H0|].
        intros [] Hev; try done.
        - split; [by intros [m H]|]. split; [by intros (fd' & d & H)|done].
        - split; [by intros [m H]|]. split; [by intros (fd' & d & H)|done]. }
      assert (Hac : forall A2, Forall is_tcsetattr A2 ->
                Forall (fun act => act <> ActMonClose)
                  (opened_close c a ++ A2 ++ [])).
      { intros A2 F2. apply Forall_app. split.
        - unfold opened_close. destruct (_ && _); by repeat constructor.
        - rewrite app_nil_r. eapply Forall_impl; [exact F2|].
          by intros act (fd & w & t & ->). }
      remember (body c a l (set_ctexit CExit.init s1)).1 as r0 eqn:Hr0.
      destruct Hacc as [wiring pre A2 A3 e Fw Fp F2 F3 Hnw
                       |pt s2 w s3 wiring pre writes A2 A3 r' Ho Hw' _ Fw
                          Fp Fwr F2 F3 Hnw Hbl Hu].
      - destruct (Hnw Hwait) as [-> ->]. rewrite app_nil_r.
        split; [by apply Hwi|]. split; [by apply Hac|]. done.
      - destruct (Hnw Hwait) as (-> & -> & ->). simpl.
        split.
        { apply Forall_app. split; [by apply Hwi|]. constructor; [|done].
          split; [by intros [m Hm]|]. split; [by intros (fd' & d & Hd)|done]. }
        split; [by apply Hac|]. intros Hblk. specialize (Hbl Hblk).
        congruence. }
    destruct Hw as (Fev & Fact & Hnb). split.
    + destruct Hout as [->|[_ [e ->]]]; done.
    + rewrite Htr. apply Forall_app. split; [done|].
      apply Forall_forall. intros ev Hev.
      apply list_elem_of_fmap in Hev as (act & -> & Hact).
      pose proof (elem_of_prefix_rev _ _ _ _ Hrev Hact) as Hin.
      rewrite Forall_forall in Fact. specialize (Fact act Hin).
      destruct act; simpl; try done;
        (split; [by intros [m Hm]|]); (split; [by intros (fd' & d & Hd)|done]).
Qed.

Lemma no_wait_no_monitor_witness :
  (run (quiet []) plain (start_state ∅ ∅)).1 <> Blocked.
Proof.
  apply (proj1 (no_wait_no_monitor (quiet []) plain (start_state ∅ ∅)
                  eq_refl)).
Defined.

(** ** The submitted mapping, exactly *)

Lemma run_submitted_exact c a s p :
  p ∈ submitted (trace (run c a) s) ->
  exists l s1 pt s2 w s3,
    prologue c a s = (Ok l, s1)
    /\ open_pty c a (set_ctexit CExit.init s1) = (Ok pt, s2)
    /\ pty_wire c a l pt.1 pt.2 s2 = (Ok w, s3)
    /\ p = request_props c a l w s3.
Proof.
  rewrite submitted_requests. intros Hp.
  destruct (run_requests c a s)
    as [[Hn _]|(l & s1 & pt & s2 & w & s3 & Hpro & Ho & Hw & Hr)].
  - rewrite Hn in Hp. by apply elem_of_nil in Hp.
  - rewrite Hr in Hp. simpl in Hp. apply list_elem_of_singleton in Hp.
    by exists l, s1, pt, s2, w, s3.
Qed.

Lemma wire_stdout_env c stdout pm env selectors s r s' :
  wire_stdout c stdout pm env selectors s = (Ok r, s') ->
  dread r.1 s'
  = match stdout, pm, getenv_TERM c with
    | Some _, Some _, Some term =>
        if truthy (VStr term)
        then <[KBytes "TERM" := default (VBytes term)
                                  (dread env s !! KBytes "TERM")]>
               (dread env s)
        else dread env s
    | _, _, _ => dread env s
    end.
Proof.
  unfold wire_stdout, bind, ext, emit, modify, set_term, ret, raise.
  destruct stdout as [out|], pm as [master|];
    try (by intros [= <- <-]).
  destruct (getenv_TERM c) as [term|]; [destruct (truthy (VStr term))|];
    destruct env as [x|d]; simpl;
    destruct (fails c CIoctlGet); try done;
    destruct (fails c CIoctlSet); try done;
    intros [= <- <-]; simpl; by rewrite ?lookup_insert_eq.
Qed.

(** What lines 191-234 hand over to line 236. *)
Lemma pty_wire_ok c a l pm path s w s3 :
  pty_wire c a l pm path s = (Ok w, s3) ->
  w.1.1 = dict_update (slice_property c a)
            (if truthy path then tty_properties path else fd_properties l)
  /\ dread w.2 s3
     = env_at_request c (l_stdout l) pm path (dread (l_env l) s).
Proof.
  unfold pty_wire, env_at_request, term_forwarded.
  fold (slice_property c a).
  destruct (truthy path) eqn:Hpath.
  2: { by intros [= <- <-]. }
  intros H. apply bind_ok in H as (sel & s' & Hin & H).
  apply bind_ok in H as (r & s'' & Hout & H). injection H as <- <-.
  split; [done|]. simpl.
  rewrite (wire_stdout_env _ _ _ _ _ _ _ _ Hout).
  pose proof (wire_stdin_cases c (l_stdin l) pm [] s) as Hrs.
  rewrite Hin in Hrs. apply heap_raw_switch in Hrs. simpl in Hrs.
  assert (Hd : dread (l_env l) s' = dread (l_env l) s).
  { destruct (l_env l); simpl; by rewrite ?Hrs. }
  rewrite Hd.
  destruct (l_stdout l), pm, (getenv_TERM c) as [term|]; try done.
  simpl. by destruct (negb _).
Qed.

(** [extra] at line 259 is the caller's [extra] after the five pops, but
    perhaps for [b"TERM"]. *)
Lemma extra_at_request c a s l s1 pt s2 w s3 k :
  prologue c a s = (Ok l, s1) ->
  open_pty c a (set_ctexit CExit.init s1) = (Ok pt, s2) ->
  pty_wire c a l pt.1 pt.2 s2 = (Ok w, s3) ->
  ~ term_key k ->
  dread (l_extra l) s3 !! k = popped (caller_dict (a_extra a) s) !! k.
Proof.
  intros Hpro Ho Hw Hk. apply prologue_ok in Hpro as Hps.
  rewrite <- (ps_extra _ _ _ _ _ Hps).
  pose proof (open_pty_state c a (set_ctexit CExit.init s1)) as H12.
  rewrite Ho in H12. simpl in H12.
  destruct (pty_wire_rel c a l pt.1 pt.2 s2) as (s3' & H23 & H34).
  rewrite Hw in H34. simpl in H34.
  rewrite (dread_step _ _ _ _ _ _ _ _ H34 Hk).
  apply heap_raw_switch in H23. subst s2.
  destruct (l_extra l); simpl; [|done]. by rewrite H23.
Qed.

(** A key that is neither in the caller's [extra] nor in the dictionary
    literal of lines 237-256 is submitted as lines 191-234 set it. *)
Lemma request_lookup_up c a s l s1 pt s2 w s3 k :
  prologue c a s = (Ok l, s1) ->
  open_pty c a (set_ctexit CExit.init s1) = (Ok pt, s2) ->
  pty_wire c a l pt.1 pt.2 s2 = (Ok w, s3) ->
  ~ term_key k ->
  caller_dict (a_extra a) s !! k = None ->
  (forall env, builtin_properties c a l env !! k = None) ->
  request_props c a l w s3 !! k = keep (w.1.1 !! k).
Proof.
  intros Hpro Ho Hw Hk Hex Hb. unfold request_props.
  rewrite final_lookup, (extra_at_request _ _ _ _ _ _ _ _ _ _ Hpro Ho Hw Hk).
  rewrite popped_lookup, Hex, Hb. by destruct (decide _).
Qed.

Lemma fd_property_opt_int o : fd_property o = opt_int o.
Proof.
  unfold fd_property. destruct o as [fd|]; simpl; [|done].
  by destruct (negb (fd =? 0)).
Qed.

Lemma keep_opt_int o :
  keep (Some (opt_int o))
  = match o with Some fd => Some (VInt fd) | None => None end.
Proof. by destruct o. Qed.

Ltac lookup_solve :=
  simpl;
  repeat first
    [ rewrite lookup_insert_eq
    | rewrite lookup_insert_ne by done
    | rewrite lookup_empty
    | rewrite lookup_singleton_ne by done ].

Lemma io_key_not_builtin c a l env k :
  k ∈ io_keys -> builtin_properties c a l env !! k = None.
Proof.
  unfold io_keys. rewrite !elem_of_cons, elem_of_nil.
  unfold builtin_properties.
  intros [->|[->|[->|[->|[->|[->|[->|[]]]]]]]]; by lookup_solve.
Qed.

Lemma io_key_not_slice c a k : k ∈ io_keys -> slice_property c a !! k = None.
Proof.
  unfold io_keys, slice_property. rewrite !elem_of_cons, elem_of_nil.
  destruct (truthy (a_slice a));
    intros [->|[->|[->|[->|[->|[->|[->|[]]]]]]]]; by lookup_solve.
Qed.

Lemma io_key_not_term k : k ∈ io_keys -> ~ term_key k.
Proof.
  unfold io_keys, term_key. rewrite !elem_of_cons, elem_of_nil.
  by intros [->|[->|[->|[->|[->|[->|[->|[]]]]]]]].
Qed.

(** X5: where the unit's standard streams go (lines 194-234), when the
    caller's [extra] sets none of these properties.  With a pty path in
    effect the request carries [StandardInput], [StandardOutput],
    [StandardError] = [b"tty"] and [TTYPath], and no descriptor
    property: the caller's [stdin], [stdout] and [stderr] never reach
    the unit.  Without one it carries the descriptor of each stream
    that is not [None], descriptor 0 included (the second [get_fno] of
    lines 226-232 changes nothing), and no tty property. *)
Theorem io_routing c a s p pt :
  p ∈ submitted (trace (run c a) s) ->
  (open_pty c a s).1 = Ok pt ->
  (forall k, k ∈ io_keys -> caller_dict (a_extra a) s !! k = None) ->
  (truthy pt.2 = true ->
   p !! KBytes "StandardInput" = Some (VBytes "tty")
   /\ p !! KBytes "StandardOutput" = Some (VBytes "tty")
   /\ p !! KBytes "StandardError" = Some (VBytes "tty")
   /\ p !! KBytes "TTYPath" = Some pt.2
   /\ p !! KBytes "StandardInputFileDescriptor" = None
   /\ p !! KBytes "StandardOutputFileDescriptor" = None
   /\ p !! KBytes "StandardErrorFileDescriptor" = None)
  /\ (truthy pt.2 = false ->
      p !! KBytes "StandardInputFileDescriptor" = fd_entry (a_stdin a)
      /\ p !! KBytes "StandardOutputFileDescriptor" = fd_entry (a_stdout a)
      /\ p !! KBytes "StandardErrorFileDescriptor" = fd_entry (a_stderr a)
      /\ p !! KBytes "StandardInput" = None
      /\ p !! KBytes "StandardOutput" = None
      /\ p !! KBytes "StandardError" = None
      /\ p !! KBytes "TTYPath" = None).
Proof.
  intros Hp Hopen Hex.
  destruct (run_submitted_exact c a s p Hp)
    as (l & s1 & pt' & s2 & w & s3 & Hpro & Ho & Hw & ->).
  pose proof (open_pty_outcome c a (set_ctexit CExit.init s1) s) as Hsame.
  rewrite Ho, Hopen in Hsame. simpl in Hsame. injection Hsame as ->.
  assert (Hup : forall k, k ∈ io_keys ->
            request_props c a l w s3 !! k
            = keep ((if truthy pt.2 then tty_properties pt.2
                     else fd_properties l) !! k)).
  { intros k Hk.
    rewrite (request_lookup_up c a s l s1 pt s2 w s3 k Hpro Ho Hw);
      [|by apply io_key_not_term|by apply Hex
       |intros; by apply io_key_not_builtin].
    destruct (pty_wire_ok _ _ _ _ _ _ _ _ Hw) as [-> _].
    unfold dict_update. rewrite lookup_union, io_key_not_slice by done.
    by destruct (_ !! k). }
  apply prologue_ok in Hpro as Hps.
  unfold fd_entry.
  rewrite (ps_stdin _ _ _ _ _ Hps), (ps_stdout _ _ _ _ _ Hps),
    (ps_stderr _ _ _ _ _ Hps).
  split; intros Hpath; rewrite Hpath in Hup.
  - repeat split; (rewrite Hup by (unfold io_keys; by repeat constructor));
      unfold tty_properties; lookup_solve; try done.
    unfold keep. destruct pt.2; try done.
  - repeat split; (rewrite Hup by (unfold io_keys; by repeat constructor));
      unfold fd_properties; lookup_solve; try done;
      by rewrite fd_property_opt_int, keep_opt_int.
Qed.

Lemma io_routing_witness :
  first_submitted (quiet []) call_fds (start_state ∅ ∅)
    !! KBytes "StandardInputFileDescriptor" = fd_entry (a_stdin call_fds).
Proof.
  apply (proj2 (io_routing (quiet []) call_fds (start_state ∅ ∅)
                  (first_submitted (quiet []) call_fds (start_state ∅ ∅))
                  (None, VNone)
                  ltac:(apply first_submitted_elem; vm_compute; reflexivity)
                  eq_refl ltac:(intros k _; apply lookup_empty))
           eq_refl).
Defined.







(** X7: [unit_properties.update(extra)] comes last (lines 259-260): an
    entry of the caller's [extra] under any key but the five command
    keys (and [b"TERM"]) replaces whatever [run] computed for that key,
    and an entry whose value is [None] removes the property from the
    request. *)
Theorem extra_overrides c a s p k v :
  p ∈ submitted (trace (run c a) s) ->
  k ∉ command_keys -> k <> KBytes "TERM" ->
  caller_dict (a_extra a) s !! k = Some v ->
  p !! k = if is_none v then None else Some v.
Proof.
  intros Hp Hk Hterm Hv.
  destruct (run_submitted c a s p Hp) as (l & s1 & Hpro & Hprops).
  destruct (props_from_lookup c a l s s1 p k Hpro Hprops Hterm)
    as (up & env & ->).
  rewrite popped_lookup. destruct (decide (k ∈ command_keys)); [done|].
  by rewrite Hv.
Qed.

Lemma extra_overrides_witness :
  first_submitted (quiet []) call_extra_none (start_state heap_extra_none ∅)
    !! KBytes "Description" = (if is_none VNone then None else Some VNone).
Proof.
  apply (extra_overrides (quiet []) call_extra_none
           (start_state heap_extra_none ∅)
           (first_submitted (quiet []) call_extra_none
              (start_state heap_extra_none ∅))
           (KBytes "Description") VNone
           ltac:(apply first_submitted_elem; vm_compute; reflexivity)
           ltac:(unfold command_keys; rewrite !elem_of_cons, elem_of_nil;
                 by intros [|[|[|[|[|]]]]])
           ltac:(discriminate)
           ltac:(vm_compute; reflexivity)).
Defined.

(** X8: the three stream arguments are checked first (lines 45-58 and
    165): when one of them is neither [None], nor an integer, nor an
    object with a [fileno] method, the call raises [TypeError] and has
    done nothing at all: nothing is popped from the caller's [extra],
    no bus is entered, nothing is sent. *)
Theorem invalid_stream c a s e :
  get_fno (a_stdin a) = inl e \/ get_fno (a_stdout a) = inl e
  \/ get_fno (a_stderr a) = inl e ->
  run c a s = (Raise TypeError, s).
Proof.
  intros H. rewrite run_unfold. unfold prologue.
  assert (Hty : forall obj e', get_fno obj = inl e' -> e' = TypeError).
  { intros [] e'; simpl; congruence. }
  destruct (get_fno (a_stdin a)) as [e1|i] eqn:Hi.
  { by rewrite (Hty _ _ Hi). }
  destruct (get_fno (a_stdout a)) as [e2|o] eqn:Ho.
  { by rewrite (Hty _ _ Ho). }
  destruct (get_fno (a_stderr a)) as [e3|r] eqn:He.
  { by rewrite (Hty _ _ He). }
  by destruct H as [H|[H|H]].
Qed.

Lemma invalid_stream_witness :
  run (quiet []) call_bad_stdout (start_state heap_extra7 ∅)
  = (Raise TypeError, start_state heap_extra7 ∅).
Proof.
  apply (invalid_stream (quiet []) call_bad_stdout
           (start_state heap_extra7 ∅) TypeError).
  right. left. reflexivity.
Defined.

(** ** What a call does to the caller's dictionaries *)

Lemma deletes_refl xl h : deletes xl h h.
Proof. intros x k. by left. Qed.

Lemma deletes_trans xl h1 h2 h3 :
  deletes xl h1 h2 -> deletes xl h2 h3 -> deletes xl h1 h3.
Proof.
  intros H12 H23 x k.
  destruct (H23 x k) as [E23|(Hx & Hk & Hn)]; [|by right].
  rewrite E23. apply H12.
Qed.

Lemma merged_cmd_deletes c what key v s :
  key ∈ command_keys ->
  deletes (dvar_loc v) (heap s) (heap (merged_cmd c what key v s).2).
Proof.
  intros Hkey. unfold merged_cmd, bind, dpop, dict_pop, list_add.
  destruct (x2cmdlist c what) as [cl|]; simpl; [|apply deletes_refl].
  destruct v as [y|d]; simpl.
  2: { destruct (default (VList []) (d !! key)); simpl;
         apply deletes_refl. }
  assert (Hd : deletes (Some y) (heap s)
                 (<[y := delete key (default ∅ (heap s !! y))]> (heap s))).
  { intros x k. rewrite dict_at_insert.
    destruct (decide (y = x)) as [->|]; [|by left].
    destruct (decide (k = key)) as [->|Hne].
    - right. by rewrite lookup_delete_eq.
    - left. by rewrite lookup_delete_ne. }
  by destruct (default (VList []) (default ∅ (heap s !! y) !! key)).
Qed.

Lemma deletes_bind xl {A B} (m : M A) (k : A -> M B) s :
  deletes xl (heap s) (heap (m s).2) ->
  (forall r s', m s = (Ok r, s') -> deletes xl (heap s') (heap (k r s').2)) ->
  deletes xl (heap s) (heap (bind m k s).2).
Proof.
  intros Hm Hk. unfold bind.
  destruct (m s) as [[r|e|] s'] eqn:Hms; simpl in *; try done.
  eapply deletes_trans; [exact Hm|]. by apply Hk.
Qed.

(** Lines 162-178 only pop command keys, and only from [extra]. *)
Lemma prologue_deletes c a s :
  deletes (a_extra a) (heap s) (heap (prologue c a s).2).
Proof.
  assert (H : deletes (dvar_loc (or_empty (a_extra a) s)) (heap s)
                (heap (prologue c a s).2)).
  2: { intros x k. destruct (H x k) as [E|(Hx & Hk & Hn)]; [by left|].
       right. split; [|done]. by apply (dvar_loc_or_empty _ s). }
  assert (Hkey : forall k, k ∈ command_keys -> forall what v s0,
            deletes (dvar_loc v) (heap s0)
              (heap (merged_cmd c what k v s0).2)).
  { intros k Hk what v s0. by apply merged_cmd_deletes. }
  unfold prologue.
  apply deletes_bind; [destruct (get_fno (a_stdin a)); apply deletes_refl|].
  intros i s' Hi. apply of_sum_ok in Hi as [_ ->].
  apply deletes_bind; [destruct (get_fno (a_stdout a)); apply deletes_refl|].
  intros o s' Ho. apply of_sum_ok in Ho as [_ ->].
  apply deletes_bind; [destruct (get_fno (a_stderr a)); apply deletes_refl|].
  intros e s' He. apply of_sum_ok in He as [_ ->].
  apply deletes_bind; [apply deletes_refl|].
  intros env s' Henv. injection Henv as <- <-.
  apply deletes_bind; [apply deletes_refl|].
  intros extra s' Hextra. injection Hextra as <- <-.
  apply deletes_bind.
  { apply Hkey. unfold command_keys. by repeat constructor. }
  intros r1 s1 H1. apply merged_cmd_ok in H1 as (_ & _ & V1 & _).
  rewrite <- V1.
  apply deletes_bind.
  { apply Hkey. unfold command_keys. by repeat constructor. }
  intros r2 s2 H2. apply merged_cmd_ok in H2 as (_ & _ & V2 & _).
  rewrite <- V2.
  apply deletes_bind.
  { apply Hkey. unfold command_keys. by repeat constructor. }
  intros r3 s3 H3. apply merged_cmd_ok in H3 as (_ & _ & V3 & _).
  rewrite <- V3.
  apply deletes_bind.
  { apply Hkey. unfold command_keys. by repeat constructor. }
  intros r4 s4 H4. apply merged_cmd_ok in H4 as (_ & _ & V4 & _).
  rewrite <- V4.
  apply deletes_bind.
  { apply Hkey. unfold command_keys. by repeat constructor. }
  intros r5 s5 H5. apply deletes_refl.
Qed.

Lemma set_term_adds c term env s :
  getenv_TERM c = Some term ->
  adds_term c (dvar_loc env) (heap s) (heap (set_term term env s).2).
Proof.
  intros Hterm x k. unfold set_term. destruct env as [y|d]; [|by left].
  simpl. rewrite dict_at_insert.
  destruct (decide (y = x)) as [->|]; [|by left].
  destruct (decide (k = KBytes "TERM")) as [->|Hne].
  - rewrite lookup_insert_eq. unfold dict_at.
    destruct (default ∅ (heap s !! x) !! KBytes "TERM") as [v|] eqn:Hv;
      [by left|].
    right. do 3 (split; [done|]). by exists term.
  - left. by rewrite lookup_insert_ne.
Qed.

Lemma wire_stdout_heap c stdout pm env selectors s :
  heap (wire_stdout c stdout pm env selectors s).2 = heap s
  \/ exists term,
       getenv_TERM c = Some term
       /\ heap (wire_stdout c stdout pm env selectors s).2
          = heap (set_term term env s).2.
Proof.
  unfold wire_stdout, bind, ext, emit, modify, ret, raise.
  destruct stdout as [out|], pm as [master|]; try (by left).
  destruct (getenv_TERM c) as [term|];
    [destruct (truthy (VStr term))|].
  - right. exists term. split; [done|].
    destruct (set_term term env s) as [[env'|e|] s']; simpl; try done.
    destruct (fails c CIoctlGet); [done|].
    by destruct (fails c CIoctlSet).
  - left. simpl. destruct (fails c CIoctlGet); [done|].
    by destruct (fails c CIoctlSet).
  - left. simpl. destruct (fails c CIoctlGet); [done|].
    by destruct (fails c CIoctlSet).
Qed.

Lemma adds_term_refl c xl h : adds_term c xl h h.
Proof. intros x k. by left. Qed.

Lemma pty_wire_adds c a l pm path s :
  adds_term c (dvar_loc (l_env l)) (heap s)
    (heap (pty_wire c a l pm path s).2).
Proof.
  unfold pty_wire. destruct (truthy path); [|apply adds_term_refl].
  pose proof (wire_stdin_cases c (l_stdin l) pm [] s) as Hrs.
  apply heap_raw_switch in Hrs.
  destruct (wire_stdin c (l_stdin l) pm [] s) as [[sel|e|] s'] eqn:Hin;
    simpl in Hrs.
  2: { rewrite (bind_raise _ _ _ _ _ Hin). simpl. rewrite Hrs.
       apply adds_term_refl. }
  2: { rewrite (bind_blocked _ _ _ _ Hin). simpl. rewrite Hrs.
       apply adds_term_refl. }
  rewrite (bind_run _ _ _ _ _ Hin), bind_ret_state, <- Hrs.
  destruct (wire_stdout_heap c (l_stdout l) pm (l_env l) sel s')
    as [->|(term & Hterm & ->)]; [apply adds_term_refl|].
  by apply set_term_adds.
Qed.

(** Lines 182-340 only set [b"TERM"], and only in [env]. *)
Lemma body_adds c a l s :
  adds_term c (dvar_loc (l_env l)) (heap s) (heap (body c a l s).2).
Proof.
  rewrite body_unfold.
  pose proof (open_pty_state c a s) as H12.
  destruct (open_pty c a s) as [[pt|e|] s2] eqn:Ho; simpl in H12.
  2: { rewrite (bind_raise _ _ _ _ _ Ho). subst s2. apply adds_term_refl. }
  2: { rewrite (bind_blocked _ _ _ _ Ho). subst s2. apply adds_term_refl. }
  rewrite (bind_run _ _ _ _ _ Ho). unfold after_pty.
  assert (Hh : heap s2 = heap s) by (by subst s2).
  rewrite <- Hh.
  pose proof (pty_wire_adds c a l pt.1 pt.2 s2) as Hw.
  destruct (pty_wire c a l pt.1 pt.2 s2) as [[w|e|] s3] eqn:Hpw;
    simpl in Hw.
  2: { by rewrite (bind_raise _ _ _ _ _ Hpw). }
  2: { by rewrite (bind_blocked _ _ _ _ Hpw). }
  rewrite (bind_run _ _ _ _ _ Hpw), bind_read_properties.
  intros x k.
  destruct (frames_launch c a l pt.1 w.1.2
              (unit_properties_final c a l w.1.1 (dread w.2 s3)
                 (dread (l_extra l) s3)) s3) as [_ _ Hl _].
  rewrite (Hl x k) by (by intros []).
  destruct (Hw x k) as [E|(Hx & Hk & Hn & term & Ht & Hv)]; [by left|].
  right. do 3 (split; [done|]). by exists term.
Qed.

Lemma guarded_adds c a l s :
  adds_term c (dvar_loc (l_env l)) (heap s) (heap (guarded c a l s).2).
Proof.
  destruct (guarded_cases c a l s)
    as [(_ & -> & _)|(_ & _ & -> & _)];
    [apply adds_term_refl | apply body_adds].
Qed.

Lemma term_not_command : KBytes "TERM" ∉ command_keys.
Proof.
  unfold command_keys. rewrite !elem_of_cons, elem_of_nil.
  by intros [|[|[|[|[|]]]]].
Qed.

(** X9: all that a call can ever do to a dictionary of the caller, on
    any path, exceptions included: remove command keys from the
    dictionary passed as [extra] (lines 171-175), and set [b"TERM"] to
    the value of [$TERM] in the dictionary passed as [env] when it has
    no [b"TERM"] (line 215).  Every other key of every dictionary is
    after the call what it was before. *)
Theorem caller_dictionaries_frame c a s x k :
  dict_at (heap (run c a s).2) x k = dict_at (heap s) x k
  \/ (a_extra a = Some x /\ k ∈ command_keys
      /\ dict_at (heap (run c a s).2) x k = None)
  \/ (a_env a = Some x /\ k = KBytes "TERM" /\ dict_at (heap s) x k = None
      /\ exists term,
           getenv_TERM c = Some term
           /\ dict_at (heap (run c a s).2) x k = Some (VBytes term)).
Proof.
  pose proof (prologue_deletes c a s) as Hpro.
  assert (Hcompose : forall l s1 sb h',
            prologue c a s = (Ok l, s1) ->
            guarded c a l (set_ctexit CExit.init s1) = sb ->
            h' = heap sb.2 ->
            dict_at h' x k = dict_at (heap s) x k
            \/ (a_extra a = Some x /\ k ∈ command_keys
                /\ dict_at h' x k = None)
            \/ (a_env a = Some x /\ k = KBytes "TERM"
                /\ dict_at (heap s) x k = None
                /\ exists term,
                     getenv_TERM c = Some term
                     /\ dict_at h' x k = Some (VBytes term))).
  { intros l s1 sb h' Hp Hg ->. rewrite Hp in Hpro. simpl in Hpro.
    pose proof (guarded_adds c a l (set_ctexit CExit.init s1)) as Hb.
    rewrite Hg in Hb. simpl in Hb.
    destruct (Hb x k) as [E|(Hx & -> & Hn & term & Ht & Hv)].
    - rewrite E. destruct (Hpro x k) as [E'|Hdel]; [by left|].
      right. by left.
    - right. right.
      apply prologue_ok in Hp as Hps. rewrite (ps_env _ _ _ _ _ Hps) in Hx.
      apply dvar_loc_or_empty in Hx. split; [done|]. split; [done|].
      split.
      + destruct (Hpro x (KBytes "TERM")) as [E'|(_ & Hk & _)].
        * by rewrite <- E'.
        * by apply term_not_command in Hk.
      + by exists term. }
  destruct (run_cases c a s) as [e s1 Hp|l s1 sb Hp Hg
    |l s1 r sb called e s' Hp Hg Hr Hx]; simpl.
  - rewrite Hp in Hpro. simpl in Hpro.
    destruct (Hpro x k) as [E|Hdel]; [by left|]. right. by left.
  - apply (Hcompose l s1 (Blocked, sb)); done.
  - unfold CExit.exit_ in Hx.
    destruct (call_all_state c (rev (CExit.pipe (ctexit sb))) sb)
      as (returned & _ & Hs').
    rewrite Hx in Hs'. simpl in Hs'. subst s'. simpl.
    apply (Hcompose l s1 (r, sb)); done.
Qed.

(** ** Lines 298-305: the pty master that cannot be read any more *)

Lemma list_remove_other x y l :
  y <> x -> y ∈ list_remove x l <-> y ∈ l.
Proof.
  intros Hne. induction l as [|z l IH]; simpl; [done|].
  destruct (decide (x = z)) as [->|Hxz].
  - rewrite elem_of_cons. split; [by right|]. by intros [->|H].
  - rewrite !elem_of_cons, IH. done.
Qed.

Lemma list_remove_nodup x l : NoDup l -> x ∉ list_remove x l.
Proof.
  induction 1 as [|z l Hz Hl IH]; simpl.
  - apply not_elem_of_nil.
  - destruct (decide (x = z)) as [->|Hxz]; [done|].
    rewrite elem_of_cons. by intros [->|Hx].
Qed.

Lemma elem_of_select fd selectors t :
  fd ∈ select selectors t <-> fd ∈ t_ready t /\ fd ∈ selectors.
Proof. unfold select. by rewrite list_elem_of_filter. Qed.

(** X10: when the pty master is ready and reading it raises [OSError]
    (lines 298-303), the turn does not raise: forwarding does to the
    state what forwarding from stdin alone does (nothing is written to
    stdout), and the master is taken out of the selectors.  With
    selectors free of duplicates, [select] never reports the master
    again, and reports every other descriptor as before. *)
Theorem master_read_failure l fd t selectors s :
  fd ∈ select selectors t -> t_master_read t = None ->
  (forward l (Some fd) t (select selectors t) selectors s).2
  = (forward_stdin (l_stdin l) (Some fd) t (select selectors t) s).2
  /\ ((forward_stdin (l_stdin l) (Some fd) t (select selectors t) s).1
      = Ok tt ->
      (forward l (Some fd) t (select selectors t) selectors s).1
      = Ok (list_remove fd selectors))
  /\ (NoDup selectors ->
      forall t',
        (fd ∉ select (list_remove fd selectors) t')
        /\ (forall y, y <> fd ->
              (y ∈ select (list_remove fd selectors) t'
               <-> y ∈ select selectors t'))).
Proof.
  intros Hin Hread. unfold forward, bind.
  destruct (forward_stdin (l_stdin l) (Some fd) t (select selectors t) s)
    as [[[]|e|] s1]; simpl.
  - unfold forward_master, mem. rewrite bool_decide_true by done.
    rewrite Hread. simpl. split; [done|]. split; [done|].
    intros Hnd t'. split.
    + rewrite elem_of_select. intros [_ H].
      by apply (list_remove_nodup fd selectors).
    + intros y Hy. by rewrite !elem_of_select, list_remove_other.
  - split; [done|]. split; [done|]. intros Hnd t'. split.
    + rewrite elem_of_select. intros [_ H].
      by apply (list_remove_nodup fd selectors).
    + intros y Hy. by rewrite !elem_of_select, list_remove_other.
  - split; [done|]. split; [done|]. intros Hnd t'. split.
    + rewrite elem_of_select. intros [_ H].
      by apply (list_remove_nodup fd selectors).
    + intros y Hy. by rewrite !elem_of_select, list_remove_other.
Qed.

Lemma master_read_failure_witness :
  (forward idle_locals (Some 5) master_gone_tick
     (select [5; 9] master_gone_tick) [5; 9] (start_state ∅ ∅)).1
  = Ok (list_remove 5 [5; 9]).
Proof.
  apply (proj1 (proj2 (master_read_failure idle_locals 5 master_gone_tick
                         [5; 9] (start_state ∅ ∅)
                         ltac:(apply elem_of_select; split;
                               by repeat constructor)
                         eq_refl))).
  reflexivity.
Defined.

(** ** Lines 294-305: the loop writes what it read, where it belongs *)

Lemma step_add_log Pe Pa K T s s' ev :
  Pe ev -> step Pe Pa K T s s' -> step Pe Pa K T s (add_log ev s').
Proof.
  intros Hev Hs. eapply step_trans; [exact Hs|].
  split; simpl; try done.
  - exists [ev]. split; [done|]. by constructor.
  - exists []. by rewrite app_nil_r.
Qed.

Lemma forwarded_mono l pm ticks ticks' ev :
  (forall t, t ∈ ticks -> t ∈ ticks') ->
  forwarded l pm ticks ev -> forwarded l pm ticks' ev.
Proof.
  intros Hsub. destruct ev; simpl; try done.
  intros [[Hp (t & Ht & Hr)]|[Ho (t & Ht & Hr)]].
  - left. split; [done|]. exists t. split; [by apply Hsub | done].
  - right. split; [done|]. exists t. split; [by apply Hsub | done].
Qed.

Lemma forward_forwarded l pm t _in selectors s :
  step (forwarded l pm [t]) no_action no_key no_fd s
    (forward l pm t _in selectors s).2.
Proof.
  assert (Ht : t ∈ [t]) by (by left).
  unfold forward, forward_stdin, forward_master, os_read, os_write, bind,
    emit, modify, ret, raise, mem.
  destruct (l_stdin l) as [i|]; [destruct (bool_decide (i ∈ _in))|];
    (destruct (t_stdin_read t) eqn:H1);
    (destruct pm as [m|]; [destruct (bool_decide (m ∈ _in))|]);
    (destruct (t_master_read t) eqn:H2);
    (destruct (l_stdout l) eqn:Ho); simpl;
    repeat (apply step_add_log;
            [solve [ left; split; [done|]; by exists t
                   | right; split; [done|]; by exists t ]|]);
    apply step_refl.
Qed.

Lemma loop_turn_forwarded c l pm job selectors t :
  frames (forwarded l pm [t]) no_action no_key no_fd
    (loop_turn c l pm job selectors t).
Proof.
  unfold loop_turn. apply frames_bind.
  - intros s. apply forward_forwarded.
  - intros sel. frames_auto; apply frames_message_exits.
Qed.

Lemma event_loop_forwarded c l pm job ticks selectors :
  frames (forwarded l pm ticks) no_action no_key no_fd
    (event_loop c l pm job ticks selectors).
Proof.
  revert selectors. induction ticks as [|t rest IH]; intros selectors.
  - intros s. apply step_refl.
  - simpl. apply frames_bind.
    + intros s. eapply step_weaken;
        [| | | | apply (loop_turn_forwarded c l pm job selectors t s)];
        try done.
      intros ev. apply forwarded_mono. intros t' Ht'.
      apply list_elem_of_singleton in Ht' as ->. by left.
    + intros [by_|sel]; [apply frames_ret|].
      intros s. eapply step_weaken; [| | | | apply (IH sel s)]; try done.
      intros ev. apply forwarded_mono. intros t' Ht'. by right.
Qed.

(** X11: the waiting loop (lines 291-328) puts nothing on record but
    forwarding writes, and each one carries, unchanged, data that a
    turn read: what is written to the pty master was read on the
    caller's stdin, what is written to the caller's stdout was read on
    the pty master.  Nothing else is ever written, whatever the turns
    bring and however the loop ends. *)
Theorem loop_forwards_only c l pm job ticks selectors s :
  Forall (forwarded l pm ticks)
    (trace (event_loop c l pm job ticks selectors) s).
Proof.
  destruct (event_loop_forwarded c l pm job ticks selectors s)
    as [[evs [Hl Hf]] _ _ _].
  unfold trace. by rewrite (drop_log _ _ evs).
Qed.

(** ** Lines 291-328: how a call with [wait] comes back *)

Lemma message_exits_pure path job m s r s' :
  message_exits path job m s = (r, s') ->
  forall st, message_exits path job m st = (r, st).
Proof.
  unfold message_exits, ret, raise.
  destruct (_ && _); [destruct (unpack_second (message_job m))|];
    by intros [= <- <-].
Qed.

Lemma loop_turn_break c l pm job selectors t s by_ s' :
  loop_turn c l pm job selectors t s = (Ok (Break by_), s') ->
  (by_ = BySignal /\ monitor_fd c ∈ t_ready t
   /\ exists m,
        t_message t = Some m
        /\ forall st, message_exits (unit_path c) job m st = (Ok true, st))
  \/ (by_ = ByPolling /\ truthy_q (l_wait_polling l) = true
      /\ t_main_pid t = 0).
Proof.
  unfold loop_turn. intros H.
  apply bind_ok in H as (sel' & s1 & _ & H).
  assert (Hpoll : polling_exit (l_wait_polling l) (select selectors t)
                    (t_main_pid t) = true ->
                  truthy_q (l_wait_polling l) = true /\ t_main_pid t = 0).
  { unfold polling_exit. intros Hp.
    apply andb_prop in Hp as [Hp Hz]. apply andb_prop in Hp as [Hq _].
    split; [done|]. by apply Z.eqb_eq. }
  destruct (bool_decide (monitor_fd c ∈ select selectors t)) eqn:Hmon.
  - apply bool_decide_eq_true in Hmon. apply elem_of_select in Hmon as [Hr _].
    destruct (t_message t) as [m|] eqn:Hm; [|by injection H].
    apply bind_ok in H as (b & s2 & Hme & H). unfold ret in H.
    destruct b.
    + injection H as <- <-. left. do 2 (split; [done|]). exists m.
      split; [done|]. by apply (message_exits_pure _ _ _ s1 _ s2).
    + destruct (polling_exit _ _ _) eqn:Hp; [|by injection H].
      injection H as <- <-. right. split; [done|]. by apply Hpoll.
  - unfold ret in H.
    destruct (polling_exit _ _ _) eqn:Hp; [|by injection H].
    injection H as <- <-. right. split; [done|]. by apply Hpoll.
Qed.

(** The loop returns only from a turn that breaks. *)
Lemma event_loop_break c l pm job ticks selectors s by_ s' :
  event_loop c l pm job ticks selectors s = (Ok by_, s') ->
  exists t sel_t s_t,
    t ∈ ticks
    /\ loop_turn c l pm job sel_t t s_t = (Ok (Break by_), s').
Proof.
  revert selectors s. induction ticks as [|t rest IH]; intros selectors s.
  - by intros [=].
  - rewrite event_loop_turn.
    destruct (loop_turn c l pm job selectors t s) as [[[b|sel']|e|] s1]
      eqn:Hturn; try (by intros [=]).
    + intros [= -> ->]. exists t, selectors, s. split; [by left | done].
    + intros H. destruct (IH _ _ H) as (t' & sel_t & s_t & Hin & Ht).
      exists t', sel_t, s_t. split; [by right | done].
Qed.

(** A call with [wait] that returns went through the loop. *)
Lemma run_ok_loop c a s u :
  a_wait a = true -> (run c a s).1 = Ok u ->
  exists l s1 pm selectors s_l by_ s_l',
    prologue c a s = (Ok l, s1)
    /\ event_loop c l pm (start_job c) (script c) selectors s_l
       = (Ok by_, s_l').
Proof.
  intros Hwait Hok.
  destruct (run_account c a s)
    as [(e & s1 & Hpro & Hrun & Hl)|[(l & s1 & e & Hpro & _ & Hrun & Hl)
       |(l & s1 & evs & acts & returned & rest & Hpro & _ & _ & _ & _
         & _ & _ & _ & Hout)]].
  - by rewrite Hrun in Hok.
  - by rewrite Hrun in Hok.
  - destruct Hout as [Heq|[_ [e He]]]; [|by rewrite He in Hok].
    rewrite Hok in Heq. symmetry in Heq.
    destruct (body c a l (set_ctexit CExit.init s1)) as [r sb] eqn:Hb.
    simpl in Heq. subst r. unfold body in Hb.
    apply bind_ok in Hb as (pt & s2 & _ & Hb).
    apply bind_ok in Hb as (w & s3 & _ & Hb).
    apply bind_ok in Hb as (props & s4 & _ & Hb).
    rewrite launch_unfold in Hb.
    apply bind_ok in Hb as ([] & s5 & _ & Hb).
    apply bind_ok in Hb as (sel' & s6 & _ & Hb).
    apply bind_ok in Hb as ([] & s7 & _ & Hb).
    unfold wait_and_return in Hb. rewrite Hwait in Hb.
    apply bind_ok in Hb as ([] & s8 & Hloop & _).
    apply bind_ok in Hloop as (by_ & s9 & Hloop & _).
    by exists l, s1, pt.1, sel', s7, by_, s9.
Qed.

(** X12: a call with [wait] set comes back only after a turn of the
    loop broke out of it (lines 291-328): a turn in which the monitor
    descriptor was ready and brought a message that meets the exit
    condition of lines 313-322, or, when a poll interval is in effect
    (user mode, or [_wait_polling] given), a turn that found
    [MainPID == 0].  So for root without [_wait_polling] the call
    returns only after such a message. *)
Theorem wait_returns_after_exit c a s u :
  a_wait a = true -> (run c a s).1 = Ok u ->
  (exists t m,
     t ∈ script c /\ monitor_fd c ∈ t_ready t
     /\ t_message t = Some m /\ exit_message c m)
  \/ (truthy_q (effective_polling a) = true
      /\ exists t, t ∈ script c /\ t_main_pid t = 0).
Proof.
  intros Hwait Hok.
  destruct (run_ok_loop c a s u Hwait Hok)
    as (l & s1 & pm & sel & s_l & by_ & s_l' & Hpro & Hloop).
  destruct (event_loop_break _ _ _ _ _ _ _ _ _ Hloop)
    as (t & sel_t & s_t & Hin & Hturn).
  destruct (loop_turn_break _ _ _ _ _ _ _ _ _ Hturn)
    as [(_ & Hr & m & Hm & Hex)|(_ & Hq & Hz)].
  - left. by exists t, m.
  - right. apply prologue_ok in Hpro as Hps.
    rewrite (ps_polling _ _ _ _ _ Hps) in Hq. split; [done|]. by exists t.
Qed.

Lemma wait_returns_after_exit_witness :
  (exists t m,
     t ∈ script (collaborators [] [exit_tick] 0)
     /\ monitor_fd (collaborators [] [exit_tick] 0) ∈ t_ready t
     /\ t_message t = Some m
     /\ exit_message (collaborators [] [exit_tick] 0) m)
  \/ (truthy_q (effective_polling call_wait_raise) = true
      /\ exists t,
           t ∈ script (collaborators [] [exit_tick] 0)
           /\ t_main_pid t = 0).
Proof.
  apply (wait_returns_after_exit (collaborators [] [exit_tick] 0)
           call_wait_raise (start_state ∅ ∅)
           (MkUnit "pystemd0123456789abcdef0123456789abcdef.service"
              "/org/freedesktop/systemd1/unit/u" (DBus false))
           eq_refl ltac:(vm_compute; reflexivity)).
Defined.

(** ** Lines 170-175: an override that is not a list *)

Lemma merged_cmd_byref c what key x d0 cl s :
  heap s !! x = Some d0 -> x2cmdlist c what = Some cl ->
  merged_cmd c what key (ByRef x) s
  = (match override_list d0 key with
     | Some L => Ok (cl ++ L, ByRef x)
     | None => Raise TypeError
     end, set_heap (<[x := delete key d0]> (heap s)) s).
Proof.
  intros Hx Hcl.
  unfold merged_cmd, bind, dpop, dict_pop, dwrite, list_add, override_list.
  rewrite Hcl. simpl. rewrite Hx. simpl.
  destruct (d0 !! key) as [[]|]; simpl; done.
Qed.

Lemma pop_step c what key x D cl h s0 :
  x2cmdlist c what = Some cl ->
  merged_cmd c what key (ByRef x) (set_heap (<[x := D]> h) s0)
  = (match override_list D key with
     | Some L => Ok (cl ++ L, ByRef x)
     | None => Raise TypeError
     end, set_heap (<[x := delete key D]> h) s0).
Proof.
  intros Hcl.
  rewrite (merged_cmd_byref c what key x D cl) by
    (try done; simpl; apply lookup_insert_eq).
  f_equal. unfold set_heap. simpl. by rewrite insert_insert_eq.
Qed.

Lemma override_list_empty_none (d : dict) k :
  override_list d k = None -> size d <> 0%nat.
Proof.
  intros Hbad Hz. apply map_size_empty_inv in Hz. subst d.
  unfold override_list in Hbad. by rewrite lookup_empty in Hbad.
Qed.

(** X13: an override in [extra] under a command key that is not a list
    (lines 170-175).  With valid streams and commands that
    [x2cmdlist] accepts, the call raises [TypeError] at the first such
    key, in the order of the five lines, before any bus is entered and
    with nothing sent; but the pops up to and including that key have
    been done: the caller's [extra] has lost these keys, and only
    these, although the call failed. *)
Theorem bad_override c a s x d k i o e :
  a_extra a = Some x -> heap s !! x = Some d ->
  k ∈ command_keys -> override_list d k = None ->
  get_fno (a_stdin a) = inr i -> get_fno (a_stdout a) = inr o ->
  get_fno (a_stderr a) = inr e ->
  (forall what,
     what ∈ [a_cmd a; a_stop_cmd a; a_stop_post_cmd a; a_start_pre_cmd a;
             a_start_post_cmd a] ->
     is_Some (x2cmdlist c what)) ->
  exists n k0,
    command_keys !! n = Some k0 /\ override_list d k0 = None
    /\ Forall (fun kj => override_list d kj <> None) (take n command_keys)
    /\ run c a s
       = (Raise TypeError,
          set_heap (<[x := pop_all (take (S n) command_keys) d]> (heap s)) s).
Proof.
  intros Hx Hd Hk Hbad Hi Ho He Hcmd.
  assert (Hoe : or_empty (a_extra a) s = ByRef x).
  { unfold or_empty. rewrite Hx, Hd.
    destruct (decide (size d = 0%nat)) as [Hz|]; [|done].
    by apply override_list_empty_none in Hbad. }
  destruct (Hcmd (a_cmd a)) as [c1 H1]; [by repeat constructor|].
  destruct (Hcmd (a_stop_cmd a)) as [c2 H2]; [by repeat constructor|].
  destruct (Hcmd (a_stop_post_cmd a)) as [c3 H3]; [by repeat constructor|].
  destruct (Hcmd (a_start_pre_cmd a)) as [c4 H4]; [by repeat constructor|].
  destruct (Hcmd (a_start_post_cmd a)) as [c5 H5]; [by repeat constructor|].
  clear Hcmd. rewrite run_unfold.
  assert (Hpro : exists n k0,
            command_keys !! n = Some k0 /\ override_list d k0 = None
            /\ Forall (fun kj => override_list d kj <> None)
                 (take n command_keys)
            /\ prologue c a s
               = (Raise TypeError,
                  set_heap (<[x := pop_all (take (S n) command_keys) d]>
                              (heap s)) s)).
  2: { destruct Hpro as (n & k0 & Hn & Hk0 & Hf & Hp). exists n, k0.
       do 3 (split; [done|]). by rewrite (bind_raise _ _ _ _ _ Hp). }
  unfold prologue. rewrite Hi, Ho, He.
  do 5 (erewrite bind_run by reflexivity).
  rewrite Hoe.
  unfold command_keys, ExecStart, ExecStop, ExecStopPost, ExecStartPre,
    ExecStartPost in *.
  pose proof (merged_cmd_byref c (a_cmd a) (KBytes "ExecStart") x d c1 s
                Hd H1) as M1.
  destruct (override_list d (KBytes "ExecStart")) as [L1|] eqn:O1.
  2: { exists 0%nat, (KBytes "ExecStart"). split; [done|]. split; [done|].
       split; [constructor|]. by rewrite (bind_raise _ _ _ _ _ M1). }
  rewrite (bind_run _ _ _ _ _ M1). cbn [fst snd].
  pose proof (pop_step c (a_stop_cmd a) (KBytes "ExecStop") x
                (delete (KBytes "ExecStart") d) c2 (heap s) s H2) as M2.
  rewrite override_list_delete in M2 by done.
  destruct (override_list d (KBytes "ExecStop")) as [L2|] eqn:O2.
  2: { exists 1%nat, (KBytes "ExecStop"). split; [done|]. split; [done|].
       split; [repeat constructor; congruence|].
       by rewrite (bind_raise _ _ _ _ _ M2). }
  rewrite (bind_run _ _ _ _ _ M2). cbn [fst snd].
  pose proof (pop_step c (a_stop_post_cmd a) (KBytes "ExecStopPost") x
                (delete (KBytes "ExecStop") (delete (KBytes "ExecStart") d))
                c3 (heap s) s H3) as M3.
  rewrite !override_list_delete in M3 by done.
  destruct (override_list d (KBytes "ExecStopPost")) as [L3|] eqn:O3.
  2: { exists 2%nat, (KBytes "ExecStopPost"). split; [done|].
       split; [done|]. split; [repeat constructor; congruence|].
       by rewrite (bind_raise _ _ _ _ _ M3). }
  rewrite (bind_run _ _ _ _ _ M3). cbn [fst snd].
  pose proof (pop_step c (a_start_pre_cmd a) (KBytes "ExecStartPre") x
                (delete (KBytes "ExecStopPost")
                   (delete (KBytes "ExecStop")
                      (delete (KBytes "ExecStart") d)))
                c4 (heap s) s H4) as M4.
  rewrite !override_list_delete in M4 by done.
  destruct (override_list d (KBytes "ExecStartPre")) as [L4|] eqn:O4.
  2: { exists 3%nat, (KBytes "ExecStartPre"). split; [done|].
       split; [done|]. split; [repeat constructor; congruence|].
       by rewrite (bind_raise _ _ _ _ _ M4). }
  rewrite (bind_run _ _ _ _ _ M4). cbn [fst snd].
  pose proof (pop_step c (a_start_post_cmd a) (KBytes "ExecStartPost") x
                (delete (KBytes "ExecStartPre")
                   (delete (KBytes "ExecStopPost")
                      (delete (KBytes "ExecStop")
                         (delete (KBytes "ExecStart") d))))
                c5 (heap s) s H5) as M5.
  rewrite !override_list_delete in M5 by done.
  destruct (override_list d (KBytes "ExecStartPost")) as [L5|] eqn:O5.
  2: { exists 4%nat, (KBytes "ExecStartPost"). split; [done|].
       split; [done|]. split; [repeat constructor; congruence|].
       by rewrite (bind_raise _ _ _ _ _ M5). }
  exfalso. rewrite !elem_of_cons, elem_of_nil in Hk.
  destruct Hk as [->|[->|[->|[->|[->|[]]]]]]; congruence.
Qed.

Lemma bad_override_witness :
  exists n k0,
    command_keys !! n = Some k0
    /\ override_list ({[ ExecStop := VStr "x"; KBytes "Nice" := VInt 5 ]}
                       : dict) k0 = None
    /\ Forall (fun kj =>
                 override_list ({[ ExecStop := VStr "x";
                                   KBytes "Nice" := VInt 5 ]} : dict) kj
                 <> None) (take n command_keys)
    /\ run (quiet []) call_extra_none (start_state heap_bad_override ∅)
       = (Raise TypeError,
          set_heap
            (<[1%positive :=
                 pop_all (take (S n) command_keys)
                   {[ ExecStop := VStr "x"; KBytes "Nice" := VInt 5 ]}]>
               (heap (start_state heap_bad_override ∅)))
            (start_state heap_bad_override ∅)).
Proof.
  apply (bad_override (quiet []) call_extra_none
           (start_state heap_bad_override ∅) 1%positive
           {[ ExecStop := VStr "x"; KBytes "Nice" := VInt 5 ]} ExecStop
           None None None eq_refl eq_refl
           ltac:(unfold command_keys; by repeat constructor)
           ltac:(vm_compute; reflexivity) eq_refl eq_refl eq_refl).
  intros what Hw. rewrite !elem_of_cons, elem_of_nil in Hw.
  destruct Hw as [->|[->|[->|[->|[->|[]]]]]]; by eexists.
Defined.

(** ** Lines 204-211: a stdin that is not a terminal *)

Lemma wire_stdin_not_a_terminal c fd master selectors s :
  tattr s !! fd = None ->
  wire_stdin c (Some fd) (Some master) selectors s = (Raise TermiosError, s).
Proof. intros Ht. unfold wire_stdin, bind, tcgetattr. by rewrite Ht. Qed.

Lemma body_not_a_terminal c a l s fd master path :
  (open_pty c a s).1 = Ok (Some master, path) -> truthy path = true ->
  l_stdin l = Some fd -> tattr s !! fd = None ->
  body c a l s
  = (Raise TermiosError, with_registered (opened_close c a) s).
Proof.
  intros Hopen Hpath Hin Ht. rewrite body_unfold.
  pose proof (open_pty_state c a s) as H12.
  destruct (open_pty c a s) as [r s2] eqn:Ho. simpl in *. subst r s2.
  rewrite (bind_run _ _ _ _ _ Ho). unfold after_pty, pty_wire. simpl.
  rewrite Hpath, Hin.
  erewrite bind_raise; [done|]. erewrite bind_raise; [done|].
  by apply wire_stdin_not_a_terminal.
Qed.

(** X14: with a pty path in effect, a pty master and a [stdin] that is
    not a terminal, [tty.tcgetattr(stdin)] raises (line 208) and the
    call raises without having sent any request and without having
    changed any terminal attribute; when no [__exit__] and no
    [os.close] raises on the way out, the exception that reaches the
    caller is the one of [tcgetattr]. *)
Theorem stdin_not_a_terminal c a s fd master path :
  succeeds (prologue c a s).1 = true ->
  fails c CBusEnter = false -> fails c CManagerEnter = false ->
  (open_pty c a s).1 = Ok (Some master, path) -> truthy path = true ->
  get_fno (a_stdin a) = inr (Some fd) -> tattr s !! fd = None ->
  requests (trace (run c a) s) = []
  /\ tattr (run c a s).2 = tattr s
  /\ (exists e, (run c a s).1 = Raise e)
  /\ (fails c CManagerExit = false -> fails c CBusExit = false ->
      fails c COsClose = false ->
      (run c a s).1 = Raise TermiosError).
Proof.
  intros Hok Hb Hm Hopen Hpath Hin Ht.
  destruct (prologue c a s) as [[l|e|] s1] eqn:Hpro; try done. clear Hok.
  apply prologue_ok in Hpro as Hps.
  assert (Hl : l_stdin l = Some fd).
  { rewrite (ps_stdin _ _ _ _ _ Hps) in Hin. by injection Hin. }
  assert (Hbody : body c a l (set_ctexit CExit.init s1)
                  = (Raise TermiosError,
                     with_registered (opened_close c a)
                       (set_ctexit CExit.init s1))).
  { apply (body_not_a_terminal c a l _ fd master path); try done.
    - by rewrite (open_pty_outcome c a _ s).
    - simpl. by rewrite (ps_tattr _ _ _ _ _ Hps). }
  assert (Hrun : exists r returned,
            run c a s
            = (r, MkState (heap s1) (tattr s1)
                    (log s1 ++ map cleanup_of returned)
                    (CExit.Make (opened_close c a)))
            /\ Forall is_act_close returned
            /\ (exists e, r = Raise e)
            /\ (fails c CManagerExit = false -> fails c CBusExit = false ->
                fails c COsClose = false -> r = Raise TermiosError)).
  { rewrite run_unfold, (bind_run _ _ _ _ _ Hpro).
    unfold with_cexit, guarded, with_ctx. rewrite Hb, Hm, Hbody.
    assert (Hshape : forall r0 : outcome unit_handle,
              (exists e, r0 = Raise e) ->
              exists r returned,
                (let '(_, e, s'') :=
                   CExit.exit_ (call_action c)
                     (ctexit (with_registered (opened_close c a)
                                (set_ctexit CExit.init s1)))
                     (exc_of r0)
                     (with_registered (opened_close c a)
                        (set_ctexit CExit.init s1)) in
                 (match e with Some e' => Raise e' | None => r0 end, s''))
                = (r, MkState (heap s1) (tattr s1)
                        (log s1 ++ map cleanup_of returned)
                        (CExit.Make (opened_close c a)))
                /\ Forall is_act_close returned
                /\ (exists e, r = Raise e)
                /\ (fails c COsClose = false -> r = r0)).
    { intros r0 [e0 ->]. unfold CExit.exit_, with_registered. simpl.
      unfold opened_close. destruct (_ && _); simpl.
      - destruct (fails c COsClose); simpl.
        + exists (Raise (External COsClose)), []. simpl.
          rewrite app_nil_r. split; [done|]. split; [done|].
          split; [by eexists|done].
        + exists (Raise e0), [ActClose (local_pty c).1]. simpl.
          split; [done|]. split; [repeat constructor; by eexists|].
          split; [by eexists|done].
      - exists (Raise e0), []. simpl. rewrite app_nil_r.
        split; [done|]. split; [done|]. split; [by eexists|done]. }
    destruct (fails c CManagerExit) eqn:Hme;
      destruct (fails c CBusExit) eqn:Hbe;
      match goal with
      | |- context [CExit.exit_ _ _ (exc_of ?r0)] =>
          destruct (Hshape r0 ltac:(by eexists))
            as (r & returned & Heq & Hf & Hex & Hsame)
      end;
      exists r, returned; (split; [exact Heq|]); (split; [done|]);
      (split; [done|]); intros; try done; by apply Hsame. }
  destruct Hrun as (r & returned & Hrun & Hf & Hex & Hexact).
  assert (Hreq : requests (trace (run c a) s) = []).
  { unfold trace. rewrite Hrun. simpl.
    rewrite (ps_log _ _ _ _ _ Hps), drop_app_length.
    apply (requests_none is_act_close_event).
    - by intros ev [fd' ->].
    - clear -Hf. induction Hf as [|act acts [fd' ->] _ IH]; simpl;
        constructor; [by exists fd' | done]. }
  split; [done|]. rewrite Hrun. simpl.
  split; [by rewrite (ps_tattr _ _ _ _ _ Hps)|]. split; done.
Qed.

Lemma stdin_not_a_terminal_witness :
  (run (quiet []) call_wait_stdin (start_state ∅ ∅)).1 = Raise TermiosError.
Proof.
  apply (proj2 (proj2 (proj2
           (stdin_not_a_terminal (quiet []) call_wait_stdin
              (start_state ∅ ∅) 0 5 (VBytes "/dev/pts/3")
              ltac:(vm_compute; reflexivity) eq_refl eq_refl eq_refl
              eq_refl eq_refl eq_refl)))
           eq_refl eq_refl eq_refl).
Defined.
